(** * Presence manager: decision and session-lifecycle engine

    A shallow embedding of [solo/manager/cmd/server.go]: confidence fusion
    inside [handleSignalsSubmit], room resolution ([determineRoomID]), the
    presence-session statements ([startUserSession], [endUserSession],
    [updateLastSeen], [updateUserPresence]) and the stale-session sweep
    ([cleanUpOldSessions]).

    Around that engine the file also covers the rest of the server: the
    checks an upload passes first, the estimation relay, the CSV parsers,
    the history and occupants queries, fingerprint collection, the route
    of a user's history and the sanitising of logged text.

    Go's [int] values are only compared, never computed with, so they are
    [Z].  A [time.Time] is a [Z] instant on one time line; a
    [time.Duration] is a [Z] number of the same units.  Everything the
    process reaches through [*sql.DB], the file system or HTTP is part of
    an explicit [World] that every function threads. *)

From Stdlib Require Import ZArith List String Ascii Bool Arith Lia.
From Stdlib Require Import Permutation Sorted QArith.
Import ListNotations.
Open Scope Z_scope.

Set Implicit Arguments.

(** ** Errors and results *)

(** The Go code builds its errors with [fmt.Errorf]; the model keeps the
    cause. *)
Inductive error : Type :=
| ErrDriver        (* the database call itself failed *)
| ErrNoRows        (* sql.ErrNoRows: the query matched no row *)
| ErrCSV           (* a CSV file could not be opened or read *)
| ErrNoSignalData  (* "BLEおよびWiFi信号が見つかりません" *)
| ErrNoMatch       (* "有効なBLEまたはWiFiアクセスポイントが見つかりません" *)
| ErrTransport.    (* an estimation or inquiry request failed *)

(** A Go pair [(T, error)]. *)
Inductive result (A : Type) : Type :=
| Ok (a : A)
| Err (e : error).
Arguments Ok {A} a.
Arguments Err {A} e.

(** ** Data model *)

Record PresenceSession : Type := mkSession {
  SessionID : Z;
  UserID    : Z;
  RoomID    : Z;
  StartTime : Z;
  EndTime   : option Z;   (* *time.Time, nil while the session is open *)
  LastSeen  : Z
}.

(** [RSSI] is a [float64] in the source; it is parsed and logged and never
    takes part in a decision, so the model carries it as an opaque
    integer reading. *)
Record BeaconSignal : Type := mkBeacon {
  b_UUID  : string;
  b_BSSID : string;
  b_RSSI  : Z
}.

Record WiFiSignal : Type := mkWiFi {
  w_SSID  : string;
  w_BSSID : string;
  w_RSSI  : Z
}.

(** Which copy of an upload was stored under [./manager_fingerprint/0]. *)
Inductive NegativeSample : Type :=
| NegativeWifi (unixTime : Z)
| NegativeBle  (unixTime : Z).

(** The state outside the process.  [db_script] lists the outcome of the
    database calls still to come ([true]: the call goes through); once the
    script is used up every call goes through. *)
Record World : Type := mkWorld {
  beacons                : list (string * Z);   (* service_uuid, room_id *)
  wifi_access_points     : list (string * Z);   (* bssid, room_id *)
  user_presence_sessions : list PresenceSession;
  next_session_id        : Z;
  db_script              : list bool;
  inquiry_calls          : nat;                 (* requests sent to the arbiter *)
  negative_samples       : list NegativeSample
}.

Definition with_sessions (rows : list PresenceSession) (w : World) : World :=
  mkWorld (beacons w) (wifi_access_points w) rows (next_session_id w)
          (db_script w) (inquiry_calls w) (negative_samples w).

Definition with_next_session_id (n : Z) (w : World) : World :=
  mkWorld (beacons w) (wifi_access_points w) (user_presence_sessions w) n
          (db_script w) (inquiry_calls w) (negative_samples w).

Definition with_db_script (s : list bool) (w : World) : World :=
  mkWorld (beacons w) (wifi_access_points w) (user_presence_sessions w)
          (next_session_id w) s (inquiry_calls w) (negative_samples w).

Definition with_inquiry_calls (n : nat) (w : World) : World :=
  mkWorld (beacons w) (wifi_access_points w) (user_presence_sessions w)
          (next_session_id w) (db_script w) n (negative_samples w).

Definition with_negative_samples (l : list NegativeSample) (w : World) : World :=
  mkWorld (beacons w) (wifi_access_points w) (user_presence_sessions w)
          (next_session_id w) (db_script w) (inquiry_calls w) l.

(** ** The monad of the handlers *)

Definition M (A : Type) : Type := World -> A * World.

Definition ret {A} (a : A) : M A := fun w => (a, w).

Definition bind {A B} (c : M A) (k : A -> M B) : M B :=
  fun w => let (a, w') := c w in k a w'.

Declare Scope go_scope.
Delimit Scope go_scope with go.
Notation "x <- c ;; k" := (bind c (fun x => k))
  (at level 61, c at next level, right associativity) : go_scope.
Notation "c ;;; k" := (bind c (fun _ => k))
  (at level 61, right associativity) : go_scope.
Open Scope go_scope.

(** One round trip to the database: reads the next outcome off the
    script. *)
Definition db_roundtrip : M bool := fun w =>
  match db_script w with
  | [] => (true, w)
  | ok :: rest => (ok, with_db_script rest w)
  end.

(** ** FingerprintIndex *)

Definition upper_ascii (c : ascii) : ascii :=
  let n := nat_of_ascii c in
  if ((97 <=? n) && (n <=? 122))%nat then ascii_of_nat (n - 32) else c.

Definition lower_ascii (c : ascii) : ascii :=
  let n := nat_of_ascii c in
  if ((65 <=? n) && (n <=? 90))%nat then ascii_of_nat (n + 32) else c.

Fixpoint map_string (f : ascii -> ascii) (s : string) : string :=
  match s with
  | EmptyString => EmptyString
  | String c rest => String (f c) (map_string f rest)
  end.

(** SQL [UPPER] and [LOWER] on the ASCII letters. *)
Definition UPPER : string -> string := map_string upper_ascii.
Definition LOWER : string -> string := map_string lower_ascii.

(** [SELECT room_id FROM beacons WHERE UPPER(service_uuid) = UPPER($1)
    LIMIT 1], rows taken in table order. *)
Definition select_beacon_room (tbl : list (string * Z)) (uuid : string) : option Z :=
  option_map snd
    (find (fun row => String.eqb (UPPER (fst row)) (UPPER uuid)) tbl).

(** [SELECT room_id FROM wifi_access_points WHERE LOWER(bssid) = LOWER($1)
    LIMIT 1]. *)
Definition select_wifi_room (tbl : list (string * Z)) (bssid : string) : option Z :=
  option_map snd
    (find (fun row => String.eqb (LOWER (fst row)) (LOWER bssid)) tbl).

Definition getRoomIDByBeacon (beacon : BeaconSignal) : M (result Z) :=
  ok <- db_roundtrip ;;
  fun w =>
    if ok then
      match select_beacon_room (beacons w) (b_UUID beacon) with
      | Some roomID => (Ok roomID, w)
      | None => (Err ErrNoRows, w)
      end
    else (Err ErrDriver, w).

Definition getRoomIDByWifi (wifi : WiFiSignal) : M (result Z) :=
  ok <- db_roundtrip ;;
  fun w =>
    if ok then
      match select_wifi_room (wifi_access_points w) (w_BSSID wifi) with
      | Some roomID => (Ok roomID, w)
      | None => (Err ErrNoRows, w)
      end
    else (Err ErrDriver, w).

(** ** RoomResolver *)

(** The first loop of [determineRoomID]: [bleRoomID] starts at 0, a failed
    lookup is skipped, the first lookup that returns stores its room and
    leaves the loop. *)
Fixpoint scanBeacons (bleSignals : list BeaconSignal) : M Z :=
  match bleSignals with
  | [] => ret 0
  | beacon :: rest =>
      r <- getRoomIDByBeacon beacon ;;
      match r with
      | Err _ => scanBeacons rest
      | Ok roomID => ret roomID
      end
  end.

(** The second loop, over the WiFi signals. *)
Fixpoint scanWifi (wifiSignals : list WiFiSignal) : M Z :=
  match wifiSignals with
  | [] => ret 0
  | wifi :: rest =>
      r <- getRoomIDByWifi wifi ;;
      match r with
      | Err _ => scanWifi rest
      | Ok roomID => ret roomID
      end
  end.

(** [parseBLECSV] and [parseWifiCSV] read the two stored files; their
    outcome is an input here. *)
Definition determineRoomID (ble : result (list BeaconSignal))
    (wifi : result (list WiFiSignal)) : M (result Z) :=
  match ble with
  | Err e => ret (Err e)
  | Ok bleSignals =>
    match wifi with
    | Err e => ret (Err e)
    | Ok wifiSignals =>
      if (Nat.eqb (List.length bleSignals) 0 && Nat.eqb (List.length wifiSignals) 0)%bool
      then ret (Err ErrNoSignalData)
      else
        bleRoomID <- scanBeacons bleSignals ;;
        wifiRoomID <- scanWifi wifiSignals ;;
        if negb (bleRoomID =? 0) then ret (Ok bleRoomID)
        else if negb (wifiRoomID =? 0) then ret (Ok wifiRoomID)
        else ret (Err ErrNoMatch)
    end
  end.

(** ** SessionStore statements *)

Definition isOpen (s : PresenceSession) : bool :=
  match EndTime s with None => true | Some _ => false end.

(** The row filter [user_id = $uid AND end_time IS NULL]. *)
Definition openFor (userID : Z) (s : PresenceSession) : bool :=
  (UserID s =? userID) && isOpen s.

Definition setEndTime (endTime : Z) (s : PresenceSession) : PresenceSession :=
  mkSession (SessionID s) (UserID s) (RoomID s) (StartTime s) (Some endTime)
            (LastSeen s).

Definition setLastSeen (lastSeen : Z) (s : PresenceSession) : PresenceSession :=
  mkSession (SessionID s) (UserID s) (RoomID s) (StartTime s) (EndTime s)
            lastSeen.

(** [UPDATE user_presence_sessions SET end_time = $1
     WHERE user_id = $2 AND end_time IS NULL]. *)
Definition sql_end (userID endTime : Z) (rows : list PresenceSession)
    : list PresenceSession :=
  map (fun s => if openFor userID s then setEndTime endTime s else s) rows.

(** [UPDATE user_presence_sessions SET last_seen = $1
     WHERE user_id = $2 AND end_time IS NULL]. *)
Definition sql_touch (userID lastSeen : Z) (rows : list PresenceSession)
    : list PresenceSession :=
  map (fun s => if openFor userID s then setLastSeen lastSeen s else s) rows.

(** [INSERT INTO user_presence_sessions (user_id, room_id, start_time,
     last_seen) VALUES ($1, $2, $3, $3)]: the store generates the
    session id and leaves [end_time] NULL. *)
Definition sql_insert (sessionID userID roomID startTime : Z)
    (rows : list PresenceSession) : list PresenceSession :=
  rows ++ [mkSession sessionID userID roomID startTime None startTime].

(** [SELECT room_id FROM user_presence_sessions
     WHERE user_id = $1 AND end_time IS NULL], read with [QueryRow]:
    the first row, or [sql.ErrNoRows]. *)
Definition sql_open_room (userID : Z) (rows : list PresenceSession) : option Z :=
  option_map RoomID (find (openFor userID) rows).

Definition startUserSession (userID roomID startTime : Z) : M (result unit) :=
  ok <- db_roundtrip ;;
  fun w =>
    if ok then
      (Ok tt,
       with_next_session_id (next_session_id w + 1)
         (with_sessions
            (sql_insert (next_session_id w) userID roomID startTime
               (user_presence_sessions w)) w))
    else (Err ErrDriver, w).

(** The count read with [RowsAffected] only feeds a log line. *)
Definition endUserSession (userID endTime : Z) : M (result unit) :=
  ok <- db_roundtrip ;;
  fun w =>
    if ok then
      (Ok tt, with_sessions (sql_end userID endTime (user_presence_sessions w)) w)
    else (Err ErrDriver, w).

Definition updateLastSeen (userID lastSeen : Z) : M (result unit) :=
  ok <- db_roundtrip ;;
  fun w =>
    if ok then
      (Ok tt, with_sessions (sql_touch userID lastSeen (user_presence_sessions w)) w)
    else (Err ErrDriver, w).

(** The [SELECT] at the head of the else branch of [updateUserPresence]. *)
Definition queryOpenRoom (userID : Z) : M (result Z) :=
  ok <- db_roundtrip ;;
  fun w =>
    if ok then
      match sql_open_room userID (user_presence_sessions w) with
      | Some existingRoomID => (Ok existingRoomID, w)
      | None => (Err ErrNoRows, w)
      end
    else (Err ErrDriver, w).

(** ** PresenceStateMachine *)

Definition updateUserPresence (userID estimationConfidence inquiryConfidence
    lastSeen roomID : Z) : M (result unit) :=
  if inquiryConfidence >? estimationConfidence then
    r <- endUserSession userID lastSeen ;;
    match r with
    | Err e => ret (Err e)
    | Ok _ => ret (Ok tt)
    end
  else
    q <- queryOpenRoom userID ;;
    match q with
    | Err ErrNoRows =>
        r <- startUserSession userID roomID lastSeen ;;
        match r with
        | Err e => ret (Err e)
        | Ok _ => ret (Ok tt)
        end
    | Err e => ret (Err e)
    | Ok _ =>
        r <- updateLastSeen userID lastSeen ;;
        match r with
        | Err e => ret (Err e)
        | Ok _ => ret (Ok tt)
        end
    end.

(** ** The upload handler *)

(** What one request brings with it from line 788 of the handler on: the
    user and clock reading fixed earlier in the handler, the two parsed
    files, the replies the estimator and the arbiter give, and whether the
    file-system and response-writer calls go through. *)
Record Upload : Type := mkUpload {
  up_userID       : Z;
  up_currentTime  : Z;
  up_unixTime     : Z;
  up_ble          : result (list BeaconSignal);
  up_wifi         : result (list WiFiSignal);
  up_estimation   : result Z;
  up_inquiry      : result Z;
  up_mkdir_ok     : bool;
  up_copy_wifi_ok : bool;
  up_copy_ble_ok  : bool;
  up_encode_ok    : bool
}.

(** The [http.Error] call sites of the handler. *)
Inductive Stage : Type :=
| StEstimation | StInquiry | StRoom
| StNegativeDir | StNegativeWifi | StNegativeBle
| StEncode.

Inductive Response : Type :=
| UploadAccepted                      (* 200, "シグナルデータを受信しました" *)
| UploadFailed (status : Z) (at_stage : Stage).

Definition StatusInternalServerError : Z := 500.

Definition forwardFilesToInquiryServer (up : Upload) : M (result Z) :=
  fun w => (up_inquiry up, with_inquiry_calls (S (inquiry_calls w)) w).

Definition copyFile (sample : NegativeSample) (ok : bool) : M bool :=
  fun w =>
    if ok then (true, with_negative_samples (negative_samples w ++ [sample]) w)
    else (false, w).

(** Lines 883-889: the reply every path that did not return reaches. *)
Definition respond (up : Upload) : M Response :=
  if up_encode_ok up then ret UploadAccepted
  else ret (UploadFailed StatusInternalServerError StEncode).

(** Lines 805-816, and again 861-872 with 0 for the inquiry confidence:
    resolve the room, then apply the presence update; the error of
    [updateUserPresence] is logged and the handler goes on. *)
Definition presentBlock (up : Upload) (estimationConfidence inquiryConfidence : Z)
    : M Response :=
  r <- determineRoomID (up_ble up) (up_wifi up) ;;
  match r with
  | Err _ => ret (UploadFailed StatusInternalServerError StRoom)
  | Ok roomID =>
      updateUserPresence (up_userID up) estimationConfidence inquiryConfidence
        (up_currentTime up) roomID ;;;
      respond up
  end.

(** Lines 818-823, and again 874-879: end the session; the error is
    logged and the handler goes on. *)
Definition endBlock (up : Upload) : M unit :=
  endUserSession (up_userID up) (up_currentTime up) ;;;
  ret tt.

(** Lines 825-857: keep the upload as a negative sample. *)
Definition negativeSampleBlock (up : Upload) : M Response :=
  if up_mkdir_ok up then
    okw <- copyFile (NegativeWifi (up_unixTime up)) (up_copy_wifi_ok up) ;;
    if okw then
      okb <- copyFile (NegativeBle (up_unixTime up)) (up_copy_ble_ok up) ;;
      if okb then respond up
      else ret (UploadFailed StatusInternalServerError StNegativeBle)
    else ret (UploadFailed StatusInternalServerError StNegativeWifi)
  else ret (UploadFailed StatusInternalServerError StNegativeDir).

Definition handleSignalsSubmit (up : Upload) : M Response :=
  match up_estimation up with
  | Err _ => ret (UploadFailed StatusInternalServerError StEstimation)
  | Ok estimationConfidence =>
    if (estimationConfidence >=? 20) && (estimationConfidence <=? 70) then
      r <- forwardFilesToInquiryServer up ;;
      match r with
      | Err _ => ret (UploadFailed StatusInternalServerError StInquiry)
      | Ok inquiryConfidence =>
        if estimationConfidence >=? inquiryConfidence then
          presentBlock up estimationConfidence inquiryConfidence
        else
          endBlock up ;;;
          negativeSampleBlock up
      end
    else
      if estimationConfidence >? 70 then
        presentBlock up estimationConfidence 0
      else
        endBlock up ;;;
        respond up
  end.

(** ** StaleSessionReaper *)

(** [SELECT user_id, last_seen FROM user_presence_sessions
     WHERE end_time IS NULL AND last_seen < $1], collected into
    [usersToEnd]. *)
Definition sql_stale_users (cutoffTime : Z) (rows : list PresenceSession) : list Z :=
  map UserID (filter (fun s => isOpen s && (LastSeen s <? cutoffTime)) rows).

(** The loop over [usersToEnd]; [clock k] is what [time.Now()] reads when
    the [k]-th user is ended.  A failed [endUserSession] is logged. *)
Fixpoint endUsers (usersToEnd : list Z) (k : nat) (clock : nat -> Z) : M unit :=
  match usersToEnd with
  | [] => ret tt
  | uid :: rest =>
      endUserSession uid (clock k) ;;;
      endUsers rest (S k) clock
  end.

(** One pass of the [for] loop of [cleanUpOldSessions], [now] being the
    clock reading the cutoff is computed from. *)
Definition cleanUpTick (inactivityThreshold now : Z) (clock : nat -> Z) : M unit :=
  let cutoffTime := now - inactivityThreshold in
  ok <- db_roundtrip ;;
  if ok then
    fun w =>
      endUsers (sql_stale_users cutoffTime (user_presence_sessions w)) 0 clock w
  else ret tt.

(** The loop runs for ever; the model runs the passes of a finite list of
    ticker firings. *)
Fixpoint cleanUpOldSessions (inactivityThreshold : Z)
    (ticks : list (Z * (nat -> Z))) : M unit :=
  match ticks with
  | [] => ret tt
  | (now, clock) :: rest =>
      cleanUpTick inactivityThreshold now clock ;;;
      cleanUpOldSessions inactivityThreshold rest
  end.

(** ** Dispositions *)

(** The three verdicts of the spec's fusion table. *)
Inductive Disposition : Type :=
| Present (inquiryUsed : Z)
| Absent
| AbsentWithArchive.

(** What the handler runs once the verdict is fixed: the branch bodies of
    [handleSignalsSubmit], named by the verdict the spec gives them. *)
Definition applyDisposition (up : Upload) (estimationConfidence : Z)
    (d : Disposition) : M Response :=
  match d with
  | Present inquiryUsed => presentBlock up estimationConfidence inquiryUsed
  | Absent => endBlock up ;;; respond up
  | AbsentWithArchive => endBlock up ;;; negativeSampleBlock up
  end.

(** ** Store predicates *)

Definition openCount (userID : Z) (rows : list PresenceSession) : nat :=
  List.length (filter (openFor userID) rows).

Definition single_open (rows : list PresenceSession) : Prop :=
  forall userID, (openCount userID rows <= 1)%nat.

(** A store whose database calls all go through. *)
Definition db_reliable (w : World) : Prop := db_script w = [].

(** No row of either index table carries room 0. *)
Definition index_nonzero (w : World) : Prop :=
  (forall row, In row (beacons w) -> snd row <> 0) /\
  (forall row, In row (wifi_access_points w) -> snd row <> 0).

Definition emptyStore (bs ws : list (string * Z)) : World :=
  mkWorld bs ws [] 1 [] 0%nat [].

(** ** Operations on the store, as the running system issues them *)

Inductive Op : Type :=
| OpUpload (up : Upload)
| OpApply (userID estimationConfidence inquiryConfidence lastSeen roomID : Z)
| OpEnd (userID endTime : Z)
| OpHeartbeat (userID lastSeen : Z)
| OpReaperTick (inactivityThreshold now : Z) (clock : nat -> Z).

Definition runOp (op : Op) : M unit :=
  match op with
  | OpUpload up => handleSignalsSubmit up ;;; ret tt
  | OpApply u e i t r => updateUserPresence u e i t r ;;; ret tt
  | OpEnd u t => endUserSession u t ;;; ret tt
  | OpHeartbeat u t => updateLastSeen u t ;;; ret tt
  | OpReaperTick th now clock => cleanUpTick th now clock
  end.

(** Each operation comes with the outcomes of the database calls it will
    make. *)
Fixpoint runOps (ops : list (Op * list bool)) (w : World) : World :=
  match ops with
  | [] => w
  | (op, script) :: rest => runOps rest (snd (runOp op (with_db_script script w)))
  end.

(** The world right after the request to the arbiter has been sent. *)
Definition afterInquiry (w : World) : World :=
  with_inquiry_calls (S (inquiry_calls w)) w.

(** A computation that leaves an observation of the world as it found
    it. *)
Definition stable {X A} (obs : World -> X) (c : M A) : Prop :=
  forall w, obs (snd (c w)) = obs w.

Definition keeps_single_open {A} (c : M A) : Prop :=
  forall w, single_open (user_presence_sessions w) ->
            single_open (user_presence_sessions (snd (c w))).

(** ** Sample data *)

Definition beaconA : BeaconSignal := mkBeacon "A" "" (-60).
Definition beaconB : BeaconSignal := mkBeacon "b" "" (-70).
Definition wifiX : WiFiSignal := mkWiFi "lab" "x" (-40).

(** An upload by user 1 at time 1000 that carries one beacon, with the
    estimator answering [e] and the arbiter [inq]. *)
Definition demoUpload (e : Z) (inq : result Z) : Upload :=
  mkUpload 1 1000 1 (Ok [mkBeacon "aa" "" (-50)]) (Ok []) (Ok e) inq
           true true true true.

Definition demoWorld : World :=
  mkWorld [("AA", 5)]%string [("x", 3)]%string [] 1 [] 0%nat [].

(** An index whose beacon "A" sits in room 0. *)
Definition zeroRoomWorld : World :=
  mkWorld [("A", 0); ("B", 7)]%string [("X", 3)]%string [] 1 [] 0%nat [].

(** The same index without the row of beacon "A". *)
Definition plainWorld : World :=
  mkWorld [("B", 7)]%string [("X", 3)]%string [] 1 [] 0%nat [].

(** User 1 present in room 5 since 1000, user 2 gone since 950. *)
Definition sessionWorld : World :=
  mkWorld [("B", 7)]%string [("X", 3)]%string
          [mkSession 1 2 3 900 (Some 950) 940; mkSession 2 1 5 1000 None 1000]
          3 [] 0%nat [].

(** A table that breaks the intended invariant: user 1 has two open
    sessions, user 2 has one. *)
Definition doubleOpenWorld : World :=
  mkWorld [("B", 7)]%string [("X", 3)]%string
          [mkSession 1 1 5 100 None 100; mkSession 2 2 3 150 None 150;
           mkSession 3 1 7 200 None 2000]
          4 [] 0%nat [].

(** [sessionWorld] with the next database call failing. *)
Definition failingWorld : World := with_db_script [false] sessionWorld.

(** An upload the arbiter contradicts, whose negative-sample directory
    cannot be created. *)
Definition archiveFailUpload : Upload :=
  mkUpload 1 1000 1 (Ok [mkBeacon "aa" "" (-50)]) (Ok []) (Ok 45) (Ok 60)
           false true true true.

(** The store after one confident upload into an empty table, with the
    database answering from then on. *)
Definition reachedWorld : World :=
  with_db_script []
    (runOps [(OpUpload (demoUpload 80 (Err ErrTransport)), [])]
            (emptyStore [("AA", 5)]%string [])).

(** ** Relations between the table before and after a computation *)

(** A computation all of whose runs relate the world they start from to
    the world they end in. *)
Definition respects {A} (R : World -> World -> Prop) (c : M A) : Prop :=
  forall w, R w (snd (c w)).

(** The table only grows at its end, and a row already there keeps its
    place, its id, user, room and start time; once closed it stays as it
    is. *)
Definition history_kept (w w' : World) : Prop :=
  forall k s,
    nth_error (user_presence_sessions w) k = Some s ->
    exists s',
      nth_error (user_presence_sessions w') k = Some s' /\
      SessionID s' = SessionID s /\ UserID s' = UserID s /\
      RoomID s' = RoomID s /\ StartTime s' = StartTime s /\
      (EndTime s <> None -> s' = s).

(** Rows of users other than [userID] are the same, at the same places,
    before and after. *)
Definition only_touches (userID : Z) (w w' : World) : Prop :=
  (forall k s, nth_error (user_presence_sessions w) k = Some s ->
               UserID s <> userID ->
               nth_error (user_presence_sessions w') k = Some s) /\
  (forall k s, nth_error (user_presence_sessions w') k = Some s ->
               UserID s <> userID ->
               nth_error (user_presence_sessions w) k = Some s).

(** ** Log sanitising *)

(** Go strings are byte strings; [len] counts bytes.  The six ASCII bytes
    [strings.Fields] splits at (tab, line feed, vertical tab, form feed,
    carriage return, blank).  On a string of ASCII bytes these are all the
    white space there is. *)
Definition isAsciiSpace (c : ascii) : bool :=
  match nat_of_ascii c with
  | 9%nat | 10%nat | 11%nat | 12%nat | 13%nat | 32%nat => true
  | _ => false
  end.

Definition ascii_only (s : string) : Prop :=
  forall c, In c (list_ascii_of_string s) -> (nat_of_ascii c < 128)%nat.

(** [strings.ReplaceAll(s, old, new)] for a one-byte [old] and a one-byte
    [new]. *)
Definition ReplaceAllByte (s : string) (old new : ascii) : string :=
  map_string (fun c => if Ascii.eqb c old then new else c) s.

(** [strings.Fields]: the maximal runs of bytes that are not white
    space, in order. *)
Fixpoint Fields (s : string) : list string :=
  match s with
  | EmptyString => []
  | String c rest =>
      if isAsciiSpace c then Fields rest
      else
        match rest with
        | EmptyString => [String c EmptyString]
        | String c' _ =>
            if isAsciiSpace c' then String c EmptyString :: Fields rest
            else
              match Fields rest with
              | w :: ws => String c w :: ws
              | [] => [String c EmptyString]
              end
        end
  end.

(** [strings.Join(elems, sep)]. *)
Definition Join (elems : list string) (sep : string) : string :=
  String.concat sep elems.

Definition maxLength : nat := 1000.

(** The marker put after a cut string, 11 bytes in UTF-8. *)
Definition omittedMark : string := "...(省略)".

Definition sanitizeString (s : string) : string :=
  if (maxLength <? String.length s)%nat then
    substring 0 maxLength s ++ omittedMark
  else
    let s1 := ReplaceAllByte s "010"%char " "%char in
    let s2 := ReplaceAllByte s1 "013"%char " "%char in
    Join (Fields s2) " ".

(** A string in which every white-space byte is a blank that follows a
    byte that is not white space ([prevSpace] says whether the byte before
    the string was white space, or the string starts the text) and that
    does not end the text. *)
Fixpoint tidyFrom (prevSpace : bool) (s : string) : bool :=
  match s with
  | EmptyString => negb prevSpace
  | String c rest =>
      if isAsciiSpace c
      then Ascii.eqb c " "%char && negb prevSpace && tidyFrom true rest
      else tidyFrom false rest
  end.

Fixpoint repeatByte (c : ascii) (n : nat) : string :=
  match n with
  | O => EmptyString
  | S n' => String c (repeatByte c n')
  end.

(** A run of bytes none of which is white space. *)
Definition spaceFree (w : string) : Prop :=
  forall c, In c (list_ascii_of_string w) -> isAsciiSpace c = false.

Definition isWord (w : string) : Prop := w <> EmptyString /\ spaceFree w.

(** ** Presence history *)

(** [ORDER BY start_time]: rows with the same start time are kept in
    table order (SQL leaves their order open). *)
Fixpoint insertByStartTime (s : PresenceSession) (l : list PresenceSession)
    : list PresenceSession :=
  match l with
  | [] => [s]
  | x :: rest =>
      if StartTime s <=? StartTime x then s :: l
      else x :: insertByStartTime s rest
  end.

Definition orderByStartTime (rows : list PresenceSession) : list PresenceSession :=
  fold_right insertByStartTime [] rows.

(** [SELECT ... FROM user_presence_sessions WHERE start_time >= $1
     ORDER BY start_time]; the query is one database call, reading the
    rows to their end ([rows.Err]) another. *)
Definition fetchAllSessions (since : Z) : M (result (list PresenceSession)) :=
  ok <- db_roundtrip ;;
  if ok then
    okRows <- db_roundtrip ;;
    fun w =>
      if okRows then
        (Ok (orderByStartTime
               (filter (fun s => StartTime s >=? since)
                       (user_presence_sessions w))), w)
      else (Err ErrDriver, w)
  else ret (Err ErrDriver).

(** [... WHERE user_id = $1 AND start_time >= $2 ORDER BY start_time]. *)
Definition fetchUserSessions (userID since : Z) : M (result (list PresenceSession)) :=
  ok <- db_roundtrip ;;
  if ok then
    okRows <- db_roundtrip ;;
    fun w =>
      if okRows then
        (Ok (orderByStartTime
               (filter (fun s => (UserID s =? userID) && (StartTime s >=? since))
                       (user_presence_sessions w))), w)
      else (Err ErrDriver, w)
  else ret (Err ErrDriver).

(** A Go map from keys to slices, as the list of its entries;
    [m[k] = append(m[k], v)]. *)
Fixpoint mapAppend {K V : Type} (eqb : K -> K -> bool) (k : K) (v : V)
    (m : list (K * list V)) : list (K * list V) :=
  match m with
  | [] => [(k, [v])]
  | (k', vs) :: rest =>
      if eqb k' k then (k', vs ++ [v]) :: rest
      else (k', vs) :: mapAppend eqb k v rest
  end.

Record UserPresenceDay : Type := mkUserPresenceDay {
  day_Date     : string;
  day_Sessions : list PresenceSession
}.

Section SortByDate.

(** The two history replies are slices of days sorted with [sort.Slice]
    on the [Date] field; Go compares strings byte by byte. *)
Variable A : Type.
Variable date : A -> string.

Definition dateLess (a b : A) : bool := String.ltb (date a) (date b).

Fixpoint insertDay (d : A) (l : list A) : list A :=
  match l with
  | [] => [d]
  | x :: rest => if dateLess d x then d :: l else x :: insertDay d rest
  end.

(** [sort.Slice] by date.  The days come from the keys of a map, so no
    two carry the same date and their sorted order is unique. *)
Definition sortDays (l : list A) : list A := fold_right insertDay [] l.

(** Dates in non-decreasing order: the second is not less than the
    first. *)
Definition dateLe (a b : A) : Prop := dateLess b a = false.

End SortByDate.

Definition StatusBadRequest : Z := 400.

Inductive HistoryReply (A : Type) : Type :=
| HistoryOK (body : A)
| HistoryFailed (status : Z).
Arguments HistoryOK {A} body.
Arguments HistoryFailed {A} status.

(** The [since] instant of the two history handlers.  [dateParam] is what
    the [date] query parameter gives: nothing, a text [time.Parse]
    rejects, or the midnight that starts the given day; [monthAgo] is the
    clock reading one month back. *)
Definition historySince (dateParam : option (result Z)) (monthAgo : Z) : result Z :=
  match dateParam with
  | None => Ok monthAgo
  | Some (Err e) => Err e
  | Some (Ok midnight) => Ok midnight
  end.

(** [handleUserPresenceHistory].  [formatDate] is
    [t.In(loc).Format("2006-01-02")]; [mapOrder] is the order in which the
    [range] over [historyMap] happens to visit the entries. *)
Definition handleUserPresenceHistory
    (formatDate : Z -> string)
    (mapOrder : list (string * list PresenceSession) ->
                list (string * list PresenceSession))
    (dateParam : option (result Z)) (monthAgo : Z) (userID : Z)
    (encode_ok : bool)
    : M (HistoryReply (Z * list UserPresenceDay)) :=
  match historySince dateParam monthAgo with
  | Err _ => ret (HistoryFailed StatusBadRequest)
  | Ok since =>
      r <- fetchUserSessions userID since ;;
      match r with
      | Err _ => ret (HistoryFailed StatusInternalServerError)
      | Ok sessions =>
          let historyMap :=
            fold_left
              (fun m session =>
                 mapAppend String.eqb (formatDate (StartTime session)) session m)
              sessions [] in
          let userHistory :=
            map (fun entry => mkUserPresenceDay (fst entry) (snd entry))
                (mapOrder historyMap) in
          let sorted := sortDays day_Date userHistory in
          if encode_ok then ret (HistoryOK (userID, sorted))
          else ret (HistoryFailed StatusInternalServerError)
      end
  end.

(** [m[k]], the nil slice when the key is absent. *)
Fixpoint mapGet {K V : Type} (eqb : K -> K -> bool) (k : K)
    (m : list (K * list V)) : list V :=
  match m with
  | [] => []
  | (k', vs) :: rest => if eqb k' k then vs else mapGet eqb k rest
  end.

(** Start times in non-decreasing order. *)
Definition byStartTime (a b : PresenceSession) : Prop := StartTime a <= StartTime b.


Record UserPresenceDetail : Type := mkUserPresenceDetail {
  detail_UserID   : Z;
  detail_Sessions : list PresenceSession
}.

Record AllUsersPresenceDay : Type := mkAllUsersPresenceDay {
  all_Date  : string;
  all_Users : list UserPresenceDetail
}.

(** The body of the first loop of [handlePresenceHistory]: make the inner
    map of the day if it is not there, then
    [dayUserMap[date][userID] = append(dayUserMap[date][userID], session)]. *)
Fixpoint dayUserAppend (date : string) (session : PresenceSession)
    (m : list (string * list (Z * list PresenceSession)))
    : list (string * list (Z * list PresenceSession)) :=
  match m with
  | [] => [(date, mapAppend Z.eqb (UserID session) session [])]
  | (d, usersMap) :: rest =>
      if String.eqb d date
      then (d, mapAppend Z.eqb (UserID session) session usersMap) :: rest
      else (d, usersMap) :: dayUserAppend date session rest
  end.

(** [handlePresenceHistory].  [dayOrder] and [userOrder] are the orders in
    which the two [range] loops happen to visit the outer and the inner
    maps. *)
Definition handlePresenceHistory
    (formatDate : Z -> string)
    (dayOrder : list (string * list (Z * list PresenceSession)) ->
                list (string * list (Z * list PresenceSession)))
    (userOrder : list (Z * list PresenceSession) ->
                 list (Z * list PresenceSession))
    (dateParam : option (result Z)) (monthAgo : Z) (encode_ok : bool)
    : M (HistoryReply (list AllUsersPresenceDay)) :=
  match historySince dateParam monthAgo with
  | Err _ => ret (HistoryFailed StatusBadRequest)
  | Ok since =>
      r <- fetchAllSessions since ;;
      match r with
      | Err _ => ret (HistoryFailed StatusInternalServerError)
      | Ok sessions =>
          let dayUserMap :=
            fold_left
              (fun m session =>
                 dayUserAppend (formatDate (StartTime session)) session m)
              sessions [] in
          let allHistory :=
            map (fun dayEntry =>
                   mkAllUsersPresenceDay (fst dayEntry)
                     (map (fun userEntry =>
                             mkUserPresenceDetail (fst userEntry) (snd userEntry))
                          (userOrder (snd dayEntry))))
                (dayOrder dayUserMap) in
          let sorted := sortDays all_Date allHistory in
          if encode_ok then ret (HistoryOK sorted)
          else ret (HistoryFailed StatusInternalServerError)
      end
  end.

(** ** Fingerprint collection *)

Definition digitOf (c : ascii) : option Z :=
  let n := nat_of_ascii c in
  if ((48 <=? n) && (n <=? 57))%nat then Some (Z.of_nat (n - 48)) else None.

Fixpoint parseDigits (s : string) (acc : Z) : option Z :=
  match s with
  | EmptyString => Some acc
  | String c rest =>
      match digitOf c with
      | None => None
      | Some d => parseDigits rest (acc * 10 + d)
      end
  end.

(** [strconv.Atoi] on a 64-bit platform: an optional sign, at least one
    decimal digit and nothing else, and a value that fits [int]; [None]
    stands for a non-nil error (syntax or range). *)
Definition Atoi (s : string) : option Z :=
  match s with
  | EmptyString => None
  | String c rest =>
      let neg := Ascii.eqb c "-"%char in
      let body := if neg || Ascii.eqb c "+"%char then rest else s in
      match body with
      | EmptyString => None
      | String _ _ =>
          match parseDigits body 0 with
          | None => None
          | Some n =>
              let v := if neg then - n else n in
              if (- 2 ^ 63 <=? v) && (v <=? 2 ^ 63 - 1) then Some v else None
          end
      end
  end.

(** Where a collected file goes: [./estimation/positive_samples/<room>],
    [./estimation/negative_samples/<room>] or
    [./manager_fingerprint/<room>]. *)
Inductive SampleTree : Type :=
| PositiveSamples
| NegativeSamples
| ManagerFingerprint.

Inductive SignalFile : Type := WifiData | BleData.

(** A file written by [saveUploadedFile]: the tree, the directory named
    after the room, and the file [wifi_data_<t>.csv] or
    [ble_data_<t>.csv]. *)
Record SavedFile : Type := mkSavedFile {
  sf_tree      : SampleTree;
  sf_room      : string;
  sf_file      : SignalFile;
  sf_timestamp : Z
}.

(** What one request to [/api/fingerprint/collect] brings: the method,
    whether the form parses, the [room_id] form value (empty when
    absent), whether the two files are there, the clock reading, and
    whether the file-system and response-writer calls go through. *)
Record CollectRequest : Type := mkCollectRequest {
  cr_isPost       : bool;
  cr_formParses   : bool;
  cr_roomIDStr    : string;
  cr_hasWifi      : bool;
  cr_hasBle       : bool;
  cr_timestamp    : Z;
  cr_mkdirSave    : bool;
  cr_mkdirManager : bool;
  cr_saveWifi     : bool;
  cr_saveBle      : bool;
  cr_saveMgrWifi  : bool;
  cr_saveMgrBle   : bool;
  cr_encode       : bool
}.

Definition StatusOK : Z := 200.
Definition StatusMethodNotAllowed : Z := 405.

(** [handleFingerprintCollect]: the status sent and the files written, in
    the order they were written.  [filepath.Base] of a text [Atoi] accepts
    is that text (it has no separator), so the room directory is named by
    the form value as sent. *)
Definition handleFingerprintCollect (req : CollectRequest) : Z * list SavedFile :=
  if negb (cr_isPost req) then (StatusMethodNotAllowed, [])
  else if negb (cr_formParses req) then (StatusBadRequest, [])
  else
    let roomIDStr := cr_roomIDStr req in
    if String.eqb roomIDStr "" then (StatusBadRequest, [])
    else
      match Atoi roomIDStr with
      | None => (StatusBadRequest, [])
      | Some roomID =>
          let sampleTree := if roomID =? 0 then NegativeSamples else PositiveSamples in
          if negb (cr_hasWifi req) then (StatusBadRequest, [])
          else if negb (cr_hasBle req) then (StatusBadRequest, [])
          else
            let sanitizedRoomID := roomIDStr in
            if negb (cr_mkdirSave req) then (StatusInternalServerError, [])
            else if negb (cr_mkdirManager req) then (StatusInternalServerError, [])
            else
              let timestamp := cr_timestamp req in
              let f1 := mkSavedFile sampleTree sanitizedRoomID WifiData timestamp in
              let f2 := mkSavedFile sampleTree sanitizedRoomID BleData timestamp in
              let f3 := mkSavedFile ManagerFingerprint sanitizedRoomID WifiData timestamp in
              let f4 := mkSavedFile ManagerFingerprint sanitizedRoomID BleData timestamp in
              if negb (cr_saveWifi req) then (StatusInternalServerError, [])
              else if negb (cr_saveBle req) then (StatusInternalServerError, [f1])
              else if negb (cr_saveMgrWifi req)
                   then (StatusInternalServerError, [f1; f2])
              else if negb (cr_saveMgrBle req)
                   then (StatusInternalServerError, [f1; f2; f3])
              else if negb (cr_encode req)
                   then (StatusInternalServerError, [f1; f2; f3; f4])
              else (StatusOK, [f1; f2; f3; f4])
      end.

(** A text of one or more ['0'] bytes. *)
Fixpoint allZeros (s : string) : bool :=
  match s with
  | EmptyString => true
  | String c rest => Ascii.eqb c "0"%char && allZeros rest
  end.

Definition collectRequest (room : string) : CollectRequest :=
  mkCollectRequest true true room true true 1700 true true true true true true true.

(** ** Reading the uploaded CSV files *)

Section CSV.

(** Two library functions the parsers call: [strings.TrimSpace], and
    [strconv.ParseFloat] with [None] for a non-nil error.  The reading is
    carried as the opaque integer [BeaconSignal] and [WiFiSignal] hold. *)
Variable TrimSpace : string -> string.
Variable ParseFloat : string -> option Z.

(** [record[i]] for an index known to be in range. *)
Definition field (record : list string) (i : nat) : string :=
  nth i record EmptyString.


(** The loop of [parseWifiCSV]. *)
Fixpoint wifiSignals (records : list (list string)) : list WiFiSignal :=
  match records with
  | [] => []
  | record :: rest =>
      if (List.length record <? 3)%nat then wifiSignals rest
      else
        match ParseFloat (TrimSpace (field record 2)) with
        | None => wifiSignals rest
        | Some rssi =>
            mkWiFi (TrimSpace (field record 0)) (TrimSpace (field record 1)) rssi
            :: wifiSignals rest
        end
  end.




End CSV.

(** ** Current occupants *)

Record CurrentOccupant : Type := mkCurrentOccupant {
  occ_UserID   : string;
  occ_LastSeen : Z
}.

Record RoomOccupants : Type := mkRoomOccupants {
  ro_RoomID    : Z;
  ro_RoomName  : string;
  ro_Occupants : list CurrentOccupant
}.

(** One row of the query of [handleCurrentOccupants]: [rooms.room_id],
    [rooms.room_name], [users.user_id] and the session's [last_seen], the
    last two NULL where a LEFT JOIN found nothing. *)
Record OccupantRow : Type := mkOccupantRow {
  row_roomID   : Z;
  row_roomName : string;
  row_userID   : option string;
  row_lastSeen : option Z
}.

(** [... LEFT JOIN users ON user_presence_sessions.user_id = users.id] for
    one joined session; a [users] row is (id, user_id). *)
Definition joinUsers (users : list (Z * string)) (room : Z * string)
    (s : PresenceSession) : list OccupantRow :=
  match filter (fun u => fst u =? UserID s) users with
  | [] => [mkOccupantRow (fst room) (snd room) None (Some (LastSeen s))]
  | u :: us =>
      map (fun u => mkOccupantRow (fst room) (snd room) (Some (snd u))
                      (Some (LastSeen s)))
          (u :: us)
  end.

(** [rooms LEFT JOIN user_presence_sessions ON rooms.room_id =
    user_presence_sessions.room_id AND user_presence_sessions.end_time IS
    NULL] for one room; a [rooms] row is (room_id, room_name). *)
Definition joinRoom (users : list (Z * string)) (sessions : list PresenceSession)
    (room : Z * string) : list OccupantRow :=
  match filter (fun s => (RoomID s =? fst room) && isOpen s) sessions with
  | [] => [mkOccupantRow (fst room) (snd room) None None]
  | s :: ss => flat_map (joinUsers users room) (s :: ss)
  end.

(** The rows of the query, before [ORDER BY]. *)
Definition occupantRows (rooms users : list (Z * string))
    (sessions : list PresenceSession) : list OccupantRow :=
  flat_map (joinRoom users sessions) rooms.

Fixpoint roomsMapHas (roomID : Z) (m : list (Z * RoomOccupants)) : bool :=
  match m with
  | [] => false
  | (k, _) :: rest => (k =? roomID) || roomsMapHas roomID rest
  end.

(** [room := roomsMap[roomID]; room.Occupants = append(room.Occupants,
    occupant); roomsMap[roomID] = room]. *)
Fixpoint roomsMapAddOccupant (roomID : Z) (occupant : CurrentOccupant)
    (m : list (Z * RoomOccupants)) : list (Z * RoomOccupants) :=
  match m with
  | [] => []
  | (k, room) :: rest =>
      if k =? roomID
      then (k, mkRoomOccupants (ro_RoomID room) (ro_RoomName room)
                 (ro_Occupants room ++ [occupant])) :: rest
      else (k, room) :: roomsMapAddOccupant roomID occupant rest
  end.

(** [lastSeen.Time] of a [sql.NullTime]: the zero time when NULL. *)
Definition nullTime (t : option Z) : Z :=
  match t with Some v => v | None => 0 end.

(** The body of the [rows.Next()] loop. *)
Definition occupantsStep (m : list (Z * RoomOccupants)) (row : OccupantRow)
    : list (Z * RoomOccupants) :=
  let m1 :=
    if roomsMapHas (row_roomID row) m then m
    else m ++ [(row_roomID row,
                mkRoomOccupants (row_roomID row) (row_roomName row) [])] in
  match row_userID row with
  | Some userID =>
      roomsMapAddOccupant (row_roomID row)
        (mkCurrentOccupant userID (nullTime (row_lastSeen row))) m1
  | None => m1
  end.

(** [handleCurrentOccupants].  The tables [rooms] and [users], which the
    session engine never reads, are arguments; [rowOrder] is the order
    [ORDER BY rooms.room_id, users.user_id] gives under the database's
    collation, [mapOrder] the order the [range] over [roomsMap] happens to
    take.  [rooms.room_id], [rooms.room_name] and [users.user_id] are taken
    to hold no NULL (a row whose [Scan] fails is skipped by the loop); the
    two readings of the database are the query and [rows.Err]. *)
Definition handleCurrentOccupants
    (rooms users : list (Z * string))
    (rowOrder : list OccupantRow -> list OccupantRow)
    (mapOrder : list (Z * RoomOccupants) -> list (Z * RoomOccupants))
    (encode_ok : bool)
    : M (HistoryReply (list RoomOccupants)) :=
  ok <- db_roundtrip ;;
  if ok then
    okRows <- db_roundtrip ;;
    fun w =>
      if okRows then
        let rows := rowOrder (occupantRows rooms users (user_presence_sessions w)) in
        let roomsMap := fold_left occupantsStep rows [] in
        let response := map snd (mapOrder roomsMap) in
        if encode_ok then (HistoryOK response, w)
        else (HistoryFailed StatusInternalServerError, w)
      else (HistoryFailed StatusInternalServerError, w)
  else ret (HistoryFailed StatusInternalServerError).

(** The occupants of a room in the map, none when the room is absent. *)
Fixpoint roomsMapGet (roomID : Z) (m : list (Z * RoomOccupants))
    : list CurrentOccupant :=
  match m with
  | [] => []
  | (k, room) :: rest =>
      if k =? roomID then ro_Occupants room else roomsMapGet roomID rest
  end.

(** The occupant a row adds to room [roomID], if any. *)
Definition rowOccupant (roomID : Z) (row : OccupantRow) : list CurrentOccupant :=
  match row_userID row with
  | Some userID =>
      if row_roomID row =? roomID
      then [mkCurrentOccupant userID (nullTime (row_lastSeen row))]
      else []
  | None => []
  end.

(** ** The checks before the estimation *)

Definition StatusUnauthorized : Z := 401.

(** [getUserID]: the Basic-Auth user name, [None] standing for a request
    whose [r.BasicAuth()] is not ok. *)
Definition getUserID (basicAuth : option string) : string :=
  match basicAuth with
  | Some username => if String.eqb username "" then "anonymous" else username
  | None => "anonymous"
  end.

(** [getUserIDFromDB]: [SELECT id FROM users WHERE user_id = $1] read with
    [QueryRow(...).Scan], which takes the first row and fails with
    [sql.ErrNoRows] when there is none.  A [users] row is (id, user_id);
    texts are compared byte by byte. *)
Definition getUserIDFromDB (users : list (Z * string)) (username : string)
    : M (result Z) :=
  ok <- db_roundtrip ;;
  if ok then
    match find (fun u => String.eqb (snd u) username) users with
    | Some u => ret (Ok (fst u))
    | None => ret (Err ErrNoRows)
    end
  else ret (Err ErrDriver).

(** What lines 694-786 of [handleSignalsSubmit] look at before the
    estimation request: the method, the form and its two files, the
    credentials, the outcome of each file-system step, the sizes [os.Stat]
    reports ([None] when it fails), and in [sr_upload] everything the rest
    of the handler observes. *)
Record SubmitRequest : Type := mkSubmitRequest {
  sr_isPost     : bool;
  sr_formParses : bool;
  sr_hasWifi    : bool;
  sr_hasBle     : bool;
  sr_basicAuth  : option string;
  sr_mkdir      : bool;
  sr_saveWifi   : bool;
  sr_saveBle    : bool;
  sr_wifiSize   : option Z;
  sr_bleSize    : option Z;
  sr_upload     : Upload
}.

Inductive SubmitReply : Type :=
| SubmitRejected (status : Z)
| SubmitHandled (r : Response).

(** The upload as the user [userID] found by the lookup. *)
Definition uploadOf (userID : Z) (up : Upload) : Upload :=
  mkUpload userID (up_currentTime up) (up_unixTime up) (up_ble up) (up_wifi up)
           (up_estimation up) (up_inquiry up) (up_mkdir_ok up)
           (up_copy_wifi_ok up) (up_copy_ble_ok up) (up_encode_ok up).

(** [handleSignalsSubmit] from its first line: the checks of lines 694-786,
    then the part modelled above.  Beside the reply it returns the files
    [saveUploadedFile] stored under [./uploads]. *)
Definition handleSignalsSubmitRequest (users : list (Z * string))
    (req : SubmitRequest) : M (SubmitReply * list SignalFile) :=
  if negb (sr_isPost req) then ret (SubmitRejected StatusMethodNotAllowed, [])
  else if negb (sr_formParses req) then ret (SubmitRejected StatusBadRequest, [])
  else if negb (sr_hasWifi req) then ret (SubmitRejected StatusBadRequest, [])
  else if negb (sr_hasBle req) then ret (SubmitRejected StatusBadRequest, [])
  else
    found <- getUserIDFromDB users (getUserID (sr_basicAuth req)) ;;
    match found with
    | Err _ => ret (SubmitRejected StatusUnauthorized, [])
    | Ok userID =>
      if negb (sr_mkdir req)
      then ret (SubmitRejected StatusInternalServerError, [])
      else if negb (sr_saveWifi req)
      then ret (SubmitRejected StatusInternalServerError, [])
      else if negb (sr_saveBle req)
      then ret (SubmitRejected StatusInternalServerError, [WifiData])
      else
        match sr_wifiSize req, sr_bleSize req with
        | Some wifiSize, Some bleSize =>
            if (wifiSize =? 0) || (bleSize =? 0)
            then ret (SubmitRejected StatusBadRequest, [WifiData; BleData])
            else
              r <- handleSignalsSubmit (uploadOf userID (sr_upload req)) ;;
              ret (SubmitHandled r, [WifiData; BleData])
        | _, _ =>
            ret (SubmitRejected StatusInternalServerError, [WifiData; BleData])
        end
    end.

(** The requests that get as far as the user lookup. *)
Definition reachesLookup (req : SubmitRequest) : bool :=
  sr_isPost req && sr_formParses req && sr_hasWifi req && sr_hasBle req.

Definition demoRequest (basicAuth : option string) (e : Z) : SubmitRequest :=
  mkSubmitRequest true true true true basicAuth true true true
                  (Some 120) (Some 80) (demoUpload e (Err ErrTransport)).

Definition demoUsers : list (Z * string) :=
  [(1, "alice"); (2, "anonymous")]%string.

(** ** The estimation relay *)

(** [int(predictionResp.PredictedPercentage)].  A finite [float64] is a
    rational number; the conversion drops its fraction.  (What Go gives for
    a value outside the range of [int] is left to the implementation; the
    properties below are about percentages.) *)
Definition truncatePercentage (p : Q) : Z :=
  Z.quot (Qnum p) (Z.pos (Qden p)).

(** What [forwardFilesToEstimationServer] meets: the records
    [csv.Reader.ReadAll] gives for each stored file, whether the steps on
    the combined file and the request (create, write, form part, reopen,
    copy, [http.NewRequest]) succeed, and the estimation server, which for
    the records posted answers with a transport error or with a status code
    and, if the body decodes, its [predicted_percentage]. *)
Record EstimationExchange : Type := mkEstimationExchange {
  ex_bleRecords  : result (list (list string));
  ex_wifiRecords : result (list (list string));
  ex_fileSteps   : bool;
  ex_server      : list (list string) -> result (Z * option Q)
}.

Definition forwardFilesToEstimationServer (ex : EstimationExchange) : result Z :=
  match ex_bleRecords ex, ex_wifiRecords ex with
  | Ok bleRecords, Ok wifiRecords =>
      let combinedRecords := bleRecords ++ wifiRecords in
      if ex_fileSteps ex then
        match ex_server ex combinedRecords with
        | Ok (statusCode, body) =>
            if statusCode =? StatusOK then
              match body with
              | Some predictedPercentage =>
                  Ok (truncatePercentage predictedPercentage)
              | None => Err ErrTransport
              end
            else Err ErrTransport
        | Err e => Err e
        end
      else Err ErrCSV
  | Err e, _ => Err e
  | _, Err e => Err e
  end.

(** A request to [/api/signals/server]. *)
Record ServerSubmitRequest : Type := mkServerSubmitRequest {
  ss_isPost     : bool;
  ss_formParses : bool;
  ss_hasBle     : bool;
  ss_hasWifi    : bool;
  ss_saveBle    : bool;
  ss_saveWifi   : bool;
  ss_exchange   : EstimationExchange;
  ss_encode     : bool
}.

(** [handleSignalsServerSubmit]: the status answered and, on success, the
    [percentage_processed] of the body. *)
Definition handleSignalsServerSubmit (req : ServerSubmitRequest) : Z * option Z :=
  if negb (ss_isPost req) then (StatusMethodNotAllowed, None)
  else if negb (ss_formParses req) then (StatusBadRequest, None)
  else if negb (ss_hasBle req) then (StatusBadRequest, None)
  else if negb (ss_hasWifi req) then (StatusBadRequest, None)
  else if negb (ss_saveBle req) then (StatusInternalServerError, None)
  else if negb (ss_saveWifi req) then (StatusInternalServerError, None)
  else
    match forwardFilesToEstimationServer (ss_exchange req) with
    | Err _ => (StatusInternalServerError, None)
    | Ok percentage =>
        if ss_encode req then (StatusOK, Some percentage)
        else (StatusInternalServerError, None)
    end.

(** An estimation server that answers 200 with the given prediction when
    it is posted exactly [expected]. *)
Definition demoExchange (p : Q) : EstimationExchange :=
  mkEstimationExchange
    (Ok [["aa"; "-50"]])%string (Ok [["x"; "-60"]])%string true
    (fun records =>
       if list_eq_dec (list_eq_dec string_dec) records
            [["aa"; "-50"]; ["x"; "-60"]]%string
       then Ok (200, Some p) else Err ErrTransport).


(** ** The route [/api/users/] *)

Definition isSlash (c : ascii) : bool := Ascii.eqb c "/"%char.

Fixpoint trimLeftSlash (s : string) : string :=
  match s with
  | EmptyString => EmptyString
  | String c rest => if isSlash c then trimLeftSlash rest else s
  end.

Fixpoint trimRightSlash (s : string) : string :=
  match s with
  | EmptyString => EmptyString
  | String c rest =>
      match trimRightSlash rest with
      | EmptyString => if isSlash c then EmptyString else String c EmptyString
      | String _ _ as r => String c r
      end
  end.

(** [strings.Trim(s, "/")]. *)
Definition TrimSlash (s : string) : string := trimLeftSlash (trimRightSlash s).

(** [strings.Split(s, "/")]: one part more than there are slashes. *)
Fixpoint SplitSlash (s : string) : list string :=
  match s with
  | EmptyString => [EmptyString]
  | String c rest =>
      if isSlash c then EmptyString :: SplitSlash rest
      else
        match SplitSlash rest with
        | part :: parts => String c part :: parts
        | [] => [String c EmptyString]
        end
  end.

(** What the handler registered for [/api/users/] in [main] does with a
    request: [http.NotFound], the 400 for a user id that is no integer, or
    the call of [handleUserPresenceHistory] for a user id. *)
Inductive RouteReply : Type :=
| RouteNotFound
| RouteBadUserID
| RouteHistory (userID : Z).

Definition usersRoute (path : string) (isGet : bool) : RouteReply :=
  match SplitSlash (TrimSlash path) with
  | [p0; p1; userIDStr; p3] =>
      if String.eqb p0 "api" && String.eqb p1 "users"
         && String.eqb p3 "presence_history" && isGet
      then
        match Atoi userIDStr with
        | Some userID => RouteHistory userID
        | None => RouteBadUserID
        end
      else RouteNotFound
  | _ => RouteNotFound
  end.




(** * Properties *)

(** ** Running the model on the spec's examples *)

Example demo_upload_85 :
  handleSignalsSubmit (demoUpload 85 (Err ErrTransport)) demoWorld
  = (UploadAccepted,
     with_next_session_id 2
       (with_sessions [mkSession 1 1 5 1000 None 1000] demoWorld)).
Proof. reflexivity. Qed.

Example demo_upload_15 :
  handleSignalsSubmit (demoUpload 15 (Err ErrTransport))
    (with_sessions [mkSession 1 1 5 900 None 900] demoWorld)
  = (UploadAccepted,
     with_sessions [mkSession 1 1 5 900 (Some 1000) 900] demoWorld).
Proof. reflexivity. Qed.

Example demo_upload_45_60 :
  handleSignalsSubmit (demoUpload 45 (Ok 60))
    (with_sessions [mkSession 1 1 5 900 None 900] demoWorld)
  = (UploadAccepted,
     mkWorld [("AA", 5)]%string [("x", 3)]%string
             [mkSession 1 1 5 900 (Some 1000) 900] 1 [] 1%nat
             [NegativeWifi 1; NegativeBle 1]).
Proof. reflexivity. Qed.

Example demo_resolver_precedence :
  fst (determineRoomID
         (Ok [mkBeacon "A" "" 0; mkBeacon "b" "" 0]) (Ok [mkWiFi "" "X" 0])
         (mkWorld [("B", 7)]%string [("x", 3)]%string [] 1 [] 0%nat []))
  = Ok 7.
Proof. reflexivity. Qed.

(** The end-to-end scenario of the spec: a first upload at confidence 80
    opens a session in room 5; a later one that resolves to room 7 only
    refreshes [last_seen]; after 25 silent minutes the reaper closes the
    session at its own clock reading. *)
Example demo_end_to_end :
  let up1 := demoUpload 80 (Err ErrTransport) in
  let up2 := mkUpload 1 1600 2 (Ok [beaconB]) (Ok []) (Ok 80) (Err ErrTransport)
                      true true true true in
  let idx := mkWorld [("AA", 5); ("B", 7)]%string [] [] 1 [] 0%nat [] in
  let w1 := snd (handleSignalsSubmit up1 idx) in
  let w2 := snd (handleSignalsSubmit up2 w1) in
  let w3 := snd (cleanUpTick 1260 3100 (fun _ => 3101) w2) in
  user_presence_sessions w1 = [mkSession 1 1 5 1000 None 1000] /\
  user_presence_sessions w2 = [mkSession 1 1 5 1000 None 1600] /\
  user_presence_sessions w3 = [mkSession 1 1 5 1000 (Some 3101) 1600].
Proof. repeat split. Qed.

(** [startUserSession] itself inserts unconditionally; the guard that
    keeps one open session per user is the query in
    [updateUserPresence]. *)
Example demo_unguarded_start :
  openCount 1
    (user_presence_sessions
       (snd (startUserSession 1 7 1700 (snd (startUserSession 1 5 1600 demoWorld)))))
  = 2%nat.
Proof. reflexivity. Qed.

(** The reaper ends sessions by user: in a table with two open sessions of
    one user, the stale one takes the fresh one with it. *)
Example demo_reaper_by_user :
  user_presence_sessions
    (snd (cleanUpTick 21 2020 (fun _ => 2021) doubleOpenWorld))
  = [mkSession 1 1 5 100 (Some 2021) 100; mkSession 2 2 3 150 (Some 2021) 150;
     mkSession 3 1 7 200 (Some 2021) 2000].
Proof. reflexivity. Qed.

(** ** Basic facts about the monad and the database round trip *)

Lemma db_roundtrip_reliable w :
  db_reliable w -> db_roundtrip w = (true, w).
Proof. unfold db_reliable, db_roundtrip. intros ->. reflexivity. Qed.

Lemma db_roundtrip_cases w :
  db_roundtrip w = (true, w) \/
  exists ok rest, db_script w = ok :: rest /\
                  db_roundtrip w = (ok, with_db_script rest w).
Proof.
  unfold db_roundtrip. destruct (db_script w) as [|ok rest] eqn:E.
  - now left.
  - right. now exists ok, rest.
Qed.

Lemma with_sessions_same w :
  with_sessions (user_presence_sessions w) w = w.
Proof. now destruct w. Qed.

Lemma with_db_script_same w :
  with_db_script (db_script w) w = w.
Proof. now destruct w. Qed.

(** ** Case folding *)

Lemma upper_lower_ascii c : upper_ascii (lower_ascii c) = upper_ascii c.
Proof. destruct c as [[] [] [] [] [] [] [] []]; reflexivity. Qed.

Lemma lower_upper_ascii c : lower_ascii (upper_ascii c) = lower_ascii c.
Proof. destruct c as [[] [] [] [] [] [] [] []]; reflexivity. Qed.

Lemma upper_upper_ascii c : upper_ascii (upper_ascii c) = upper_ascii c.
Proof. destruct c as [[] [] [] [] [] [] [] []]; reflexivity. Qed.

Lemma lower_lower_ascii c : lower_ascii (lower_ascii c) = lower_ascii c.
Proof. destruct c as [[] [] [] [] [] [] [] []]; reflexivity. Qed.

Lemma UPPER_LOWER s : UPPER (LOWER s) = UPPER s.
Proof.
  unfold UPPER, LOWER in *.
  induction s as [|c s IH]; cbn [map_string]; [reflexivity|].
  now rewrite upper_lower_ascii; f_equal.
Qed.

Lemma LOWER_UPPER s : LOWER (UPPER s) = LOWER s.
Proof.
  unfold UPPER, LOWER in *.
  induction s as [|c s IH]; cbn [map_string]; [reflexivity|].
  now rewrite lower_upper_ascii; f_equal.
Qed.

Lemma UPPER_UPPER s : UPPER (UPPER s) = UPPER s.
Proof.
  unfold UPPER, LOWER in *.
  induction s as [|c s IH]; cbn [map_string]; [reflexivity|].
  now rewrite upper_upper_ascii; f_equal.
Qed.

Lemma LOWER_LOWER s : LOWER (LOWER s) = LOWER s.
Proof.
  unfold UPPER, LOWER in *.
  induction s as [|c s IH]; cbn [map_string]; [reflexivity|].
  now rewrite lower_lower_ascii; f_equal.
Qed.

Lemma select_beacon_room_caseless tbl a b :
  UPPER a = UPPER b -> select_beacon_room tbl a = select_beacon_room tbl b.
Proof. unfold select_beacon_room. now intros ->. Qed.

Lemma select_wifi_room_caseless tbl a b :
  LOWER a = LOWER b -> select_wifi_room tbl a = select_wifi_room tbl b.
Proof. unfold select_wifi_room. now intros ->. Qed.

Lemma select_beacon_room_in tbl uuid r :
  select_beacon_room tbl uuid = Some r -> exists row, In row tbl /\ snd row = r.
Proof.
  unfold select_beacon_room. intros H.
  destruct (find _ tbl) as [row|] eqn:F; [|discriminate].
  apply find_some in F. injection H as <-. exists row. tauto.
Qed.

Lemma select_wifi_room_in tbl bssid r :
  select_wifi_room tbl bssid = Some r -> exists row, In row tbl /\ snd row = r.
Proof.
  unfold select_wifi_room. intros H.
  destruct (find _ tbl) as [row|] eqn:F; [|discriminate].
  apply find_some in F. injection H as <-. exists row. tauto.
Qed.

(** ** The two scans of the resolver *)

Lemma getRoomIDByBeacon_reliable beacon w :
  db_reliable w ->
  getRoomIDByBeacon beacon w =
  (match select_beacon_room (beacons w) (b_UUID beacon) with
   | Some r => Ok r
   | None => Err ErrNoRows
   end, w).
Proof.
  intros H. unfold getRoomIDByBeacon, bind.
  rewrite (db_roundtrip_reliable H).
  now destruct (select_beacon_room _ _).
Qed.

Lemma getRoomIDByWifi_reliable wifi w :
  db_reliable w ->
  getRoomIDByWifi wifi w =
  (match select_wifi_room (wifi_access_points w) (w_BSSID wifi) with
   | Some r => Ok r
   | None => Err ErrNoRows
   end, w).
Proof.
  intros H. unfold getRoomIDByWifi, bind.
  rewrite (db_roundtrip_reliable H).
  now destruct (select_wifi_room _ _).
Qed.

Lemma scanBeacons_first w pre b post r :
  db_reliable w ->
  (forall x, In x pre -> select_beacon_room (beacons w) (b_UUID x) = None) ->
  select_beacon_room (beacons w) (b_UUID b) = Some r ->
  scanBeacons (pre ++ b :: post) w = (r, w).
Proof.
  intros Hw Hpre Hb. induction pre as [|x pre IH]; simpl.
  - unfold bind. rewrite (getRoomIDByBeacon_reliable _ Hw), Hb. reflexivity.
  - unfold bind. rewrite (getRoomIDByBeacon_reliable _ Hw).
    rewrite (Hpre x (or_introl eq_refl)).
    apply IH. intros y Hy. apply Hpre. now right.
Qed.

Lemma scanBeacons_none w l :
  db_reliable w ->
  (forall x, In x l -> select_beacon_room (beacons w) (b_UUID x) = None) ->
  scanBeacons l w = (0, w).
Proof.
  intros Hw Hl. induction l as [|x l IH]; simpl; [reflexivity|].
  unfold bind. rewrite (getRoomIDByBeacon_reliable _ Hw).
  rewrite (Hl x (or_introl eq_refl)).
  apply IH. intros y Hy. apply Hl. now right.
Qed.

Lemma scanWifi_first w pre a post r :
  db_reliable w ->
  (forall x, In x pre -> select_wifi_room (wifi_access_points w) (w_BSSID x) = None) ->
  select_wifi_room (wifi_access_points w) (w_BSSID a) = Some r ->
  scanWifi (pre ++ a :: post) w = (r, w).
Proof.
  intros Hw Hpre Ha. induction pre as [|x pre IH]; simpl.
  - unfold bind. rewrite (getRoomIDByWifi_reliable _ Hw), Ha. reflexivity.
  - unfold bind. rewrite (getRoomIDByWifi_reliable _ Hw).
    rewrite (Hpre x (or_introl eq_refl)).
    apply IH. intros y Hy. apply Hpre. now right.
Qed.

Lemma scanWifi_none w l :
  db_reliable w ->
  (forall x, In x l -> select_wifi_room (wifi_access_points w) (w_BSSID x) = None) ->
  scanWifi l w = (0, w).
Proof.
  intros Hw Hl. induction l as [|x l IH]; simpl; [reflexivity|].
  unfold bind. rewrite (getRoomIDByWifi_reliable _ Hw).
  rewrite (Hl x (or_introl eq_refl)).
  apply IH. intros y Hy. apply Hl. now right.
Qed.

(** Whatever the database does, a scan leaves the world as it was up to
    the script it has read. *)
Lemma scanBeacons_frame l w :
  exists s, snd (scanBeacons l w) = with_db_script s w.
Proof.
  revert w. induction l as [|x l IH]; intros w; simpl.
  - exists (db_script w). now rewrite with_db_script_same.
  - unfold bind, getRoomIDByBeacon, bind.
    destruct (db_roundtrip_cases w) as [E|(ok & rest & Es & E)]; rewrite E.
    + destruct (select_beacon_room _ _).
      * exists (db_script w). simpl. now rewrite with_db_script_same.
      * apply IH.
    + destruct ok.
      * simpl beacons. destruct (select_beacon_room _ _).
        -- now exists rest.
        -- destruct (IH (with_db_script rest w)) as [s Hs]. exists s.
           now rewrite Hs.
      * destruct (IH (with_db_script rest w)) as [s Hs]. exists s.
        now rewrite Hs.
Qed.

Lemma scanWifi_frame l w :
  exists s, snd (scanWifi l w) = with_db_script s w.
Proof.
  revert w. induction l as [|x l IH]; intros w; simpl.
  - exists (db_script w). now rewrite with_db_script_same.
  - unfold bind, getRoomIDByWifi, bind.
    destruct (db_roundtrip_cases w) as [E|(ok & rest & Es & E)]; rewrite E.
    + destruct (select_wifi_room _ _).
      * exists (db_script w). simpl. now rewrite with_db_script_same.
      * apply IH.
    + destruct ok.
      * simpl wifi_access_points. destruct (select_wifi_room _ _).
        -- now exists rest.
        -- destruct (IH (with_db_script rest w)) as [s Hs]. exists s.
           now rewrite Hs.
      * destruct (IH (with_db_script rest w)) as [s Hs]. exists s.
        now rewrite Hs.
Qed.

Lemma determineRoomID_frame ble wifi w :
  exists s, snd (determineRoomID ble wifi w) = with_db_script s w.
Proof.
  unfold determineRoomID.
  destruct ble as [bl|e]; [|exists (db_script w); now rewrite with_db_script_same].
  destruct wifi as [wl|e]; [|exists (db_script w); now rewrite with_db_script_same].
  destruct (_ && _)%bool; [exists (db_script w); now rewrite with_db_script_same|].
  unfold bind.
  destruct (scanBeacons_frame bl w) as [s1 H1].
  destruct (scanBeacons bl w) as [r1 w1]. simpl in H1. subst w1.
  destruct (scanWifi_frame wl (with_db_script s1 w)) as [s2 H2].
  destruct (scanWifi wl (with_db_script s1 w)) as [r2 w2]. simpl in H2. subst w2.
  exists s2.
  destruct (negb (r1 =? 0)); [reflexivity|].
  destruct (negb (r2 =? 0)); reflexivity.
Qed.

(** ** RoomResolver *)

Lemma scanBeacons_zero w l :
  db_reliable w ->
  (forall x, In x l ->
     select_beacon_room (beacons w) (b_UUID x) = None \/
     select_beacon_room (beacons w) (b_UUID x) = Some 0) ->
  scanBeacons l w = (0, w).
Proof.
  intros Hw Hl. induction l as [|x l IH]; simpl; [reflexivity|].
  unfold bind. rewrite (getRoomIDByBeacon_reliable _ Hw).
  destruct (Hl x (or_introl eq_refl)) as [E|E]; rewrite E.
  - apply IH. intros y Hy. apply Hl. now right.
  - reflexivity.
Qed.

Lemma scanWifi_zero w l :
  db_reliable w ->
  (forall x, In x l ->
     select_wifi_room (wifi_access_points w) (w_BSSID x) = None \/
     select_wifi_room (wifi_access_points w) (w_BSSID x) = Some 0) ->
  scanWifi l w = (0, w).
Proof.
  intros Hw Hl. induction l as [|x l IH]; simpl; [reflexivity|].
  unfold bind. rewrite (getRoomIDByWifi_reliable _ Hw).
  destruct (Hl x (or_introl eq_refl)) as [E|E]; rewrite E.
  - apply IH. intros y Hy. apply Hl. now right.
  - reflexivity.
Qed.

Lemma both_empty_false (bl : list BeaconSignal) (wl : list WiFiSignal) :
  bl <> [] \/ wl <> [] ->
  (Nat.eqb (List.length bl) 0 && Nat.eqb (List.length wl) 0)%bool = false.
Proof.
  intros [H|H].
  - destruct bl; [congruence|reflexivity].
  - destruct wl; [congruence|]. simpl. apply andb_false_r.
Qed.

(** Outcome of [determineRoomID] once the two scans are known. *)
Lemma determineRoomID_scans w bl wl r1 r2 :
  bl <> [] \/ wl <> [] ->
  scanBeacons bl w = (r1, w) ->
  scanWifi wl w = (r2, w) ->
  fst (determineRoomID (Ok bl) (Ok wl) w) =
  if negb (r1 =? 0) then Ok r1
  else if negb (r2 =? 0) then Ok r2 else Err ErrNoMatch.
Proof.
  intros Hne H1 H2. unfold determineRoomID.
  rewrite (both_empty_false Hne). unfold bind. rewrite H1, H2.
  destruct (negb (r1 =? 0)); [reflexivity|].
  destruct (negb (r2 =? 0)); reflexivity.
Qed.

Lemma scanWifi_reliable_frame w wl :
  db_reliable w -> exists r, scanWifi wl w = (r, w).
Proof.
  intros Hw. induction wl as [|x l IH]; simpl.
  - now exists 0.
  - unfold bind. rewrite (getRoomIDByWifi_reliable _ Hw).
    destruct (select_wifi_room _ _) as [r|]; [now exists r|exact IH].
Qed.

Lemma scanBeacons_reliable_frame w bl :
  db_reliable w -> exists r, scanBeacons bl w = (r, w).
Proof.
  intros Hw. induction bl as [|x l IH]; simpl.
  - now exists 0.
  - unfold bind. rewrite (getRoomIDByBeacon_reliable _ Hw).
    destruct (select_beacon_room _ _) as [r|]; [now exists r|exact IH].
Qed.

(** C3 (as amended): with the index readable and free of room 0,
    [determineRoomID] fails with [ErrNoSignalData] exactly when both
    observation lists are empty; otherwise the first BLE observation, in
    upload order, whose identifier matches the index decides the room,
    whatever the WiFi list holds; WiFi is scanned the same way only when
    no BLE observation matches; when nothing matches the result is
    [ErrNoMatch]; and matching ignores the case of the identifier. *)
Theorem resolver_contract (w : World) (bleSignals : list BeaconSignal)
    (wifiSignals : list WiFiSignal) :
  db_reliable w ->
  index_nonzero w ->
  let res := fst (determineRoomID (Ok bleSignals) (Ok wifiSignals) w) in
  (res = Err ErrNoSignalData <-> bleSignals = [] /\ wifiSignals = []) /\
  (forall pre b post r,
      bleSignals = pre ++ b :: post ->
      (forall x, In x pre -> select_beacon_room (beacons w) (b_UUID x) = None) ->
      select_beacon_room (beacons w) (b_UUID b) = Some r ->
      res = Ok r) /\
  (forall pre a post r,
      (forall x, In x bleSignals ->
                 select_beacon_room (beacons w) (b_UUID x) = None) ->
      wifiSignals = pre ++ a :: post ->
      (forall x, In x pre ->
                 select_wifi_room (wifi_access_points w) (w_BSSID x) = None) ->
      select_wifi_room (wifi_access_points w) (w_BSSID a) = Some r ->
      res = Ok r) /\
  ((bleSignals <> [] \/ wifiSignals <> []) ->
   (forall x, In x bleSignals ->
              select_beacon_room (beacons w) (b_UUID x) = None) ->
   (forall x, In x wifiSignals ->
              select_wifi_room (wifi_access_points w) (w_BSSID x) = None) ->
   res = Err ErrNoMatch) /\
  (forall id,
      select_beacon_room (beacons w) (UPPER id) = select_beacon_room (beacons w) id /\
      select_beacon_room (beacons w) (LOWER id) = select_beacon_room (beacons w) id /\
      select_wifi_room (wifi_access_points w) (UPPER id)
        = select_wifi_room (wifi_access_points w) id /\
      select_wifi_room (wifi_access_points w) (LOWER id)
        = select_wifi_room (wifi_access_points w) id).
Proof.
  intros Hw [Hb0 Hw0] res. subst res.
  split; [|split; [|split; [|split]]].
  - (* NoSignalData exactly when both lists are empty *)
    split; [|intros [-> ->]; reflexivity].
    intros H.
    assert (E : bleSignals <> [] \/ wifiSignals <> [] -> False).
    { intros Hne.
      destruct (scanBeacons_reliable_frame bleSignals Hw) as [r1 H1].
      destruct (scanWifi_reliable_frame wifiSignals Hw) as [r2 H2].
      rewrite (determineRoomID_scans Hne H1 H2) in H.
      destruct (negb (r1 =? 0)); [discriminate|].
      destruct (negb (r2 =? 0)); discriminate. }
    split.
    + destruct bleSignals; [reflexivity|]. exfalso. apply E. now left.
    + destruct wifiSignals; [reflexivity|]. exfalso. apply E. now right.
  - (* first BLE match wins *)
    intros pre b post r -> Hpre Hb.
    destruct (scanWifi_reliable_frame wifiSignals Hw) as [r2 H2].
    rewrite (@determineRoomID_scans w _ _ r r2);
      [ | left; now destruct pre | now apply scanBeacons_first | exact H2 ].
    destruct (select_beacon_room_in _ _ Hb) as (row & Hin & Hr).
    assert (r <> 0) by (subst r; now apply Hb0).
    destruct (Z.eqb_spec r 0); [contradiction|reflexivity].
  - (* WiFi only as a fallback *)
    intros pre a post r Hble -> Hpre Ha.
    rewrite (@determineRoomID_scans w _ _ 0 r);
      [ | right; now destruct pre | now apply scanBeacons_none
        | now apply scanWifi_first ].
    destruct (select_wifi_room_in _ _ Ha) as (row & Hin & Hr).
    assert (r <> 0) by (subst r; now apply Hw0).
    simpl. destruct (Z.eqb_spec r 0); [contradiction|reflexivity].
  - (* nothing matches *)
    intros Hne Hble Hwifi.
    rewrite (@determineRoomID_scans w _ _ 0 0); auto.
    + now apply scanBeacons_none.
    + now apply scanWifi_none.
  - intros id. repeat split.
    + apply select_beacon_room_caseless, UPPER_UPPER.
    + apply select_beacon_room_caseless, UPPER_LOWER.
    + apply select_wifi_room_caseless, LOWER_UPPER.
    + apply select_wifi_room_caseless, LOWER_LOWER.
Qed.

Lemma plainWorld_index_nonzero : index_nonzero plainWorld.
Proof.
  split; intros row Hin; simpl in Hin;
    repeat (destruct Hin as [<-|Hin]; [discriminate|]); destruct Hin.
Qed.

Lemma resolver_contract_witness :
  db_reliable plainWorld /\ index_nonzero plainWorld /\
  fst (determineRoomID (Ok [beaconA; beaconB]) (Ok [wifiX]) plainWorld) = Ok 7.
Proof.
  split; [reflexivity|]. split; [exact plainWorld_index_nonzero|].
  destruct (@resolver_contract plainWorld [beaconA; beaconB] [wifiX]
              eq_refl plainWorld_index_nonzero) as (_ & Hfirst & _).
  apply (Hfirst [beaconA] beaconB [] 7).
  - reflexivity.
  - intros x [<-|[]]. reflexivity.
  - reflexivity.
Defined.

(** C3, as stated, fails on an index that holds room 0: beacon "b" matches
    the index (room 7), yet the WiFi room is returned, because the earlier
    beacon "A" matched room 0. *)
Lemma resolver_contract_counterexample :
  select_beacon_room (beacons zeroRoomWorld) (b_UUID beaconB) = Some 7 /\
  select_wifi_room (wifi_access_points zeroRoomWorld) (w_BSSID wifiX) = Some 3 /\
  fst (determineRoomID (Ok [beaconA; beaconB]) (Ok [wifiX]) zeroRoomWorld) = Ok 3.
Proof. repeat split. Qed.

(** C9 (as amended): a successful [determineRoomID] never yields room 0;
    an upload whose only index matches carry room 0 fails with
    [ErrNoMatch]; and a room-0 match that is the first match of its
    modality ends that modality's scan, so the observations after it are
    not consulted and the modality contributes no room. *)
Theorem resolver_zero_sentinel (w : World) (bleSignals : list BeaconSignal)
    (wifiSignals : list WiFiSignal) :
  (forall ble wifi r, fst (determineRoomID ble wifi w) = Ok r -> r <> 0) /\
  (db_reliable w ->
   (bleSignals <> [] \/ wifiSignals <> []) ->
   (forall x, In x bleSignals ->
      select_beacon_room (beacons w) (b_UUID x) = None \/
      select_beacon_room (beacons w) (b_UUID x) = Some 0) ->
   (forall x, In x wifiSignals ->
      select_wifi_room (wifi_access_points w) (w_BSSID x) = None \/
      select_wifi_room (wifi_access_points w) (w_BSSID x) = Some 0) ->
   fst (determineRoomID (Ok bleSignals) (Ok wifiSignals) w) = Err ErrNoMatch) /\
  (db_reliable w ->
   forall pre b post post',
     bleSignals = pre ++ b :: post ->
     (forall x, In x pre -> select_beacon_room (beacons w) (b_UUID x) = None) ->
     select_beacon_room (beacons w) (b_UUID b) = Some 0 ->
     scanBeacons bleSignals w = (0, w) /\
     fst (determineRoomID (Ok bleSignals) (Ok wifiSignals) w)
     = fst (determineRoomID (Ok (pre ++ b :: post')) (Ok wifiSignals) w)) /\
  (db_reliable w ->
   forall pre a post post',
     wifiSignals = pre ++ a :: post ->
     (forall x, In x pre ->
        select_wifi_room (wifi_access_points w) (w_BSSID x) = None) ->
     select_wifi_room (wifi_access_points w) (w_BSSID a) = Some 0 ->
     scanWifi wifiSignals w = (0, w) /\
     fst (determineRoomID (Ok bleSignals) (Ok wifiSignals) w)
     = fst (determineRoomID (Ok bleSignals) (Ok (pre ++ a :: post')) w)).
Proof.
  split; [|split; [|split]].
  - intros ble wifi r. unfold determineRoomID.
    destruct ble as [bl|e]; [|discriminate].
    destruct wifi as [wl|e]; [|discriminate].
    destruct (_ && _)%bool; [discriminate|].
    unfold bind.
    destruct (scanBeacons bl w) as [r1 w1].
    destruct (scanWifi wl w1) as [r2 w2].
    destruct (Z.eqb_spec r1 0); simpl.
    + destruct (Z.eqb_spec r2 0); simpl; [discriminate|].
      intros [= <-]. assumption.
    + intros [= <-]. assumption.
  - intros Hw Hne Hble Hwifi.
    rewrite (@determineRoomID_scans w _ _ 0 0); auto.
    + now apply scanBeacons_zero.
    + now apply scanWifi_zero.
  - intros Hw pre b post post' -> Hpre Hb.
    pose proof (@scanBeacons_first w pre b post 0 Hw Hpre Hb) as S1.
    pose proof (@scanBeacons_first w pre b post' 0 Hw Hpre Hb) as S2.
    split; [exact S1|].
    destruct (scanWifi_reliable_frame wifiSignals Hw) as [r2 H2].
    rewrite (@determineRoomID_scans w _ _ 0 r2);
      [ | left; now destruct pre | exact S1 | exact H2 ].
    rewrite (@determineRoomID_scans w _ _ 0 r2);
      [ reflexivity | left; now destruct pre | exact S2 | exact H2 ].
  - intros Hw pre a post post' -> Hpre Ha.
    pose proof (@scanWifi_first w pre a post 0 Hw Hpre Ha) as S1.
    pose proof (@scanWifi_first w pre a post' 0 Hw Hpre Ha) as S2.
    split; [exact S1|].
    destruct (scanBeacons_reliable_frame bleSignals Hw) as [r1 H1].
    rewrite (@determineRoomID_scans w _ _ r1 0);
      [ | right; now destruct pre | exact H1 | exact S1 ].
    rewrite (@determineRoomID_scans w _ _ r1 0);
      [ reflexivity | right; now destruct pre | exact H1 | exact S2 ].
Qed.

Lemma resolver_zero_sentinel_witness :
  db_reliable zeroRoomWorld /\
  fst (determineRoomID (Ok [beaconA; beaconB]) (Ok []) zeroRoomWorld)
  = fst (determineRoomID (Ok [beaconA]) (Ok []) zeroRoomWorld).
Proof.
  split; [reflexivity|].
  destruct (@resolver_zero_sentinel zeroRoomWorld [beaconA; beaconB] [])
    as (_ & _ & Hstop & _).
  apply (Hstop eq_refl [] beaconA [beaconB] []).
  - reflexivity.
  - intros x [].
  - reflexivity.
Defined.

(** C9, as stated, fails: a room-0 match is not handled like an
    observation that did not match.  With beacon "A" in room 0 the
    resolution fails; with "A" unmatched (absent from the index, or absent
    from the upload) beacon "b" gives room 7. *)
Lemma resolver_zero_sentinel_counterexample :
  select_beacon_room (beacons zeroRoomWorld) (b_UUID beaconA) = Some 0 /\
  select_beacon_room (beacons plainWorld) (b_UUID beaconA) = None /\
  fst (determineRoomID (Ok [beaconA; beaconB]) (Ok []) zeroRoomWorld)
    = Err ErrNoMatch /\
  fst (determineRoomID (Ok [beaconA; beaconB]) (Ok []) plainWorld) = Ok 7 /\
  fst (determineRoomID (Ok [beaconB]) (Ok []) zeroRoomWorld) = Ok 7.
Proof. repeat split. Qed.

(** ** The statements of the session table *)

Lemma bind_run {A B} (c : M A) (k : A -> M B) w :
  bind c k w = k (fst (c w)) (snd (c w)).
Proof. unfold bind. now destruct (c w). Qed.

Lemma openFor_setEndTime u t s : openFor u (setEndTime t s) = false.
Proof. unfold openFor, isOpen. simpl. apply andb_false_r. Qed.

Lemma openFor_setLastSeen u t s :
  openFor u (setLastSeen t s) = openFor u s.
Proof. reflexivity. Qed.

Lemma sql_end_length u t rows :
  List.length (sql_end u t rows) = List.length rows.
Proof. apply length_map. Qed.

Lemma sql_touch_length u t rows :
  List.length (sql_touch u t rows) = List.length rows.
Proof. apply length_map. Qed.

Lemma sql_end_nth u t rows k :
  nth_error (sql_end u t rows) k =
  option_map (fun s => if openFor u s then setEndTime t s else s)
             (nth_error rows k).
Proof. apply nth_error_map. Qed.

Lemma sql_touch_nth u t rows k :
  nth_error (sql_touch u t rows) k =
  option_map (fun s => if openFor u s then setLastSeen t s else s)
             (nth_error rows k).
Proof. apply nth_error_map. Qed.

Lemma sql_end_closes u t rows :
  filter (openFor u) (sql_end u t rows) = [].
Proof.
  induction rows as [|s rows IH]; simpl; [reflexivity|].
  destruct (openFor u s) eqn:E.
  - now rewrite openFor_setEndTime.
  - now rewrite E.
Qed.

Lemma sql_end_again u t t' rows :
  sql_end u t' (sql_end u t rows) = sql_end u t rows.
Proof.
  unfold sql_end. rewrite map_map. apply map_ext. intros s.
  destruct (openFor u s) eqn:E.
  - now rewrite openFor_setEndTime.
  - now rewrite E.
Qed.

Lemma sql_end_noop u t rows :
  openCount u rows = 0%nat -> sql_end u t rows = rows.
Proof.
  unfold openCount, sql_end. induction rows as [|s rows IH]; simpl;
    [reflexivity|].
  destruct (openFor u s); simpl; [discriminate|].
  intros H. now rewrite IH.
Qed.

Lemma sql_touch_again u t t' rows :
  sql_touch u t' (sql_touch u t rows) = sql_touch u t' rows.
Proof.
  unfold sql_touch. rewrite map_map. apply map_ext. intros s.
  destruct (openFor u s) eqn:E.
  - now rewrite openFor_setLastSeen, E.
  - now rewrite E.
Qed.

Lemma openCount_sql_end v u t rows :
  (openCount v (sql_end u t rows) <= openCount v rows)%nat.
Proof.
  unfold openCount, sql_end. induction rows as [|s rows IH]; simpl; [lia|].
  destruct (openFor u s) eqn:E.
  - rewrite openFor_setEndTime. destruct (openFor v s); simpl; lia.
  - destruct (openFor v s); simpl; lia.
Qed.

Lemma openCount_sql_touch v u t rows :
  openCount v (sql_touch u t rows) = openCount v rows.
Proof.
  unfold openCount, sql_touch. induction rows as [|s rows IH]; simpl;
    [reflexivity|].
  destruct (openFor u s) eqn:E.
  - rewrite openFor_setLastSeen. destruct (openFor v s); simpl; now rewrite IH.
  - destruct (openFor v s); simpl; now rewrite IH.
Qed.

Lemma openCount_sql_insert v id u room t rows :
  openCount v (sql_insert id u room t rows) =
  (openCount v rows + (if (u =? v)%Z then 1 else 0))%nat.
Proof.
  unfold openCount, sql_insert. rewrite filter_app, length_app. simpl.
  unfold openFor at 2. simpl. rewrite andb_true_r.
  now destruct (u =? v).
Qed.

Lemma sql_open_room_none u rows :
  sql_open_room u rows = None -> openCount u rows = 0%nat.
Proof.
  unfold sql_open_room, openCount. intros H.
  destruct (find (openFor u) rows) eqn:F; [discriminate|].
  induction rows as [|s rows IH]; simpl in *; [reflexivity|].
  destruct (openFor u s); [discriminate|]. now apply IH.
Qed.

Lemma sql_open_room_some u rows :
  openCount u rows <> 0%nat -> exists room, sql_open_room u rows = Some room.
Proof.
  unfold sql_open_room, openCount. induction rows as [|s rows IH]; simpl.
  - congruence.
  - destruct (openFor u s); simpl; [now eexists|exact IH].
Qed.

Lemma endUserSession_reliable u t w :
  db_reliable w ->
  endUserSession u t w =
  (Ok tt, with_sessions (sql_end u t (user_presence_sessions w)) w).
Proof.
  intros H. unfold endUserSession, bind. now rewrite (db_roundtrip_reliable H).
Qed.

Lemma updateLastSeen_reliable u t w :
  db_reliable w ->
  updateLastSeen u t w =
  (Ok tt, with_sessions (sql_touch u t (user_presence_sessions w)) w).
Proof.
  intros H. unfold updateLastSeen, bind. now rewrite (db_roundtrip_reliable H).
Qed.

Lemma startUserSession_reliable u room t w :
  db_reliable w ->
  startUserSession u room t w =
  (Ok tt,
   with_next_session_id (next_session_id w + 1)
     (with_sessions
        (sql_insert (next_session_id w) u room t (user_presence_sessions w)) w)).
Proof.
  intros H. unfold startUserSession, bind.
  now rewrite (db_roundtrip_reliable H).
Qed.

Lemma queryOpenRoom_reliable u w :
  db_reliable w ->
  queryOpenRoom u w =
  (match sql_open_room u (user_presence_sessions w) with
   | Some room => Ok room
   | None => Err ErrNoRows
   end, w).
Proof.
  intros H. unfold queryOpenRoom, bind. rewrite (db_roundtrip_reliable H).
  now destruct (sql_open_room _ _).
Qed.

(** C5: a heartbeat sets [last_seen] of the user's open session to [t] and
    changes nothing else: session id, user, room, start and end time of
    that row stay, every other row stays, no row is added or removed; a
    Present update for a user with an open session is this heartbeat,
    whatever room was resolved; and of two heartbeats in a row the later
    time is the one stored. *)
Theorem heartbeat_frame (w : World) (userID t : Z) :
  db_reliable w ->
  let w' := snd (updateLastSeen userID t w) in
  fst (updateLastSeen userID t w) = Ok tt /\
  (forall k s,
      nth_error (user_presence_sessions w) k = Some s ->
      openFor userID s = true ->
      exists s',
        nth_error (user_presence_sessions w') k = Some s' /\
        LastSeen s' = t /\
        SessionID s' = SessionID s /\ UserID s' = UserID s /\
        RoomID s' = RoomID s /\ StartTime s' = StartTime s /\
        EndTime s' = EndTime s) /\
  (forall k s,
      nth_error (user_presence_sessions w) k = Some s ->
      openFor userID s = false ->
      nth_error (user_presence_sessions w') k = Some s) /\
  List.length (user_presence_sessions w') = List.length (user_presence_sessions w) /\
  w' = with_sessions (user_presence_sessions w') w /\
  (forall estimationConfidence inquiryConfidence roomID,
      inquiryConfidence <= estimationConfidence ->
      openCount userID (user_presence_sessions w) <> 0%nat ->
      updateUserPresence userID estimationConfidence inquiryConfidence t roomID w
      = updateLastSeen userID t w) /\
  (forall t2,
      user_presence_sessions (snd (updateLastSeen userID t2 w'))
      = sql_touch userID t2 (user_presence_sessions w) /\
      forall k s,
        nth_error (user_presence_sessions w) k = Some s ->
        openFor userID s = true ->
        option_map LastSeen
          (nth_error (user_presence_sessions (snd (updateLastSeen userID t2 w'))) k)
        = Some t2).
Proof.
  intros Hw w'. subst w'.
  rewrite (updateLastSeen_reliable _ _ Hw). simpl.
  split; [reflexivity|].
  split; [|split; [|split; [|split; [|split]]]].
  - intros k s Hk Ho. exists (setLastSeen t s).
    rewrite sql_touch_nth, Hk. simpl. rewrite Ho. now repeat split.
  - intros k s Hk Ho. rewrite sql_touch_nth, Hk. simpl. now rewrite Ho.
  - apply sql_touch_length.
  - now destruct w.
  - intros e i room Hie Hopen. unfold updateUserPresence.
    rewrite Z.gtb_ltb. destruct (Z.ltb_spec e i); [lia|].
    rewrite bind_run, (queryOpenRoom_reliable _ Hw).
    destruct (@sql_open_room_some userID _ Hopen) as [r ->]. simpl.
    rewrite bind_run, (updateLastSeen_reliable _ _ Hw). reflexivity.
  - intros t2.
    assert (Hw' : db_reliable
                    (with_sessions (sql_touch userID t (user_presence_sessions w)) w))
      by exact Hw.
    rewrite (updateLastSeen_reliable _ _ Hw'). simpl.
    rewrite sql_touch_again. split; [reflexivity|].
    intros k s Hk Ho. rewrite sql_touch_nth, Hk. simpl. now rewrite Ho.
Qed.

Lemma heartbeat_frame_witness :
  db_reliable sessionWorld /\
  updateUserPresence 1 80 0 1600 9 sessionWorld = updateLastSeen 1 1600 sessionWorld.
Proof.
  split; [reflexivity|].
  destruct (@heartbeat_frame sessionWorld 1 1600 eq_refl)
    as (_ & _ & _ & _ & _ & Hvia & _).
  apply Hvia; [lia|]. vm_compute. discriminate.
Defined.

(** C6: ending a user's session twice in a row leaves the store exactly as
    ending it once does, and ending the session of a user who has none is
    a successful no-op. *)
Theorem endUserSession_idempotent (w : World) (userID t : Z) :
  db_reliable w ->
  let once := endUserSession userID t w in
  let twice := endUserSession userID t (snd once) in
  fst once = Ok tt /\ fst twice = Ok tt /\
  snd twice = snd once /\
  (openCount userID (user_presence_sessions w) = 0%nat -> once = (Ok tt, w)).
Proof.
  intros Hw once twice. subst twice once.
  rewrite (endUserSession_reliable _ _ Hw). simpl.
  assert (Hw' : db_reliable
                  (with_sessions (sql_end userID t (user_presence_sessions w)) w))
    by exact Hw.
  rewrite (endUserSession_reliable _ _ Hw'). simpl.
  rewrite sql_end_again.
  repeat split.
  intros H0. rewrite (@sql_end_noop userID t _ H0). now rewrite with_sessions_same.
Qed.

Lemma endUserSession_idempotent_witness :
  db_reliable sessionWorld /\
  snd (endUserSession 1 1700 (snd (endUserSession 1 1700 sessionWorld)))
  = snd (endUserSession 1 1700 sessionWorld) /\
  endUserSession 2 1700 sessionWorld = (Ok tt, sessionWorld).
Proof.
  split; [reflexivity|].
  split.
  - apply (@endUserSession_idempotent sessionWorld 1 1700 eq_refl).
  - apply (@endUserSession_idempotent sessionWorld 2 1700 eq_refl).
    reflexivity.
Defined.

(** C10: one [endUserSession] closes every open session of the user, also
    in a table that holds several of them: afterwards the user has no row
    with [end_time] unset, each row that was open for the user carries the
    given end time, and the rows of other users (and the user's closed
    rows) are untouched. *)
Theorem endUserSession_closes_all (w : World) (userID t : Z) :
  db_reliable w ->
  let w' := snd (endUserSession userID t w) in
  fst (endUserSession userID t w) = Ok tt /\
  openCount userID (user_presence_sessions w') = 0%nat /\
  (forall s, In s (user_presence_sessions w') -> UserID s = userID ->
             EndTime s <> None) /\
  (forall k s, nth_error (user_presence_sessions w) k = Some s ->
               openFor userID s = true ->
               nth_error (user_presence_sessions w') k = Some (setEndTime t s)) /\
  (forall k s, nth_error (user_presence_sessions w) k = Some s ->
               UserID s <> userID ->
               nth_error (user_presence_sessions w') k = Some s) /\
  (forall k s, nth_error (user_presence_sessions w) k = Some s ->
               EndTime s <> None ->
               nth_error (user_presence_sessions w') k = Some s) /\
  List.length (user_presence_sessions w') = List.length (user_presence_sessions w).
Proof.
  intros Hw w'. subst w'.
  rewrite (endUserSession_reliable _ _ Hw). simpl.
  split; [reflexivity|].
  assert (Hnone : filter (openFor userID)
                    (sql_end userID t (user_presence_sessions w)) = [])
    by apply sql_end_closes.
  split; [|split; [|split; [|split; [|split]]]].
  - unfold openCount. now rewrite Hnone.
  - intros s Hin Hu Hend.
    assert (Hf : In s (filter (openFor userID)
                         (sql_end userID t (user_presence_sessions w)))).
    { apply filter_In. split; [exact Hin|].
      unfold openFor, isOpen. rewrite Hend, Hu, Z.eqb_refl. reflexivity. }
    rewrite Hnone in Hf. destruct Hf.
  - intros k s Hk Ho. rewrite sql_end_nth, Hk. simpl. now rewrite Ho.
  - intros k s Hk Hu. rewrite sql_end_nth, Hk. simpl.
    unfold openFor. destruct (Z.eqb_spec (UserID s) userID); [contradiction|].
    reflexivity.
  - intros k s Hk He. rewrite sql_end_nth, Hk. simpl.
    unfold openFor, isOpen. destruct (EndTime s); [|congruence].
    now rewrite andb_false_r.
  - apply sql_end_length.
Qed.

Lemma endUserSession_closes_all_witness :
  db_reliable doubleOpenWorld /\
  openCount 1 (user_presence_sessions doubleOpenWorld) = 2%nat /\
  openCount 1 (user_presence_sessions (snd (endUserSession 1 3000 doubleOpenWorld)))
  = 0%nat /\
  nth_error (user_presence_sessions (snd (endUserSession 1 3000 doubleOpenWorld))) 1
  = Some (mkSession 2 2 3 150 None 150).
Proof.
  split; [reflexivity|]. split; [reflexivity|].
  destruct (@endUserSession_closes_all doubleOpenWorld 1 3000 eq_refl)
    as (_ & Hzero & _ & _ & Hother & _).
  split; [exact Hzero|].
  apply Hother; [reflexivity|]. simpl. lia.
Defined.

(** ** What a statement can do to the store, whatever the database does *)

Lemma endUserSession_outcome u t w :
  exists s,
    endUserSession u t w =
      (Ok tt, with_db_script s
                (with_sessions (sql_end u t (user_presence_sessions w)) w)) \/
    endUserSession u t w = (Err ErrDriver, with_db_script s w).
Proof.
  unfold endUserSession, bind.
  destruct (db_roundtrip_cases w) as [E|(ok & rest & Es & E)]; rewrite E.
  - exists (db_script w). left. now destruct w.
  - exists rest. destruct ok; [left|right]; reflexivity.
Qed.

Lemma updateLastSeen_outcome u t w :
  exists s,
    updateLastSeen u t w =
      (Ok tt, with_db_script s
                (with_sessions (sql_touch u t (user_presence_sessions w)) w)) \/
    updateLastSeen u t w = (Err ErrDriver, with_db_script s w).
Proof.
  unfold updateLastSeen, bind.
  destruct (db_roundtrip_cases w) as [E|(ok & rest & Es & E)]; rewrite E.
  - exists (db_script w). left. now destruct w.
  - exists rest. destruct ok; [left|right]; reflexivity.
Qed.

Lemma startUserSession_outcome u room t w :
  exists s,
    startUserSession u room t w =
      (Ok tt,
       with_db_script s
         (with_next_session_id (next_session_id w + 1)
            (with_sessions
               (sql_insert (next_session_id w) u room t
                  (user_presence_sessions w)) w))) \/
    startUserSession u room t w = (Err ErrDriver, with_db_script s w).
Proof.
  unfold startUserSession, bind.
  destruct (db_roundtrip_cases w) as [E|(ok & rest & Es & E)]; rewrite E.
  - exists (db_script w). left. now destruct w.
  - exists rest. destruct ok; [left|right]; reflexivity.
Qed.

Lemma queryOpenRoom_outcome u w :
  exists s,
    snd (queryOpenRoom u w) = with_db_script s w /\
    (fst (queryOpenRoom u w) = Err ErrDriver \/
     fst (queryOpenRoom u w) =
       match sql_open_room u (user_presence_sessions w) with
       | Some room => Ok room
       | None => Err ErrNoRows
       end).
Proof.
  unfold queryOpenRoom, bind.
  destruct (db_roundtrip_cases w) as [E|(ok & rest & Es & E)]; rewrite E.
  - exists (db_script w). rewrite with_db_script_same.
    destruct (sql_open_room _ _); simpl; auto.
  - exists rest. destruct ok; simpl.
    + destruct (sql_open_room _ _); simpl; auto.
    + auto.
Qed.

(** A statement that reports an error has not touched the table. *)
Lemma endUserSession_failed u t w e :
  fst (endUserSession u t w) = Err e ->
  user_presence_sessions (snd (endUserSession u t w)) = user_presence_sessions w.
Proof.
  destruct (endUserSession_outcome u t w) as [s [E|E]]; rewrite E; simpl;
    [discriminate|reflexivity].
Qed.

Lemma updateLastSeen_failed u t w e :
  fst (updateLastSeen u t w) = Err e ->
  user_presence_sessions (snd (updateLastSeen u t w)) = user_presence_sessions w.
Proof.
  destruct (updateLastSeen_outcome u t w) as [s [E|E]]; rewrite E; simpl;
    [discriminate|reflexivity].
Qed.

Lemma startUserSession_failed u room t w e :
  fst (startUserSession u room t w) = Err e ->
  user_presence_sessions (snd (startUserSession u room t w))
  = user_presence_sessions w.
Proof.
  destruct (startUserSession_outcome u room t w) as [s [E|E]]; rewrite E; simpl;
    [discriminate|reflexivity].
Qed.

Lemma updateUserPresence_failed u est inq t room w e :
  fst (updateUserPresence u est inq t room w) = Err e ->
  user_presence_sessions (snd (updateUserPresence u est inq t room w))
  = user_presence_sessions w.
Proof.
  unfold updateUserPresence. destruct (inq >? est).
  - rewrite bind_run.
    destruct (endUserSession_outcome u t w) as [s [E|E]]; rewrite E; simpl;
      [discriminate|reflexivity].
  - rewrite bind_run.
    destruct (queryOpenRoom_outcome u w) as (s & Hs & Hr).
    rewrite Hs.
    destruct (fst (queryOpenRoom u w)) as [room0|[]] eqn:Q;
      try (simpl; reflexivity).
    + rewrite bind_run.
      destruct (updateLastSeen_outcome u t (with_db_script s w)) as [s' [E|E]];
        rewrite E; simpl; [discriminate|reflexivity].
    + rewrite bind_run.
      destruct (startUserSession_outcome u room t (with_db_script s w))
        as [s' [E|E]]; rewrite E; simpl; [discriminate|reflexivity].
Qed.

(** ** The single-open-session invariant *)


Lemma keeps_ret {A} (a : A) : keeps_single_open (ret a).
Proof. intros w H. exact H. Qed.

Lemma keeps_bind {A B} (c : M A) (k : A -> M B) :
  keeps_single_open c -> (forall a, keeps_single_open (k a)) ->
  keeps_single_open (bind c k).
Proof.
  intros Hc Hk w H. rewrite bind_run. apply Hk, Hc, H.
Qed.

Lemma keeps_endUserSession u t : keeps_single_open (endUserSession u t).
Proof.
  intros w H.
  destruct (endUserSession_outcome u t w) as [s [E|E]]; rewrite E; simpl;
    [|exact H].
  intros v. specialize (H v).
  pose proof (openCount_sql_end v u t (user_presence_sessions w)). lia.
Qed.

Lemma keeps_updateLastSeen u t : keeps_single_open (updateLastSeen u t).
Proof.
  intros w H.
  destruct (updateLastSeen_outcome u t w) as [s [E|E]]; rewrite E; simpl;
    [|exact H].
  intros v. rewrite openCount_sql_touch. apply H.
Qed.

(** A session is only inserted for a user who has no open one. *)
Lemma startUserSession_single_open u room t w :
  single_open (user_presence_sessions w) ->
  openCount u (user_presence_sessions w) = 0%nat ->
  single_open (user_presence_sessions (snd (startUserSession u room t w))).
Proof.
  intros H H0.
  destruct (startUserSession_outcome u room t w) as [s [E|E]]; rewrite E; simpl;
    [|exact H].
  intros v. rewrite openCount_sql_insert.
  destruct (Z.eqb_spec u v) as [->|_].
  - rewrite H0. lia.
  - specialize (H v). lia.
Qed.

Lemma keeps_updateUserPresence u est inq t room :
  keeps_single_open (updateUserPresence u est inq t room).
Proof.
  intros w H. unfold updateUserPresence. destruct (inq >? est).
  - rewrite bind_run.
    pose proof (keeps_endUserSession u t w H) as H'.
    now destruct (fst (endUserSession u t w)).
  - rewrite bind_run.
    destruct (queryOpenRoom_outcome u w) as (s & Hs & Hr).
    rewrite Hs.
    destruct (fst (queryOpenRoom u w)) as [room0|e] eqn:Q.
    + rewrite bind_run.
      pose proof (keeps_updateLastSeen u t (with_db_script s w) H) as H'.
      now destruct (fst (updateLastSeen u t (with_db_script s w))).
    + destruct e; try exact H.
      rewrite bind_run.
      assert (H0 : openCount u (user_presence_sessions w) = 0%nat).
      { destruct Hr as [Hr|Hr]; [discriminate|].
        apply sql_open_room_none.
        destruct (sql_open_room u (user_presence_sessions w)); [discriminate|].
        reflexivity. }
      pose proof (@startUserSession_single_open u room t (with_db_script s w) H H0)
        as H'.
      now destruct (fst (startUserSession u room t (with_db_script s w))).
Qed.

Lemma keeps_determineRoomID ble wifi : keeps_single_open (determineRoomID ble wifi).
Proof.
  intros w H. destruct (determineRoomID_frame ble wifi w) as [s ->]. exact H.
Qed.

Lemma keeps_respond up : keeps_single_open (respond up).
Proof. intros w H. unfold respond. now destruct (up_encode_ok up). Qed.

Lemma keeps_presentBlock up est inq : keeps_single_open (presentBlock up est inq).
Proof.
  unfold presentBlock. apply keeps_bind; [apply keeps_determineRoomID|].
  intros [room|e]; [|apply keeps_ret].
  apply keeps_bind; [apply keeps_updateUserPresence|].
  intros _. apply keeps_respond.
Qed.

Lemma keeps_endBlock up : keeps_single_open (endBlock up).
Proof.
  unfold endBlock. apply keeps_bind; [apply keeps_endUserSession|].
  intros _. apply keeps_ret.
Qed.

Lemma keeps_copyFile sample ok : keeps_single_open (copyFile sample ok).
Proof. intros w H. unfold copyFile. now destruct ok. Qed.

Lemma keeps_negativeSampleBlock up : keeps_single_open (negativeSampleBlock up).
Proof.
  unfold negativeSampleBlock. destruct (up_mkdir_ok up); [|apply keeps_ret].
  apply keeps_bind; [apply keeps_copyFile|].
  intros [|]; [|apply keeps_ret].
  apply keeps_bind; [apply keeps_copyFile|].
  intros [|]; [apply keeps_respond|apply keeps_ret].
Qed.

Lemma keeps_handleSignalsSubmit up : keeps_single_open (handleSignalsSubmit up).
Proof.
  unfold handleSignalsSubmit.
  destruct (up_estimation up) as [est|e]; [|apply keeps_ret].
  destruct (_ && _)%bool.
  - apply keeps_bind; [intros w H; exact H|].
    intros [inq|e]; [|apply keeps_ret].
    destruct (est >=? inq).
    + apply keeps_presentBlock.
    + apply keeps_bind; [apply keeps_endBlock|].
      intros _. apply keeps_negativeSampleBlock.
  - destruct (est >? 70).
    + apply keeps_presentBlock.
    + apply keeps_bind; [apply keeps_endBlock|].
      intros _. apply keeps_respond.
Qed.

Lemma keeps_endUsers users k clock : keeps_single_open (endUsers users k clock).
Proof.
  revert k. induction users as [|uid rest IH]; intros k; simpl.
  - apply keeps_ret.
  - apply keeps_bind; [apply keeps_endUserSession|]. intros _. apply IH.
Qed.

Lemma keeps_cleanUpTick th now clock : keeps_single_open (cleanUpTick th now clock).
Proof.
  intros w H. unfold cleanUpTick. rewrite bind_run.
  destruct (db_roundtrip_cases w) as [E|(ok & rest & Es & E)]; rewrite E; simpl.
  - now apply keeps_endUsers.
  - destruct ok; [|exact H]. now apply keeps_endUsers.
Qed.

Lemma keeps_cleanUpOldSessions th ticks :
  keeps_single_open (cleanUpOldSessions th ticks).
Proof.
  induction ticks as [|[now clock] rest IH]; simpl.
  - apply keeps_ret.
  - apply keeps_bind; [apply keeps_cleanUpTick|]. intros _. apply IH.
Qed.

Lemma keeps_runOp op : keeps_single_open (runOp op).
Proof.
  destruct op; simpl.
  - apply keeps_bind; [apply keeps_handleSignalsSubmit|intros; apply keeps_ret].
  - apply keeps_bind; [apply keeps_updateUserPresence|intros; apply keeps_ret].
  - apply keeps_bind; [apply keeps_endUserSession|intros; apply keeps_ret].
  - apply keeps_bind; [apply keeps_updateLastSeen|intros; apply keeps_ret].
  - apply keeps_cleanUpTick.
Qed.

Lemma runOps_single_open ops w :
  single_open (user_presence_sessions w) ->
  single_open (user_presence_sessions (runOps ops w)).
Proof.
  revert w. induction ops as [|[op script] rest IH]; intros w H; simpl.
  - exact H.
  - apply IH. now apply keeps_runOp.
Qed.

(** C2: starting from an empty session table, whatever uploads, presence
    updates, session ends, heartbeats and reaper ticks are run one after
    the other, and whichever of their database calls fail, every user has
    at most one session with [end_time] unset. *)
Theorem single_open_session_invariant
    (bs ws : list (string * Z)) (ops : list (Op * list bool)) (userID : Z) :
  (openCount userID (user_presence_sessions (runOps ops (emptyStore bs ws))) <= 1)%nat.
Proof.
  apply (@runOps_single_open ops (emptyStore bs ws)).
  intros v. simpl. unfold openCount. simpl. lia.
Qed.

(** ** StaleSessionReaper *)

Lemma sql_stale_users_spec cutoff rows uid :
  In uid (sql_stale_users cutoff rows) <->
  exists s, In s rows /\ UserID s = uid /\ EndTime s = None /\ LastSeen s < cutoff.
Proof.
  unfold sql_stale_users. rewrite in_map_iff. split.
  - intros (s & Hu & Hf). apply filter_In in Hf. destruct Hf as [Hin Hb].
    apply andb_prop in Hb. destruct Hb as [Ho Hl].
    exists s. repeat split; auto.
    + unfold isOpen in Ho. now destruct (EndTime s).
    + now apply Z.ltb_lt.
  - intros (s & Hin & Hu & He & Hl). exists s. split; [exact Hu|].
    apply filter_In. split; [exact Hin|].
    unfold isOpen. rewrite He. simpl. now apply Z.ltb_lt.
Qed.

(** What the loop over [usersToEnd] does to one row of the table. *)
Lemma endUsers_row clock users :
  forall k w p s,
    db_reliable w ->
    nth_error (user_presence_sessions w) p = Some s ->
    (isOpen s = false \/ ~ In (UserID s) users ->
     nth_error (user_presence_sessions (snd (endUsers users k clock w))) p = Some s) /\
    (isOpen s = true -> In (UserID s) users ->
     exists j, (k <= j)%nat /\
       nth_error (user_presence_sessions (snd (endUsers users k clock w))) p
       = Some (setEndTime (clock j) s)).
Proof.
  induction users as [|uid rest IH]; intros k w p s Hw Hp.
  - simpl. split; [intros _; exact Hp|intros _ []].
  - simpl. rewrite bind_run, (endUserSession_reliable _ _ Hw). simpl.
    set (w1 := with_sessions (sql_end uid (clock k) (user_presence_sessions w)) w).
    assert (Hw1 : db_reliable w1) by exact Hw.
    assert (Hp1 : nth_error (user_presence_sessions w1) p
                  = Some (if openFor uid s then setEndTime (clock k) s else s)).
    { unfold w1. simpl. rewrite sql_end_nth, Hp. reflexivity. }
    destruct (openFor uid s) eqn:Ho.
    + (* the row is closed by this step and stays as it is *)
      destruct (IH (S k) w1 p _ Hw1 Hp1) as [Hkeep _].
      apply andb_prop in Ho. destruct Ho as [Hu Hopen].
      apply Z.eqb_eq in Hu.
      split.
      * intros [Hc|Hn]; [congruence|]. exfalso. apply Hn. now left.
      * intros _ _. exists k. split; [lia|]. apply Hkeep. now left.
    + destruct (IH (S k) w1 p _ Hw1 Hp1) as [Hkeep Hclose].
      split.
      * intros [Hc|Hn]; apply Hkeep; [now left|right].
        intros Hin. apply Hn. now right.
      * intros Hopen [Hu|Hin].
        -- unfold openFor in Ho. rewrite Hopen, Hu, Z.eqb_refl in Ho. discriminate.
        -- destruct (Hclose Hopen Hin) as (j & Hj & E). exists j. split; [lia|exact E].
Qed.

Lemma cleanUpTick_reliable th now clock w :
  db_reliable w ->
  cleanUpTick th now clock w =
  endUsers (sql_stale_users (now - th) (user_presence_sessions w)) 0 clock w.
Proof.
  intros Hw. unfold cleanUpTick. rewrite bind_run, (db_roundtrip_reliable Hw).
  reflexivity.
Qed.

Lemma single_open_unique rows s s' :
  single_open rows ->
  In s rows -> In s' rows ->
  isOpen s = true -> isOpen s' = true -> UserID s' = UserID s ->
  s' = s.
Proof.
  intros H Hin Hin' Ho Ho' Hu. specialize (H (UserID s)). unfold openCount in H.
  assert (F : In s (filter (openFor (UserID s)) rows)).
  { apply filter_In. split; [exact Hin|]. unfold openFor.
    now rewrite Z.eqb_refl, Ho. }
  assert (F' : In s' (filter (openFor (UserID s)) rows)).
  { apply filter_In. split; [exact Hin'|]. unfold openFor.
    now rewrite Hu, Z.eqb_refl, Ho'. }
  destruct (filter (openFor (UserID s)) rows) as [|a [|b l]]; simpl in *.
  - destruct F.
  - destruct F as [<-|[]], F' as [<-|[]]. reflexivity.
  - lia.
Qed.

(** One reaper pass over a table that has at most one open session per
    user. *)
Lemma cleanUpTick_boundary (w : World) (p : nat) (s : PresenceSession)
    (t0 D e : Z) (clock : nat -> Z) :
  db_reliable w ->
  single_open (user_presence_sessions w) ->
  nth_error (user_presence_sessions w) p = Some s ->
  EndTime s = None ->
  LastSeen s = t0 ->
  0 < e ->
  (exists j,
     nth_error (user_presence_sessions (snd (cleanUpTick D (t0 + D + e) clock w))) p
     = Some (setEndTime (clock j) s)) /\
  nth_error (user_presence_sessions (snd (cleanUpTick D (t0 + D - e) clock w))) p
  = Some s.
Proof.
  intros Hw Hinv Hp Hend Hls He.
  assert (Hopen : isOpen s = true) by (unfold isOpen; now rewrite Hend).
  assert (Hin : In s (user_presence_sessions w)) by (eapply nth_error_In; eauto).
  split.
  - rewrite (cleanUpTick_reliable _ _ _ Hw).
    destruct (@endUsers_row clock
                (sql_stale_users (t0 + D + e - D) (user_presence_sessions w))
                0%nat w p s Hw Hp) as [_ Hclose].
    destruct Hclose as (j & _ & E); [exact Hopen| |now exists j].
    apply sql_stale_users_spec. exists s. repeat split; auto. lia.
  - rewrite (cleanUpTick_reliable _ _ _ Hw).
    destruct (@endUsers_row clock
                (sql_stale_users (t0 + D - e - D) (user_presence_sessions w))
                0%nat w p s Hw Hp) as [Hkeep _].
    apply Hkeep. right. intros Hstale.
    apply sql_stale_users_spec in Hstale.
    destruct Hstale as (s' & Hin' & Hu & He' & Hl).
    assert (s' = s).
    { apply (@single_open_unique (user_presence_sessions w) s s' Hinv); auto.
      unfold isOpen. now rewrite He'. }
    subst s'. lia.
Qed.

(** C4: in every store the system reaches from the empty one, the
    reaper's query returns exactly the users of the open sessions whose
    [last_seen] lies strictly before [now - D]; an open session last seen
    at [t0] is closed by a tick at [t0 + D + e] (its [end_time] becomes the
    clock reading taken when its user is ended) and is left as it is by a
    tick at [t0 + D - e], for every [e > 0].  The tick runs with the
    database answering. *)
Theorem reaper_boundary (bs ws : list (string * Z)) (ops : list (Op * list bool))
    (p : nat) (s : PresenceSession) (t0 D e : Z) (clock : nat -> Z) :
  let w := with_db_script [] (runOps ops (emptyStore bs ws)) in
  nth_error (user_presence_sessions w) p = Some s ->
  EndTime s = None ->
  LastSeen s = t0 ->
  0 < e ->
  (exists j,
     nth_error (user_presence_sessions (snd (cleanUpTick D (t0 + D + e) clock w))) p
     = Some (setEndTime (clock j) s)) /\
  nth_error (user_presence_sessions (snd (cleanUpTick D (t0 + D - e) clock w))) p
  = Some s /\
  (forall now uid,
     In uid (sql_stale_users (now - D) (user_presence_sessions w)) <->
     exists s', In s' (user_presence_sessions w) /\ UserID s' = uid /\
                EndTime s' = None /\ LastSeen s' < now - D).
Proof.
  intros w Hp Hend Hls He.
  assert (Hinv : single_open (user_presence_sessions w)).
  { apply (@runOps_single_open ops (emptyStore bs ws)).
    intros v. unfold openCount. simpl. lia. }
  destruct (@cleanUpTick_boundary w p s t0 D e clock eq_refl Hinv Hp Hend Hls He)
    as [Hclose Hkeep].
  split; [exact Hclose|]. split; [exact Hkeep|].
  intros now uid. apply sql_stale_users_spec.
Qed.

Lemma reaper_boundary_witness :
  nth_error (user_presence_sessions reachedWorld) 0
  = Some (mkSession 1 1 5 1000 None 1000) /\
  (exists j,
     nth_error (user_presence_sessions
                  (snd (cleanUpTick 21 (1000 + 21 + 1) (fun k => 1022 + Z.of_nat k)
                          reachedWorld))) 0
     = Some (setEndTime (1022 + Z.of_nat j) (mkSession 1 1 5 1000 None 1000))) /\
  nth_error (user_presence_sessions
               (snd (cleanUpTick 21 (1000 + 21 - 1) (fun k => 1020 + Z.of_nat k)
                       reachedWorld))) 0
  = Some (mkSession 1 1 5 1000 None 1000).
Proof.
  split; [reflexivity|].
  split.
  - apply (@reaper_boundary [("AA", 5)]%string []
             [(OpUpload (demoUpload 80 (Err ErrTransport)), [])]
             0%nat (mkSession 1 1 5 1000 None 1000)
             1000 21 1 (fun k => 1022 + Z.of_nat k) eq_refl eq_refl eq_refl eq_refl).
  - apply (@reaper_boundary [("AA", 5)]%string []
             [(OpUpload (demoUpload 80 (Err ErrTransport)), [])]
             0%nat (mkSession 1 1 5 1000 None 1000)
             1000 21 1 (fun k => 1020 + Z.of_nat k) eq_refl eq_refl eq_refl eq_refl).
Defined.

(** ** The upload handler *)

Lemma stable_ret {X A} (obs : World -> X) (a : A) : stable obs (ret a).
Proof. intros w. reflexivity. Qed.

Lemma stable_bind {X A B} (obs : World -> X) (c : M A) (k : A -> M B) :
  stable obs c -> (forall a, stable obs (k a)) -> stable obs (bind c k).
Proof.
  intros Hc Hk w. rewrite bind_run. now rewrite Hk, Hc.
Qed.

Lemma respond_run up w :
  respond up w =
  (if up_encode_ok up then UploadAccepted
   else UploadFailed StatusInternalServerError StEncode, w).
Proof. unfold respond. now destruct (up_encode_ok up). Qed.

Lemma stable_respond {X} (obs : World -> X) up : stable obs (respond up).
Proof. intros w. now rewrite respond_run. Qed.

Lemma stable_inquiry_endUserSession u t : stable inquiry_calls (endUserSession u t).
Proof.
  intros w. now destruct (endUserSession_outcome u t w) as [s [E|E]]; rewrite E.
Qed.

Lemma stable_inquiry_updateLastSeen u t : stable inquiry_calls (updateLastSeen u t).
Proof.
  intros w. now destruct (updateLastSeen_outcome u t w) as [s [E|E]]; rewrite E.
Qed.

Lemma stable_inquiry_startUserSession u room t :
  stable inquiry_calls (startUserSession u room t).
Proof.
  intros w.
  now destruct (startUserSession_outcome u room t w) as [s [E|E]]; rewrite E.
Qed.

Lemma stable_inquiry_queryOpenRoom u : stable inquiry_calls (queryOpenRoom u).
Proof.
  intros w. destruct (queryOpenRoom_outcome u w) as (s & -> & _). reflexivity.
Qed.

Lemma stable_inquiry_updateUserPresence u est inq t room :
  stable inquiry_calls (updateUserPresence u est inq t room).
Proof.
  unfold updateUserPresence. destruct (inq >? est).
  - apply stable_bind; [apply stable_inquiry_endUserSession|].
    intros [|]; intros; apply stable_ret.
  - apply stable_bind; [apply stable_inquiry_queryOpenRoom|].
    intros [room0|[]]; try apply stable_ret.
    + apply stable_bind; [apply stable_inquiry_updateLastSeen|].
      intros [|]; intros; apply stable_ret.
    + apply stable_bind; [apply stable_inquiry_startUserSession|].
      intros [|]; intros; apply stable_ret.
Qed.

Lemma stable_inquiry_determineRoomID ble wifi :
  stable inquiry_calls (determineRoomID ble wifi).
Proof.
  intros w. destruct (determineRoomID_frame ble wifi w) as [s ->]. reflexivity.
Qed.

Lemma stable_sessions_determineRoomID ble wifi :
  stable user_presence_sessions (determineRoomID ble wifi).
Proof.
  intros w. destruct (determineRoomID_frame ble wifi w) as [s ->]. reflexivity.
Qed.

Lemma stable_inquiry_presentBlock up est inq :
  stable inquiry_calls (presentBlock up est inq).
Proof.
  unfold presentBlock.
  apply stable_bind; [apply stable_inquiry_determineRoomID|].
  intros [room|e]; [|apply stable_ret].
  apply stable_bind; [apply stable_inquiry_updateUserPresence|].
  intros _. apply stable_respond.
Qed.

Lemma stable_inquiry_endBlock up : stable inquiry_calls (endBlock up).
Proof.
  unfold endBlock. apply stable_bind; [apply stable_inquiry_endUserSession|].
  intros _. apply stable_ret.
Qed.

Lemma stable_copyFile {X} (obs : World -> X) sample ok :
  (forall l w, obs (with_negative_samples l w) = obs w) ->
  stable obs (copyFile sample ok).
Proof. intros H w. unfold copyFile. destruct ok; simpl; [apply H|reflexivity]. Qed.

Lemma stable_negativeSampleBlock {X} (obs : World -> X) up :
  (forall l w, obs (with_negative_samples l w) = obs w) ->
  stable obs (negativeSampleBlock up).
Proof.
  intros H. unfold negativeSampleBlock.
  destruct (up_mkdir_ok up); [|apply stable_ret].
  apply stable_bind; [now apply stable_copyFile|].
  intros [|]; [|apply stable_ret].
  apply stable_bind; [now apply stable_copyFile|].
  intros [|]; [apply stable_respond|apply stable_ret].
Qed.

(** Which branch the handler takes, by the two confidences. *)
Lemma handleSignalsSubmit_dispatch up w est :
  up_estimation up = Ok est ->
  (est < 20 -> handleSignalsSubmit up w = applyDisposition up est Absent w) /\
  (20 <= est <= 70 ->
   forall inq, up_inquiry up = Ok inq ->
     (inq <= est ->
      handleSignalsSubmit up w
      = applyDisposition up est (Present inq) (afterInquiry w)) /\
     (est < inq ->
      handleSignalsSubmit up w
      = applyDisposition up est AbsentWithArchive (afterInquiry w))) /\
  (20 <= est <= 70 ->
   forall e, up_inquiry up = Err e ->
     handleSignalsSubmit up w
     = (UploadFailed StatusInternalServerError StInquiry, afterInquiry w)) /\
  (70 < est -> handleSignalsSubmit up w = applyDisposition up est (Present 0) w).
Proof.
  intros Hest. unfold handleSignalsSubmit. rewrite Hest.
  rewrite Z.geb_leb, Z.gtb_ltb.
  split; [|split; [|split]].
  - intros H.
    destruct (Z.leb_spec 20 est); [lia|]. simpl.
    destruct (Z.ltb_spec 70 est); [lia|]. reflexivity.
  - intros H inq Hinq.
    destruct (Z.leb_spec 20 est); [|lia].
    destruct (Z.leb_spec est 70); [|lia]. simpl.
    rewrite bind_run. unfold forwardFilesToInquiryServer. cbn [fst snd].
    rewrite Hinq. cbv beta iota. rewrite Z.geb_leb. fold (afterInquiry w).
    split; intros Hc.
    + destruct (Z.leb_spec inq est); [|lia]. reflexivity.
    + destruct (Z.leb_spec inq est); [lia|]. reflexivity.
  - intros H e He.
    destruct (Z.leb_spec 20 est); [|lia].
    destruct (Z.leb_spec est 70); [|lia]. simpl.
    rewrite bind_run. unfold forwardFilesToInquiryServer. cbn [fst snd].
    rewrite He. reflexivity.
  - intros H.
    destruct (Z.leb_spec 20 est); [|lia].
    destruct (Z.leb_spec est 70); [lia|]. simpl.
    destruct (Z.ltb_spec 70 est); [|lia]. reflexivity.
Qed.

(** C1: the fusion table.  For an estimation confidence [e] in 0..100:
    below 20 the handler runs the Absent branch and sends nothing to the
    arbiter; from 20 to 70 it asks the arbiter once and runs the
    Present branch with the arbiter's confidence when [e >= inquiry]
    (equality included) and the AbsentWithArchive branch when
    [e < inquiry]; above 70 it runs the Present branch with inquiry
    confidence 0 and sends nothing to the arbiter. *)
Theorem fusion_table (up : Upload) (w : World) (e : Z) :
  up_estimation up = Ok e ->
  0 <= e <= 100 ->
  (e < 20 ->
   handleSignalsSubmit up w = applyDisposition up e Absent w /\
   inquiry_calls (snd (handleSignalsSubmit up w)) = inquiry_calls w) /\
  (20 <= e <= 70 ->
   forall inquiry, up_inquiry up = Ok inquiry ->
     inquiry_calls (snd (handleSignalsSubmit up w)) = S (inquiry_calls w) /\
     (e >= inquiry ->
      handleSignalsSubmit up w
      = applyDisposition up e (Present inquiry) (afterInquiry w)) /\
     (e < inquiry ->
      handleSignalsSubmit up w
      = applyDisposition up e AbsentWithArchive (afterInquiry w))) /\
  (e > 70 ->
   handleSignalsSubmit up w = applyDisposition up e (Present 0) w /\
   inquiry_calls (snd (handleSignalsSubmit up w)) = inquiry_calls w).
Proof.
  intros Hest Hrange.
  destruct (handleSignalsSubmit_dispatch up w Hest) as (Hlow & Hmid & _ & Hhigh).
  split; [|split].
  - intros H. rewrite (Hlow H). split; [reflexivity|].
    simpl. apply stable_bind; [apply stable_inquiry_endBlock|].
    intros _. apply stable_respond.
  - intros H inquiry Hinq. destruct (Hmid H inquiry Hinq) as [Hp Ha].
    split; [|split].
    + destruct (Z.le_gt_cases inquiry e) as [Hc|Hc].
      * rewrite (Hp Hc). simpl. now rewrite stable_inquiry_presentBlock.
      * rewrite (Ha ltac:(lia)). simpl.
        rewrite (@stable_bind _ _ _ inquiry_calls (endBlock up)
                   (fun _ => negativeSampleBlock up)); [reflexivity| |].
        -- apply stable_inquiry_endBlock.
        -- intros _. now apply stable_negativeSampleBlock.
    + intros Hc. apply Hp. lia.
    + exact Ha.
  - intros H. rewrite (Hhigh ltac:(lia)). split; [reflexivity|].
    simpl. apply stable_inquiry_presentBlock.
Qed.

Lemma fusion_table_witness :
  up_estimation (demoUpload 45 (Ok 45)) = Ok 45 /\ 0 <= 45 <= 100 /\
  handleSignalsSubmit (demoUpload 45 (Ok 45)) demoWorld
  = applyDisposition (demoUpload 45 (Ok 45)) 45 (Present 45) (afterInquiry demoWorld).
Proof.
  split; [reflexivity|]. split; [lia|].
  destruct (@fusion_table (demoUpload 45 (Ok 45)) demoWorld 45 eq_refl
              ltac:(lia)) as (_ & Hmid & _).
  destruct (Hmid ltac:(lia) 45 eq_refl) as (_ & Hp & _).
  apply Hp. lia.
Defined.

(** C7: when the estimation confidence lies in [20, 70] and the arbiter
    request fails, the upload fails (HTTP 500) and nothing is done to the
    store: the session table and the session id counter are as before, no
    database call has been made, no negative sample is stored; the only
    trace is the request sent to the arbiter. *)
Theorem arbiter_failure_atomic (up : Upload) (w : World) (est : Z) (err : error) :
  up_estimation up = Ok est ->
  20 <= est <= 70 ->
  up_inquiry up = Err err ->
  let out := handleSignalsSubmit up w in
  fst out = UploadFailed StatusInternalServerError StInquiry /\
  user_presence_sessions (snd out) = user_presence_sessions w /\
  next_session_id (snd out) = next_session_id w /\
  db_script (snd out) = db_script w /\
  negative_samples (snd out) = negative_samples w /\
  snd out = afterInquiry w.
Proof.
  intros Hest Hr Hinq out. subst out.
  destruct (handleSignalsSubmit_dispatch up w Hest) as (_ & _ & Hfail & _).
  rewrite (Hfail Hr err Hinq). repeat split.
Qed.

Lemma arbiter_failure_atomic_witness :
  up_estimation (demoUpload 45 (Err ErrTransport)) = Ok 45 /\
  fst (handleSignalsSubmit (demoUpload 45 (Err ErrTransport)) sessionWorld)
  = UploadFailed StatusInternalServerError StInquiry /\
  user_presence_sessions
    (snd (handleSignalsSubmit (demoUpload 45 (Err ErrTransport)) sessionWorld))
  = user_presence_sessions sessionWorld.
Proof.
  split; [reflexivity|].
  destruct (@arbiter_failure_atomic (demoUpload 45 (Err ErrTransport))
              sessionWorld 45 ErrTransport eq_refl ltac:(lia) eq_refl)
    as (Hr & Hs & _).
  split; [exact Hr|exact Hs].
Defined.

Lemma presentBlock_cases up est inq w :
  let resolved := determineRoomID (up_ble up) (up_wifi up) w in
  (exists e,
     fst resolved = Err e /\
     presentBlock up est inq w
     = (UploadFailed StatusInternalServerError StRoom, snd resolved)) \/
  (exists roomID,
     fst resolved = Ok roomID /\
     presentBlock up est inq w
     = (if up_encode_ok up then UploadAccepted
        else UploadFailed StatusInternalServerError StEncode,
        snd (updateUserPresence (up_userID up) est inq (up_currentTime up)
               roomID (snd resolved)))).
Proof.
  intros resolved. subst resolved. unfold presentBlock. rewrite bind_run.
  destruct (fst (determineRoomID (up_ble up) (up_wifi up) w)) as [roomID|e].
  - right. exists roomID. split; [reflexivity|].
    rewrite bind_run, respond_run. reflexivity.
  - left. exists e. split; reflexivity.
Qed.

Lemma endBlock_run up w :
  endBlock up w = (tt, snd (endUserSession (up_userID up) (up_currentTime up) w)).
Proof. unfold endBlock. rewrite bind_run. reflexivity. Qed.

Lemma negativeSampleBlock_reply up w :
  fst (negativeSampleBlock up w) =
  if up_mkdir_ok up then
    if up_copy_wifi_ok up then
      if up_copy_ble_ok up then
        if up_encode_ok up then UploadAccepted
        else UploadFailed StatusInternalServerError StEncode
      else UploadFailed StatusInternalServerError StNegativeBle
    else UploadFailed StatusInternalServerError StNegativeWifi
  else UploadFailed StatusInternalServerError StNegativeDir.
Proof.
  unfold negativeSampleBlock, bind, copyFile.
  destruct (up_mkdir_ok up); [|reflexivity].
  destruct (up_copy_wifi_ok up); [|reflexivity].
  destruct (up_copy_ble_ok up); [|reflexivity].
  now rewrite respond_run.
Qed.

Lemma stable_sessions_negativeSampleBlock up :
  stable user_presence_sessions (negativeSampleBlock up).
Proof. now apply stable_negativeSampleBlock. Qed.

(** The failures reported before any session statement runs. *)
Lemma handleSignalsSubmit_failed up w status st :
  fst (handleSignalsSubmit up w) = UploadFailed status st ->
  status = StatusInternalServerError /\
  (st = StEstimation \/ st = StInquiry \/ st = StRoom ->
   user_presence_sessions (snd (handleSignalsSubmit up w))
   = user_presence_sessions w).
Proof.
  assert (Hpresent : forall est inq w0,
            user_presence_sessions w0 = user_presence_sessions w ->
            fst (presentBlock up est inq w0) = UploadFailed status st ->
            status = StatusInternalServerError /\
            (st = StEstimation \/ st = StInquiry \/ st = StRoom ->
             user_presence_sessions (snd (presentBlock up est inq w0))
             = user_presence_sessions w)).
  { intros est inq w0 Hw0.
    destruct (presentBlock_cases up est inq w0) as [(e & _ & E)|(room & _ & E)];
      rewrite E; simpl.
    - intros [= <- <-]. split; [reflexivity|]. intros _.
      now rewrite stable_sessions_determineRoomID.
    - destruct (up_encode_ok up); [discriminate|].
      intros [= <- <-]. split; [reflexivity|].
      intros [H|[H|H]]; discriminate. }
  destruct (up_estimation up) as [est|e] eqn:Hest.
  - destruct (handleSignalsSubmit_dispatch up w Hest)
      as (Hlow & Hmid & Hfail & Hhigh).
    destruct (Z.lt_ge_cases est 20) as [Hc|Hc];
      [|destruct (Z.le_gt_cases est 70) as [Hc'|Hc']].
    + rewrite (Hlow Hc). simpl. rewrite bind_run, endBlock_run, respond_run. simpl.
      destruct (up_encode_ok up); [discriminate|].
      intros [= <- <-]. split; [reflexivity|].
      intros [H|[H|H]]; discriminate.
    + destruct (up_inquiry up) as [inq|e] eqn:Hinq.
      * destruct (Hmid (conj Hc Hc') inq eq_refl) as [Hp Ha].
        destruct (Z.le_gt_cases inq est) as [Hi|Hi].
        -- rewrite (Hp Hi). simpl. now apply Hpresent.
        -- rewrite (Ha Hi). simpl. rewrite bind_run, endBlock_run. cbn [fst snd].
           rewrite negativeSampleBlock_reply.
           destruct (up_mkdir_ok up), (up_copy_wifi_ok up), (up_copy_ble_ok up),
             (up_encode_ok up); try discriminate;
             intros [= <- <-]; (split; [reflexivity|]);
             intros [H|[H|H]]; discriminate.
      * rewrite (Hfail (conj Hc Hc') e eq_refl). simpl.
        intros [= <- <-]. split; [reflexivity|]. reflexivity.
    + rewrite (Hhigh Hc'). simpl. now apply Hpresent.
  - unfold handleSignalsSubmit. rewrite Hest. simpl.
    intros [= <- <-]. split; reflexivity.
Qed.

(** C8 (as amended): a failure of the estimator, of the arbiter request or
    of room resolution is surfaced as a failed upload (HTTP 500) and the
    session table is untouched.  A failed session start, end or heartbeat
    is not surfaced: the handler goes on to the reply a successful
    statement would have led to, and the failed statement leaves the
    session table as it was.  Storing the negative sample comes after the
    session end: its failure is surfaced while the session end stays. *)
Theorem upload_error_surfacing (up : Upload) (w : World) :
  let out := handleSignalsSubmit up w in
  let uid := up_userID up in
  let t := up_currentTime up in
  let ble := up_ble up in
  let wifi := up_wifi up in
  let reply := if up_encode_ok up then UploadAccepted
               else UploadFailed StatusInternalServerError StEncode in
  (forall status st,
      fst out = UploadFailed status st ->
      status = StatusInternalServerError /\
      (st = StEstimation \/ st = StInquiry \/ st = StRoom ->
       user_presence_sessions (snd out) = user_presence_sessions w)) /\
  (forall e, up_estimation up = Err e ->
             fst out = UploadFailed StatusInternalServerError StEstimation) /\
  (forall est e,
      up_estimation up = Ok est -> 20 <= est <= 70 -> up_inquiry up = Err e ->
      fst out = UploadFailed StatusInternalServerError StInquiry) /\
  (forall est e,
      up_estimation up = Ok est -> 70 < est ->
      fst (determineRoomID ble wifi w) = Err e ->
      fst out = UploadFailed StatusInternalServerError StRoom) /\
  (forall est inq e,
      up_estimation up = Ok est -> 20 <= est <= 70 ->
      up_inquiry up = Ok inq -> inq <= est ->
      fst (determineRoomID ble wifi (afterInquiry w)) = Err e ->
      fst out = UploadFailed StatusInternalServerError StRoom) /\
  (forall est e,
      up_estimation up = Ok est -> est < 20 ->
      fst (endUserSession uid t w) = Err e ->
      fst out = reply /\
      user_presence_sessions (snd out) = user_presence_sessions w) /\
  (forall est roomID e,
      up_estimation up = Ok est -> 70 < est ->
      fst (determineRoomID ble wifi w) = Ok roomID ->
      fst (updateUserPresence uid est 0 t roomID
             (snd (determineRoomID ble wifi w))) = Err e ->
      fst out = reply /\
      user_presence_sessions (snd out) = user_presence_sessions w) /\
  (forall est inq roomID e,
      up_estimation up = Ok est -> 20 <= est <= 70 ->
      up_inquiry up = Ok inq -> inq <= est ->
      fst (determineRoomID ble wifi (afterInquiry w)) = Ok roomID ->
      fst (updateUserPresence uid est inq t roomID
             (snd (determineRoomID ble wifi (afterInquiry w)))) = Err e ->
      fst out = reply /\
      user_presence_sessions (snd out) = user_presence_sessions w) /\
  (forall est inq,
      up_estimation up = Ok est -> 20 <= est <= 70 ->
      up_inquiry up = Ok inq -> est < inq ->
      (forall w0, fst out = fst (negativeSampleBlock up w0)) /\
      user_presence_sessions (snd out)
      = user_presence_sessions (snd (endUserSession uid t (afterInquiry w))) /\
      (forall e, fst (endUserSession uid t (afterInquiry w)) = Err e ->
                 user_presence_sessions (snd out) = user_presence_sessions w) /\
      (up_mkdir_ok up = false ->
       fst out = UploadFailed StatusInternalServerError StNegativeDir) /\
      (up_mkdir_ok up = true -> up_copy_wifi_ok up = false ->
       fst out = UploadFailed StatusInternalServerError StNegativeWifi) /\
      (up_mkdir_ok up = true -> up_copy_wifi_ok up = true ->
       up_copy_ble_ok up = false ->
       fst out = UploadFailed StatusInternalServerError StNegativeBle)).
Proof.
  intros out uid t ble wifi reply. subst out uid t ble wifi reply.
  split; [intros status st; apply handleSignalsSubmit_failed|].
  split; [|split; [|split; [|split; [|split; [|split; [|split]]]]]].
  - intros e He. unfold handleSignalsSubmit. now rewrite He.
  - intros est e Hest Hr He.
    destruct (handleSignalsSubmit_dispatch up w Hest) as (_ & _ & Hfail & _).
    now rewrite (Hfail Hr e He).
  - intros est e Hest Hr He.
    destruct (handleSignalsSubmit_dispatch up w Hest) as (_ & _ & _ & Hhigh).
    rewrite (Hhigh Hr). simpl.
    destruct (presentBlock_cases up est 0 w) as [(e' & _ & E)|(room & Hroom & _)].
    + now rewrite E.
    + rewrite He in Hroom. discriminate.
  - intros est inq e Hest Hr Hinq Hi He.
    destruct (handleSignalsSubmit_dispatch up w Hest) as (_ & Hmid & _ & _).
    destruct (Hmid Hr inq Hinq) as [Hp _]. rewrite (Hp Hi). simpl.
    destruct (presentBlock_cases up est inq (afterInquiry w))
      as [(e' & _ & E)|(room & Hroom & _)].
    + now rewrite E.
    + rewrite He in Hroom. discriminate.
  - intros est e Hest Hr He.
    destruct (handleSignalsSubmit_dispatch up w Hest) as (Hlow & _ & _ & _).
    rewrite (Hlow Hr). simpl. rewrite bind_run, endBlock_run, respond_run.
    cbn [fst snd]. split; [reflexivity|].
    now apply endUserSession_failed with e.
  - intros est roomID e Hest Hr Hroom He.
    destruct (handleSignalsSubmit_dispatch up w Hest) as (_ & _ & _ & Hhigh).
    rewrite (Hhigh Hr). simpl.
    destruct (presentBlock_cases up est 0 w) as [(e' & Hroom' & _)|(room & Hroom' & E)].
    + rewrite Hroom in Hroom'. discriminate.
    + rewrite Hroom in Hroom'. injection Hroom' as <-.
      rewrite E. cbn [fst snd]. split; [reflexivity|].
      rewrite (updateUserPresence_failed _ _ _ _ _ _ He).
      apply stable_sessions_determineRoomID.
  - intros est inq roomID e Hest Hr Hinq Hi Hroom He.
    destruct (handleSignalsSubmit_dispatch up w Hest) as (_ & Hmid & _ & _).
    destruct (Hmid Hr inq Hinq) as [Hp _]. rewrite (Hp Hi). simpl.
    destruct (presentBlock_cases up est inq (afterInquiry w))
      as [(e' & Hroom' & _)|(room & Hroom' & E)].
    + rewrite Hroom in Hroom'. discriminate.
    + rewrite Hroom in Hroom'. injection Hroom' as <-.
      rewrite E. cbn [fst snd]. split; [reflexivity|].
      rewrite (updateUserPresence_failed _ _ _ _ _ _ He).
      now rewrite stable_sessions_determineRoomID.
  - intros est inq Hest Hr Hinq Hi.
    destruct (handleSignalsSubmit_dispatch up w Hest) as (_ & Hmid & _ & _).
    destruct (Hmid Hr inq Hinq) as [_ Ha]. rewrite (Ha Hi). simpl.
    rewrite bind_run, endBlock_run. cbn [fst snd].
    rewrite !(stable_sessions_negativeSampleBlock up
               (snd (endUserSession (up_userID up) (up_currentTime up)
                       (afterInquiry w)))).
    split; [intros w0; now rewrite !negativeSampleBlock_reply|].
    split; [reflexivity|].
    split; [intros e He; rewrite (@endUserSession_failed _ _ _ e He); reflexivity|].
    rewrite negativeSampleBlock_reply.
    split; [intros ->; reflexivity|].
    split; [intros -> ->; reflexivity|].
    intros -> -> ->; reflexivity.
Qed.

Lemma upload_error_surfacing_witness :
  up_estimation (demoUpload 15 (Err ErrTransport)) = Ok 15 /\
  fst (endUserSession 1 1000 failingWorld) = Err ErrDriver /\
  fst (handleSignalsSubmit (demoUpload 15 (Err ErrTransport)) failingWorld)
  = UploadAccepted /\
  user_presence_sessions
    (snd (handleSignalsSubmit (demoUpload 15 (Err ErrTransport)) failingWorld))
  = user_presence_sessions failingWorld.
Proof.
  split; [reflexivity|]. split; [reflexivity|].
  destruct (@upload_error_surfacing (demoUpload 15 (Err ErrTransport)) failingWorld)
    as (_ & _ & _ & _ & _ & Hend & _).
  apply (Hend 15 ErrDriver); [reflexivity|lia|reflexivity].
Defined.

(** C8, as stated, fails twice over.  The session end of an Absent upload
    fails in the database and the uploader still gets the success reply;
    and an upload that fails while its negative sample is stored has
    already closed the user's session. *)
Lemma upload_error_surfacing_counterexample :
  (fst (endUserSession 1 1000 failingWorld) = Err ErrDriver /\
   fst (handleSignalsSubmit (demoUpload 15 (Err ErrTransport)) failingWorld)
   = UploadAccepted) /\
  (fst (handleSignalsSubmit archiveFailUpload sessionWorld)
   = UploadFailed StatusInternalServerError StNegativeDir /\
   user_presence_sessions (snd (handleSignalsSubmit archiveFailUpload sessionWorld))
   = [mkSession 1 2 3 900 (Some 950) 940; mkSession 2 1 5 1000 (Some 1000) 1000] /\
   user_presence_sessions (snd (handleSignalsSubmit archiveFailUpload sessionWorld))
   <> user_presence_sessions sessionWorld).
Proof.
  repeat split. vm_compute. discriminate.
Qed.

(** * Further properties of the session engine *)

Lemma respects_ret {A} (R : World -> World -> Prop) (a : A) :
  (forall w, R w w) -> respects R (ret a).
Proof. intros HR w. apply HR. Qed.

Lemma respects_bind {A B} (R : World -> World -> Prop) (c : M A) (k : A -> M B) :
  (forall w1 w2 w3, R w1 w2 -> R w2 w3 -> R w1 w3) ->
  respects R c -> (forall a, respects R (k a)) -> respects R (bind c k).
Proof.
  intros HT Hc Hk w. rewrite bind_run. eapply HT; [apply Hc|apply Hk].
Qed.

(** A computation that leaves the session table alone respects every
    reflexive relation that only looks at the table. *)
Lemma respects_stable {A} (R : World -> World -> Prop) (c : M A) :
  (forall w w', user_presence_sessions w' = user_presence_sessions w -> R w w') ->
  stable user_presence_sessions c -> respects R c.
Proof. intros HR Hc w. apply HR, Hc. Qed.

Lemma history_kept_same w w' :
  user_presence_sessions w' = user_presence_sessions w -> history_kept w w'.
Proof.
  intros E k s Hk. exists s. rewrite E. now repeat split.
Qed.

Lemma history_kept_trans w1 w2 w3 :
  history_kept w1 w2 -> history_kept w2 w3 -> history_kept w1 w3.
Proof.
  intros H12 H23 k s Hk.
  destruct (H12 k s Hk) as (s2 & Hk2 & Hi & Hu & Hr & Hs & Hc).
  destruct (H23 k s2 Hk2) as (s3 & Hk3 & Hi' & Hu' & Hr' & Hs' & Hc').
  exists s3. repeat split; try congruence.
  intros He. rewrite <- (Hc He). apply Hc'. now rewrite (Hc He).
Qed.

Lemma only_touches_same u w w' :
  user_presence_sessions w' = user_presence_sessions w -> only_touches u w w'.
Proof. intros E. split; intros k s Hk _; congruence. Qed.

Lemma only_touches_trans u w1 w2 w3 :
  only_touches u w1 w2 -> only_touches u w2 w3 -> only_touches u w1 w3.
Proof.
  intros [A1 B1] [A2 B2]. split; intros k s Hk Hu.
  - apply A2; auto.
  - apply B1; auto.
Qed.

Lemma history_kept_sql_end u t w w' :
  user_presence_sessions w' = sql_end u t (user_presence_sessions w) ->
  history_kept w w'.
Proof.
  intros E k s Hk. rewrite E, sql_end_nth, Hk. simpl.
  destruct (openFor u s) eqn:Ho.
  - exists (setEndTime t s). repeat split.
    intros He. unfold openFor, isOpen in Ho.
    destruct (EndTime s); [|congruence]. now rewrite andb_false_r in Ho.
  - exists s. now repeat split.
Qed.

Lemma history_kept_sql_touch u t w w' :
  user_presence_sessions w' = sql_touch u t (user_presence_sessions w) ->
  history_kept w w'.
Proof.
  intros E k s Hk. rewrite E, sql_touch_nth, Hk. simpl.
  destruct (openFor u s) eqn:Ho.
  - exists (setLastSeen t s). repeat split.
    intros He. unfold openFor, isOpen in Ho.
    destruct (EndTime s); [|congruence]. now rewrite andb_false_r in Ho.
  - exists s. now repeat split.
Qed.

Lemma history_kept_sql_insert id u room t w w' :
  user_presence_sessions w' = sql_insert id u room t (user_presence_sessions w) ->
  history_kept w w'.
Proof.
  intros E k s Hk. exists s. rewrite E. unfold sql_insert.
  rewrite nth_error_app1 by (apply nth_error_Some; congruence).
  now repeat split.
Qed.

Lemma only_touches_sql_end u t w w' :
  user_presence_sessions w' = sql_end u t (user_presence_sessions w) ->
  only_touches u w w'.
Proof.
  intros E. split; intros k s Hk Hu.
  - rewrite E, sql_end_nth, Hk. simpl. unfold openFor.
    destruct (Z.eqb_spec (UserID s) u); [contradiction|reflexivity].
  - rewrite E, sql_end_nth in Hk.
    destruct (nth_error (user_presence_sessions w) k) as [s0|]; [|discriminate].
    simpl in Hk. unfold openFor in Hk.
    destruct (Z.eqb_spec (UserID s0) u) as [Hs0|Hs0]; simpl in Hk.
    + destruct (isOpen s0); injection Hk as <-; [|reflexivity].
      simpl in Hu. contradiction.
    + exact Hk.
Qed.

Lemma only_touches_sql_touch u t w w' :
  user_presence_sessions w' = sql_touch u t (user_presence_sessions w) ->
  only_touches u w w'.
Proof.
  intros E. split; intros k s Hk Hu.
  - rewrite E, sql_touch_nth, Hk. simpl. unfold openFor.
    destruct (Z.eqb_spec (UserID s) u); [contradiction|reflexivity].
  - rewrite E, sql_touch_nth in Hk.
    destruct (nth_error (user_presence_sessions w) k) as [s0|]; [|discriminate].
    simpl in Hk. unfold openFor in Hk.
    destruct (Z.eqb_spec (UserID s0) u) as [Hs0|Hs0]; simpl in Hk.
    + destruct (isOpen s0); injection Hk as <-; [|reflexivity].
      simpl in Hu. contradiction.
    + exact Hk.
Qed.

Lemma only_touches_sql_insert id u room t w w' :
  user_presence_sessions w' = sql_insert id u room t (user_presence_sessions w) ->
  only_touches u w w'.
Proof.
  intros E. split; intros k s Hk Hu.
  - rewrite E. unfold sql_insert.
    rewrite nth_error_app1 by (apply nth_error_Some; congruence). exact Hk.
  - rewrite E in Hk. unfold sql_insert in Hk.
    destruct (Nat.lt_ge_cases k (List.length (user_presence_sessions w))) as [Hl|Hl].
    + now rewrite nth_error_app1 in Hk.
    + rewrite nth_error_app2 in Hk by exact Hl.
      destruct (k - List.length (user_presence_sessions w))%nat as [|n];
        simpl in Hk.
      * injection Hk as <-. simpl in Hu. contradiction.
      * destruct n; discriminate.
Qed.

Section Lifting.

(** A relation on worlds that only reads the session table, is
    transitive, and is kept by the three statements when they act for an
    allowed user. *)
Variable R : World -> World -> Prop.
Variable allowed : Z -> Prop.
Hypothesis R_same :
  forall w w', user_presence_sessions w' = user_presence_sessions w -> R w w'.
Hypothesis R_trans : forall w1 w2 w3, R w1 w2 -> R w2 w3 -> R w1 w3.
Hypothesis R_end :
  forall u t w w', allowed u ->
    user_presence_sessions w' = sql_end u t (user_presence_sessions w) -> R w w'.
Hypothesis R_touch :
  forall u t w w', allowed u ->
    user_presence_sessions w' = sql_touch u t (user_presence_sessions w) -> R w w'.
Hypothesis R_insert :
  forall id u room t w w', allowed u ->
    user_presence_sessions w' = sql_insert id u room t (user_presence_sessions w) ->
    R w w'.

Lemma R_refl w : R w w.
Proof. now apply R_same. Qed.

Lemma lift_endUserSession u t : allowed u -> respects R (endUserSession u t).
Proof.
  intros Hu w.
  destruct (endUserSession_outcome u t w) as [s [E|E]]; rewrite E; simpl.
  - eapply R_end; [exact Hu|reflexivity].
  - now apply R_same.
Qed.

Lemma lift_updateLastSeen u t : allowed u -> respects R (updateLastSeen u t).
Proof.
  intros Hu w.
  destruct (updateLastSeen_outcome u t w) as [s [E|E]]; rewrite E; simpl.
  - eapply R_touch; [exact Hu|reflexivity].
  - now apply R_same.
Qed.

Lemma lift_startUserSession u room t :
  allowed u -> respects R (startUserSession u room t).
Proof.
  intros Hu w.
  destruct (startUserSession_outcome u room t w) as [s [E|E]]; rewrite E; simpl.
  - eapply R_insert; [exact Hu|reflexivity].
  - now apply R_same.
Qed.

Lemma lift_queryOpenRoom u : respects R (queryOpenRoom u).
Proof.
  intros w. destruct (queryOpenRoom_outcome u w) as (s & -> & _).
  now apply R_same.
Qed.

Lemma lift_updateUserPresence u est inq t room :
  allowed u -> respects R (updateUserPresence u est inq t room).
Proof.
  intros Hu. unfold updateUserPresence. destruct (inq >? est).
  - apply respects_bind; [exact R_trans|now apply lift_endUserSession|].
    intros [|]; intros; apply respects_ret, R_refl.
  - apply respects_bind; [exact R_trans|apply lift_queryOpenRoom|].
    intros [room0|[]]; try apply respects_ret, R_refl.
    + apply respects_bind; [exact R_trans|now apply lift_updateLastSeen|].
      intros [|]; intros; apply respects_ret, R_refl.
    + apply respects_bind; [exact R_trans|now apply lift_startUserSession|].
      intros [|]; intros; apply respects_ret, R_refl.
Qed.

Lemma lift_presentBlock up est inq :
  allowed (up_userID up) -> respects R (presentBlock up est inq).
Proof.
  intros Hu. unfold presentBlock.
  apply respects_bind; [exact R_trans| |].
  - apply respects_stable; [exact R_same|apply stable_sessions_determineRoomID].
  - intros [room|e]; [|apply respects_ret, R_refl].
    apply respects_bind; [exact R_trans|now apply lift_updateUserPresence|].
    intros _. apply respects_stable; [exact R_same|apply stable_respond].
Qed.

Lemma lift_endBlock up : allowed (up_userID up) -> respects R (endBlock up).
Proof.
  intros Hu. unfold endBlock.
  apply respects_bind; [exact R_trans|now apply lift_endUserSession|].
  intros _. apply respects_ret, R_refl.
Qed.

Lemma lift_handleSignalsSubmit up :
  allowed (up_userID up) -> respects R (handleSignalsSubmit up).
Proof.
  intros Hu. unfold handleSignalsSubmit.
  destruct (up_estimation up) as [est|e]; [|apply respects_ret, R_refl].
  destruct (_ && _)%bool.
  - apply respects_bind; [exact R_trans|intros w; now apply R_same|].
    intros [inq|e]; [|apply respects_ret, R_refl].
    destruct (est >=? inq).
    + now apply lift_presentBlock.
    + apply respects_bind; [exact R_trans|now apply lift_endBlock|].
      intros _. apply respects_stable;
        [exact R_same|apply stable_sessions_negativeSampleBlock].
  - destruct (est >? 70).
    + now apply lift_presentBlock.
    + apply respects_bind; [exact R_trans|now apply lift_endBlock|].
      intros _. apply respects_stable; [exact R_same|apply stable_respond].
Qed.

Lemma lift_endUsers users k clock :
  (forall u, In u users -> allowed u) -> respects R (endUsers users k clock).
Proof.
  revert k. induction users as [|uid rest IH]; intros k Hall; simpl.
  - apply respects_ret, R_refl.
  - apply respects_bind; [exact R_trans| |].
    + apply lift_endUserSession, Hall. now left.
    + intros _. apply IH. intros u Hu. apply Hall. now right.
Qed.

Lemma lift_cleanUpTick th now clock :
  (forall u, allowed u) -> respects R (cleanUpTick th now clock).
Proof.
  intros Hall w. unfold cleanUpTick. rewrite bind_run.
  destruct (db_roundtrip_cases w) as [E|(ok & rest & Es & E)]; rewrite E; simpl.
  - apply lift_endUsers. intros u _. apply Hall.
  - destruct ok; [|now apply R_same].
    apply R_trans with (with_db_script rest w); [apply R_same; reflexivity|].
    apply lift_endUsers. intros u _. apply Hall.
Qed.

Lemma lift_runOp op : (forall u, allowed u) -> respects R (runOp op).
Proof.
  intros Hall. destruct op; simpl.
  - apply respects_bind; [exact R_trans|apply lift_handleSignalsSubmit, Hall|].
    intros _. apply respects_ret, R_refl.
  - apply respects_bind; [exact R_trans|apply lift_updateUserPresence, Hall|].
    intros _. apply respects_ret, R_refl.
  - apply respects_bind; [exact R_trans|apply lift_endUserSession, Hall|].
    intros _. apply respects_ret, R_refl.
  - apply respects_bind; [exact R_trans|apply lift_updateLastSeen, Hall|].
    intros _. apply respects_ret, R_refl.
  - now apply lift_cleanUpTick.
Qed.

Lemma lift_runOps ops w : (forall u, allowed u) -> R w (runOps ops w).
Proof.
  intros Hall. revert w. induction ops as [|[op script] rest IH]; intros w;
    simpl.
  - apply R_refl.
  - eapply R_trans; [|apply IH].
    apply R_trans with (with_db_script script w); [apply R_same; reflexivity|].
    now apply lift_runOp.
Qed.

End Lifting.

(** X1: the session table is an append-only history.  Whatever uploads,
    presence updates, session ends, heartbeats and reaper ticks run, and
    whichever database calls fail, no row is removed or moved, no row's
    id, user, room or start time changes, and a row whose [end_time] is
    set is never changed again. *)
Theorem session_history_append_only
    (ops : list (Op * list bool)) (w : World) (k : nat) (s : PresenceSession) :
  nth_error (user_presence_sessions w) k = Some s ->
  exists s',
    nth_error (user_presence_sessions (runOps ops w)) k = Some s' /\
    SessionID s' = SessionID s /\ UserID s' = UserID s /\
    RoomID s' = RoomID s /\ StartTime s' = StartTime s /\
    (EndTime s <> None -> s' = s).
Proof.
  revert k s.
  change (history_kept w (runOps ops w)).
  apply (@lift_runOps history_kept (fun _ => True)); auto.
  - apply history_kept_same.
  - apply history_kept_trans.
  - intros u t w1 w2 _. apply history_kept_sql_end.
  - intros u t w1 w2 _. apply history_kept_sql_touch.
  - intros id u room t w1 w2 _. apply history_kept_sql_insert.
Qed.

Lemma session_history_append_only_witness :
  nth_error (user_presence_sessions sessionWorld) 0
  = Some (mkSession 1 2 3 900 (Some 950) 940) /\
  nth_error
    (user_presence_sessions
       (runOps [(OpReaperTick 21 5000 (fun _ => 5001), []);
                (OpUpload (demoUpload 85 (Err ErrTransport)), [])] sessionWorld)) 0
  = Some (mkSession 1 2 3 900 (Some 950) 940).
Proof.
  split; [reflexivity|].
  destruct (@session_history_append_only
              [(OpReaperTick 21 5000 (fun _ => 5001), []);
               (OpUpload (demoUpload 85 (Err ErrTransport)), [])]
              sessionWorld 0%nat (mkSession 1 2 3 900 (Some 950) 940) eq_refl)
    as (s' & Hk & _ & _ & _ & _ & Hc).
  rewrite Hk. f_equal. apply Hc. discriminate.
Defined.

(** X2: an upload only ever touches the sessions of the uploading user:
    every row of another user is, at the same place, exactly what it was,
    and no row of another user appears. *)
Theorem upload_touches_only_its_user (up : Upload) (w : World) :
  let w' := snd (handleSignalsSubmit up w) in
  (forall k s, nth_error (user_presence_sessions w) k = Some s ->
               UserID s <> up_userID up ->
               nth_error (user_presence_sessions w') k = Some s) /\
  (forall k s, nth_error (user_presence_sessions w') k = Some s ->
               UserID s <> up_userID up ->
               nth_error (user_presence_sessions w) k = Some s).
Proof.
  change (only_touches (up_userID up) w (snd (handleSignalsSubmit up w))).
  apply (@lift_handleSignalsSubmit (only_touches (up_userID up))
           (fun u => u = up_userID up)); auto.
  - apply only_touches_same.
  - apply only_touches_trans.
  - intros u t w1 w2 ->. apply only_touches_sql_end.
  - intros u t w1 w2 ->. apply only_touches_sql_touch.
  - intros id u room t w1 w2 ->. apply only_touches_sql_insert.
Qed.

Lemma upload_touches_only_its_user_witness :
  nth_error
    (user_presence_sessions
       (snd (handleSignalsSubmit (demoUpload 15 (Err ErrTransport)) doubleOpenWorld))) 1
  = Some (mkSession 2 2 3 150 None 150).
Proof.
  apply (@upload_touches_only_its_user (demoUpload 15 (Err ErrTransport))
           doubleOpenWorld); [reflexivity|]. simpl. lia.
Defined.

(** ** More on the reaper *)

Lemma endUsers_reliable_length clock users k w :
  db_reliable w ->
  List.length (user_presence_sessions (snd (endUsers users k clock w)))
  = List.length (user_presence_sessions w) /\
  db_reliable (snd (endUsers users k clock w)).
Proof.
  revert k w. induction users as [|uid rest IH]; intros k w Hw; simpl.
  - split; [reflexivity|exact Hw].
  - rewrite bind_run, (endUserSession_reliable _ _ Hw). simpl.
    set (w1 := with_sessions (sql_end uid (clock k) (user_presence_sessions w)) w).
    destruct (IH (S k) w1 Hw) as [Hl Hr]. split; [|exact Hr].
    rewrite Hl. unfold w1. simpl. apply sql_end_length.
Qed.

(** X3: after a reaper tick that reaches the database, no stale session is
    left open: every session still open was seen at or after
    [now - inactivityThreshold]; the table has as many rows as before. *)
Theorem reaper_leaves_no_stale_session
    (w : World) (inactivityThreshold now : Z) (clock : nat -> Z) :
  db_reliable w ->
  let w' := snd (cleanUpTick inactivityThreshold now clock w) in
  (forall s, In s (user_presence_sessions w') -> EndTime s = None ->
             now - inactivityThreshold <= LastSeen s) /\
  List.length (user_presence_sessions w') = List.length (user_presence_sessions w).
Proof.
  intros Hw w'. subst w'. rewrite (cleanUpTick_reliable _ _ _ Hw).
  set (users := sql_stale_users (now - inactivityThreshold) (user_presence_sessions w)).
  destruct (@endUsers_reliable_length clock users 0%nat w Hw) as [Hlen _].
  split; [|exact Hlen].
  intros s Hin Hend.
  destruct (In_nth_error _ _ Hin) as [p Hp].
  assert (Hlt : (p < List.length (user_presence_sessions w))%nat).
  { rewrite <- Hlen. apply nth_error_Some. congruence. }
  destruct (nth_error (user_presence_sessions w) p) as [s0|] eqn:Hp0;
    [|apply nth_error_None in Hp0; lia].
  destruct (@endUsers_row clock users 0%nat w p s0 Hw Hp0) as [Hkeep Hclose].
  destruct (isOpen s0) eqn:Ho.
  - destruct (in_dec Z.eq_dec (UserID s0) users) as [Hu|Hu].
    + destruct (Hclose eq_refl Hu) as (j & _ & E). rewrite E in Hp.
      injection Hp as <-. discriminate.
    + rewrite (Hkeep (or_intror Hu)) in Hp. injection Hp as <-.
      destruct (Z.le_gt_cases (now - inactivityThreshold) (LastSeen s0)) as [Hc|Hc];
        [exact Hc|].
      exfalso. apply Hu. apply sql_stale_users_spec. exists s0.
      split; [eapply nth_error_In; eauto|].
      split; [reflexivity|]. split; [exact Hend|lia].
  - rewrite (Hkeep (or_introl eq_refl)) in Hp. injection Hp as <-.
    unfold isOpen in Ho. rewrite Hend in Ho. discriminate.
Qed.

Lemma reaper_leaves_no_stale_session_witness :
  db_reliable doubleOpenWorld /\
  forall s,
    In s (user_presence_sessions
            (snd (cleanUpTick 21 150 (fun _ => 151) doubleOpenWorld))) ->
    EndTime s = None -> 150 - 21 <= LastSeen s.
Proof.
  split; [reflexivity|].
  apply (@reaper_leaves_no_stale_session doubleOpenWorld 21 150 (fun _ => 151)
           eq_refl).
Defined.

(** X4: a tick whose query fails is skipped: the session table is left as
    it was and the loop goes on with the next tick exactly as if it had
    started there. *)
Theorem reaper_skips_failed_query
    (w : World) (rest : list bool) (inactivityThreshold now : Z)
    (clock : nat -> Z) (ticks : list (Z * (nat -> Z))) :
  db_script w = false :: rest ->
  cleanUpTick inactivityThreshold now clock w = (tt, with_db_script rest w) /\
  user_presence_sessions (snd (cleanUpTick inactivityThreshold now clock w))
  = user_presence_sessions w /\
  cleanUpOldSessions inactivityThreshold ((now, clock) :: ticks) w
  = cleanUpOldSessions inactivityThreshold ticks (with_db_script rest w).
Proof.
  intros Hs.
  assert (E : cleanUpTick inactivityThreshold now clock w = (tt, with_db_script rest w)).
  { unfold cleanUpTick, bind, db_roundtrip. rewrite Hs. reflexivity. }
  split; [exact E|]. split; [now rewrite E|].
  simpl. rewrite bind_run, E. reflexivity.
Qed.

Lemma reaper_skips_failed_query_witness :
  db_script failingWorld = [false] /\
  user_presence_sessions
    (snd (cleanUpOldSessions 21 [(5000, fun _ => 5001); (5060, fun _ => 5061)]
            failingWorld))
  = [mkSession 1 2 3 900 (Some 950) 940; mkSession 2 1 5 1000 (Some 5061) 1000].
Proof.
  split; [reflexivity|].
  destruct (@reaper_skips_failed_query failingWorld [] 21 5000 (fun _ => 5001)
              [(5060, fun _ => 5061)] eq_refl) as (_ & _ & E).
  rewrite E. reflexivity.
Defined.

(** ** What an upload stores *)

Section OutsideTheDatabase.

(** An observation of the world that no database statement can change. *)
Variable X : Type.
Variable obs : World -> X.
Hypothesis obs_script : forall s w, obs (with_db_script s w) = obs w.
Hypothesis obs_sessions : forall rows w, obs (with_sessions rows w) = obs w.
Hypothesis obs_next : forall n w, obs (with_next_session_id n w) = obs w.

Lemma outside_endUserSession u t : stable obs (endUserSession u t).
Proof.
  intros w. destruct (endUserSession_outcome u t w) as [s [E|E]]; rewrite E;
    simpl; now rewrite ?obs_script, ?obs_sessions.
Qed.

Lemma outside_updateLastSeen u t : stable obs (updateLastSeen u t).
Proof.
  intros w. destruct (updateLastSeen_outcome u t w) as [s [E|E]]; rewrite E;
    simpl; now rewrite ?obs_script, ?obs_sessions.
Qed.

Lemma outside_startUserSession u room t : stable obs (startUserSession u room t).
Proof.
  intros w. destruct (startUserSession_outcome u room t w) as [s [E|E]];
    rewrite E; simpl; now rewrite ?obs_script, ?obs_next, ?obs_sessions.
Qed.

Lemma outside_queryOpenRoom u : stable obs (queryOpenRoom u).
Proof.
  intros w. destruct (queryOpenRoom_outcome u w) as (s & -> & _).
  apply obs_script.
Qed.

Lemma outside_updateUserPresence u est inq t room :
  stable obs (updateUserPresence u est inq t room).
Proof.
  unfold updateUserPresence. destruct (inq >? est).
  - apply stable_bind; [apply outside_endUserSession|].
    intros [|]; intros; apply stable_ret.
  - apply stable_bind; [apply outside_queryOpenRoom|].
    intros [room0|[]]; try apply stable_ret.
    + apply stable_bind; [apply outside_updateLastSeen|].
      intros [|]; intros; apply stable_ret.
    + apply stable_bind; [apply outside_startUserSession|].
      intros [|]; intros; apply stable_ret.
Qed.

Lemma outside_determineRoomID ble wifi : stable obs (determineRoomID ble wifi).
Proof.
  intros w. destruct (determineRoomID_frame ble wifi w) as [s ->].
  apply obs_script.
Qed.

Lemma outside_presentBlock up est inq : stable obs (presentBlock up est inq).
Proof.
  unfold presentBlock. apply stable_bind; [apply outside_determineRoomID|].
  intros [room|e]; [|apply stable_ret].
  apply stable_bind; [apply outside_updateUserPresence|].
  intros _. apply stable_respond.
Qed.

Lemma outside_endBlock up : stable obs (endBlock up).
Proof.
  unfold endBlock. apply stable_bind; [apply outside_endUserSession|].
  intros _. apply stable_ret.
Qed.

End OutsideTheDatabase.

Lemma negativeSampleBlock_samples up w :
  negative_samples (snd (negativeSampleBlock up w)) =
  negative_samples w ++
  (if up_mkdir_ok up then
     if up_copy_wifi_ok up then
       NegativeWifi (up_unixTime up)
       :: (if up_copy_ble_ok up then [NegativeBle (up_unixTime up)] else [])
     else []
   else []).
Proof.
  unfold negativeSampleBlock, bind, copyFile.
  destruct (up_mkdir_ok up); [|simpl; now rewrite app_nil_r].
  destruct (up_copy_wifi_ok up); [|simpl; now rewrite app_nil_r].
  destruct (up_copy_ble_ok up).
  - rewrite respond_run. simpl. now rewrite <- app_assoc.
  - reflexivity.
Qed.

(** X5: negative samples are stored only when the arbiter contradicts a
    mid-confidence estimate.  Then the WiFi copy is stored first and the
    BLE copy second, whatever the session end did in the database, and a
    BLE copy that fails leaves the WiFi copy behind.  On every other path
    of the handler nothing is stored. *)
Theorem negative_sample_archive (up : Upload) (w : World) :
  let out := handleSignalsSubmit up w in
  (forall e, up_estimation up = Err e ->
             negative_samples (snd out) = negative_samples w) /\
  (forall est, up_estimation up = Ok est -> est < 20 \/ 70 < est ->
               negative_samples (snd out) = negative_samples w) /\
  (forall est e, up_estimation up = Ok est -> up_inquiry up = Err e ->
                 negative_samples (snd out) = negative_samples w) /\
  (forall est inq, up_estimation up = Ok est -> up_inquiry up = Ok inq ->
                   inq <= est ->
                   negative_samples (snd out) = negative_samples w) /\
  (forall est inq,
      up_estimation up = Ok est -> 20 <= est <= 70 ->
      up_inquiry up = Ok inq -> est < inq ->
      negative_samples (snd out) =
      negative_samples w ++
      (if up_mkdir_ok up then
         if up_copy_wifi_ok up then
           NegativeWifi (up_unixTime up)
           :: (if up_copy_ble_ok up then [NegativeBle (up_unixTime up)] else [])
         else []
       else [])).
Proof.
  intros out. subst out.
  assert (Hpresent : forall est inq w0,
            negative_samples (snd (presentBlock up est inq w0)) = negative_samples w0).
  { intros est inq w0. now apply (@outside_presentBlock _ negative_samples). }
  assert (Hend : forall w0,
            negative_samples (snd (endBlock up w0)) = negative_samples w0).
  { intros w0. now apply (@outside_endBlock _ negative_samples). }
  assert (Hout : forall est, up_estimation up = Ok est -> est < 20 \/ 70 < est ->
            negative_samples (snd (handleSignalsSubmit up w)) = negative_samples w).
  { intros est Hest Hr.
    destruct (handleSignalsSubmit_dispatch up w Hest) as (Hlow & _ & _ & Hhigh).
    destruct Hr as [Hr|Hr].
    - rewrite (Hlow Hr). simpl. rewrite bind_run, respond_run. simpl. apply Hend.
    - rewrite (Hhigh Hr). simpl. apply Hpresent. }
  split; [|split; [exact Hout|split; [|split]]].
  - intros e He. unfold handleSignalsSubmit. now rewrite He.
  - intros est e Hest He.
    destruct (Z.lt_ge_cases est 20) as [Hc|Hc]; [apply (Hout est); auto|].
    destruct (Z.le_gt_cases est 70) as [Hc'|Hc']; [|apply (Hout est); auto].
    destruct (handleSignalsSubmit_dispatch up w Hest) as (_ & _ & Hfail & _).
    now rewrite (Hfail (conj Hc Hc') e He).
  - intros est inq Hest Hinq Hi.
    destruct (Z.lt_ge_cases est 20) as [Hc|Hc]; [apply (Hout est); auto|].
    destruct (Z.le_gt_cases est 70) as [Hc'|Hc']; [|apply (Hout est); auto].
    destruct (handleSignalsSubmit_dispatch up w Hest) as (_ & Hmid & _ & _).
    destruct (Hmid (conj Hc Hc') inq Hinq) as [Hp _]. rewrite (Hp Hi). simpl.
    now rewrite Hpresent.
  - intros est inq Hest Hr Hinq Hi.
    destruct (handleSignalsSubmit_dispatch up w Hest) as (_ & Hmid & _ & _).
    destruct (Hmid Hr inq Hinq) as [_ Ha]. rewrite (Ha Hi). simpl.
    rewrite bind_run, negativeSampleBlock_samples, Hend. reflexivity.
Qed.

Lemma negative_sample_archive_witness :
  negative_samples
    (snd (handleSignalsSubmit
            (mkUpload 1 1000 77 (Ok [beaconA]) (Ok []) (Ok 45) (Ok 60)
                      true true false true)
            failingWorld))
  = [NegativeWifi 77].
Proof.
  destruct (@negative_sample_archive
              (mkUpload 1 1000 77 (Ok [beaconA]) (Ok []) (Ok 45) (Ok 60)
                        true true false true) failingWorld)
    as (_ & _ & _ & _ & H).
  apply (H 45 60); [reflexivity|lia|reflexivity|lia].
Defined.

(** ** Starting a session *)

Lemma determineRoomID_reliable_world ble wifi w :
  db_reliable w -> snd (determineRoomID ble wifi w) = w.
Proof.
  intros Hw. unfold determineRoomID.
  destruct ble as [bl|e]; [|reflexivity].
  destruct wifi as [wl|e]; [|reflexivity].
  destruct (_ && _)%bool; [reflexivity|].
  unfold bind.
  destruct (scanBeacons_reliable_frame bl Hw) as [r1 ->].
  destruct (scanWifi_reliable_frame wl Hw) as [r2 ->].
  destruct (negb (r1 =? 0)); [reflexivity|].
  destruct (negb (r2 =? 0)); reflexivity.
Qed.

(** The resolver does not read the arbiter counter. *)
Lemma getRoomIDByBeacon_inquiry n b w :
  getRoomIDByBeacon b (with_inquiry_calls n w) =
  (fst (getRoomIDByBeacon b w), with_inquiry_calls n (snd (getRoomIDByBeacon b w))).
Proof.
  unfold getRoomIDByBeacon, bind, db_roundtrip. simpl.
  destruct (db_script w) as [|[] rest]; simpl;
    try destruct (select_beacon_room _ _); reflexivity.
Qed.

Lemma getRoomIDByWifi_inquiry n a w :
  getRoomIDByWifi a (with_inquiry_calls n w) =
  (fst (getRoomIDByWifi a w), with_inquiry_calls n (snd (getRoomIDByWifi a w))).
Proof.
  unfold getRoomIDByWifi, bind, db_roundtrip. simpl.
  destruct (db_script w) as [|[] rest]; simpl;
    try destruct (select_wifi_room _ _); reflexivity.
Qed.

Lemma scanBeacons_inquiry n l w :
  scanBeacons l (with_inquiry_calls n w) =
  (fst (scanBeacons l w), with_inquiry_calls n (snd (scanBeacons l w))).
Proof.
  revert w. induction l as [|b l IH]; intros w; simpl; [reflexivity|].
  rewrite !bind_run, getRoomIDByBeacon_inquiry. cbn [fst snd].
  destruct (fst (getRoomIDByBeacon b w)); [reflexivity|apply IH].
Qed.

Lemma scanWifi_inquiry n l w :
  scanWifi l (with_inquiry_calls n w) =
  (fst (scanWifi l w), with_inquiry_calls n (snd (scanWifi l w))).
Proof.
  revert w. induction l as [|a l IH]; intros w; simpl; [reflexivity|].
  rewrite !bind_run, getRoomIDByWifi_inquiry. cbn [fst snd].
  destruct (fst (getRoomIDByWifi a w)); [reflexivity|apply IH].
Qed.

Lemma determineRoomID_inquiry n ble wifi w :
  fst (determineRoomID ble wifi (with_inquiry_calls n w))
  = fst (determineRoomID ble wifi w).
Proof.
  unfold determineRoomID.
  destruct ble as [bl|e]; [|reflexivity].
  destruct wifi as [wl|e]; [|reflexivity].
  destruct (_ && _)%bool; [reflexivity|].
  rewrite !bind_run, scanBeacons_inquiry. cbn [fst snd].
  rewrite scanWifi_inquiry. cbn [fst snd].
  destruct (negb (fst (scanBeacons bl w) =? 0)); [reflexivity|].
  destruct (negb (fst (scanWifi wl (snd (scanBeacons bl w))) =? 0)); reflexivity.
Qed.

Lemma presentBlock_starts up est inq w roomID :
  db_reliable w ->
  inq <= est ->
  fst (determineRoomID (up_ble up) (up_wifi up) w) = Ok roomID ->
  openCount (up_userID up) (user_presence_sessions w) = 0%nat ->
  presentBlock up est inq w =
  (if up_encode_ok up then UploadAccepted
   else UploadFailed StatusInternalServerError StEncode,
   with_next_session_id (next_session_id w + 1)
     (with_sessions
        (user_presence_sessions w ++
         [mkSession (next_session_id w) (up_userID up) roomID
                    (up_currentTime up) None (up_currentTime up)]) w)).
Proof.
  intros Hw Hi Hroom Hnone.
  destruct (presentBlock_cases up est inq w) as [(e & He & _)|(room & Hr & E)].
  - rewrite Hroom in He. discriminate.
  - rewrite Hroom in Hr. injection Hr as <-. rewrite E.
    rewrite (determineRoomID_reliable_world _ _ Hw). f_equal.
    unfold updateUserPresence. rewrite Z.gtb_ltb.
    destruct (Z.ltb_spec est inq); [lia|].
    rewrite bind_run, (queryOpenRoom_reliable _ Hw).
    assert (Hq : sql_open_room (up_userID up) (user_presence_sessions w) = None).
    { unfold sql_open_room.
      destruct (find (openFor (up_userID up)) (user_presence_sessions w)) as [s|] eqn:F;
        [|reflexivity].
      apply find_some in F. destruct F as [Hin Ho].
      unfold openCount in Hnone.
      assert (Hf : In s (filter (openFor (up_userID up)) (user_presence_sessions w)))
        by (apply filter_In; auto).
      destruct (filter (openFor (up_userID up)) (user_presence_sessions w));
        [destruct Hf|discriminate]. }
    rewrite Hq. cbn [fst snd].
    rewrite bind_run, (startUserSession_reliable _ _ _ Hw). reflexivity.
Qed.

(** X6: a Present upload (estimate above 70, or between 20 and 70 and not
    below the arbiter's answer) for a user with no open session, whose
    room resolves, with the database answering, appends exactly one row:
    a session of that user in the resolved room, with [start_time] and
    [last_seen] at the upload's time and [end_time] unset; the reply is
    the success reply. *)
Theorem present_upload_starts_session
    (up : Upload) (w : World) (est roomID : Z) :
  db_reliable w ->
  up_estimation up = Ok est ->
  (70 < est \/
   (20 <= est <= 70 /\ exists inq, up_inquiry up = Ok inq /\ inq <= est)) ->
  fst (determineRoomID (up_ble up) (up_wifi up) w) = Ok roomID ->
  openCount (up_userID up) (user_presence_sessions w) = 0%nat ->
  let out := handleSignalsSubmit up w in
  user_presence_sessions (snd out) =
    user_presence_sessions w ++
    [mkSession (next_session_id w) (up_userID up) roomID
               (up_currentTime up) None (up_currentTime up)] /\
  openCount (up_userID up) (user_presence_sessions (snd out)) = 1%nat /\
  fst out = (if up_encode_ok up then UploadAccepted
             else UploadFailed StatusInternalServerError StEncode).
Proof.
  intros Hw Hest Hcase Hroom Hnone out. subst out.
  assert (E : exists w0,
             handleSignalsSubmit up w =
             (if up_encode_ok up then UploadAccepted
              else UploadFailed StatusInternalServerError StEncode,
              with_next_session_id (next_session_id w + 1)
                (with_sessions
                   (user_presence_sessions w ++
                    [mkSession (next_session_id w) (up_userID up) roomID
                               (up_currentTime up) None (up_currentTime up)]) w0))).
  { destruct (handleSignalsSubmit_dispatch up w Hest) as (_ & Hmid & _ & Hhigh).
    destruct Hcase as [Hc|(Hc & inq & Hinq & Hi)].
    - exists w. rewrite (Hhigh Hc). simpl.
      apply presentBlock_starts; auto. lia.
    - exists (afterInquiry w). destruct (Hmid Hc inq Hinq) as [Hp _].
      rewrite (Hp Hi). simpl.
      apply (@presentBlock_starts up est inq (afterInquiry w) roomID); auto.
      unfold afterInquiry. now rewrite determineRoomID_inquiry. }
  destruct E as [w0 ->]. cbn [fst snd user_presence_sessions with_next_session_id
                              with_sessions].
  split; [reflexivity|]. split; [|reflexivity].
  unfold openCount in *. rewrite filter_app, length_app, Hnone. simpl.
  unfold openFor, isOpen. simpl. now rewrite Z.eqb_refl.
Qed.

Lemma present_upload_starts_session_witness :
  user_presence_sessions
    (snd (handleSignalsSubmit (demoUpload 45 (Ok 45)) demoWorld))
  = [mkSession 1 1 5 1000 None 1000].
Proof.
  apply (@present_upload_starts_session (demoUpload 45 (Ok 45)) demoWorld 45 5).
  - reflexivity.
  - reflexivity.
  - right. split; [lia|]. exists 45. split; [reflexivity|lia].
  - reflexivity.
  - reflexivity.
Defined.

(** * Log sanitising *)

Example demo_sanitize_short :
  sanitizeString ("  GET   /api" ++ String "010" (String "013" "x ") ++ String "009" "")
  = "GET /api x"%string.
Proof. reflexivity. Qed.

Example demo_omittedMark_length : String.length omittedMark = 11%nat.
Proof. reflexivity. Qed.

Example demo_sanitize_long :
  String.length (sanitizeString (repeatByte "010" 1001)) = 1011%nat /\
  get 0 (sanitizeString (repeatByte "010" 1001)) = Some "010"%char.
Proof. vm_compute. split; reflexivity. Qed.

Lemma Join_cons_char c w ws :
  Join (String c w :: ws) " " = String c (Join (w :: ws) " ").
Proof. unfold Join. simpl. now destruct ws. Qed.

Lemma Join_single_then c v vs :
  Join (String c EmptyString :: v :: vs) " "
  = String c (String " " (Join (v :: vs) " ")).
Proof. reflexivity. Qed.

(** The cleaned text, one byte at a time. *)
Lemma Join_Fields_step c rest :
  isAsciiSpace c = false ->
  Join (Fields (String c rest)) " " =
  String c
    (match rest with
     | EmptyString => EmptyString
     | String c' _ =>
         if isAsciiSpace c' then
           match Fields rest with
           | [] => EmptyString
           | _ :: _ => String " " (Join (Fields rest) " ")
           end
         else Join (Fields rest) " "
     end).
Proof.
  intros Hc. cbn [Fields]. rewrite Hc.
  destruct rest as [|c' r']; [reflexivity|].
  destruct (isAsciiSpace c') eqn:Hc'.
  - destruct (Fields (String c' r')) as [|v vs]; reflexivity.
  - destruct (Fields (String c' r')) as [|v vs] eqn:F.
    + exfalso. cbn [Fields] in F. rewrite Hc' in F.
      destruct r' as [|c2 r2]; [discriminate|].
      destruct (isAsciiSpace c2); [discriminate|].
      destruct (Fields (String c2 r2)); discriminate.
    + apply Join_cons_char.
Qed.

Lemma Join_Fields_space c rest :
  isAsciiSpace c = true ->
  Join (Fields (String c rest)) " " = Join (Fields rest) " ".
Proof. intros Hc. cbn [Fields]. now rewrite Hc. Qed.

Lemma Fields_words s : Forall isWord (Fields s).
Proof.
  induction s as [|c rest IH]; [constructor|].
  cbn [Fields]. destruct (isAsciiSpace c) eqn:Hc; [exact IH|].
  assert (Hone : isWord (String c EmptyString)).
  { split; [discriminate|]. intros x [<-|[]]. exact Hc. }
  destruct rest as [|c' r']; [now constructor|].
  destruct (isAsciiSpace c'); [now constructor|].
  destruct (Fields (String c' r')) as [|w ws]; [now constructor|].
  inversion IH as [|? ? [Hne Hw] Hws]; subst. constructor; [|exact Hws].
  split; [discriminate|]. intros x [<-|Hx]; [exact Hc|now apply Hw].
Qed.

Lemma Fields_of_word w : isWord w -> Fields w = [w].
Proof.
  intros [Hne Hw]. induction w as [|c w' IH]; [congruence|].
  assert (Hc : isAsciiSpace c = false) by (apply Hw; now left).
  cbn [Fields]. rewrite Hc.
  destruct w' as [|c2 w2]; [reflexivity|].
  assert (Hc2 : isAsciiSpace c2 = false) by (apply Hw; right; now left).
  rewrite Hc2, IH; [reflexivity|discriminate|].
  intros x Hx. apply Hw. now right.
Qed.

Lemma Fields_word_blank w r :
  isWord w -> Fields (w ++ String " " r)%string = w :: Fields r.
Proof.
  intros [Hne Hw]. induction w as [|c w' IH]; [congruence|].
  assert (Hc : isAsciiSpace c = false) by (apply Hw; now left).
  cbn [append Fields]. rewrite Hc.
  destruct w' as [|c2 w2]; [reflexivity|].
  assert (Hc2 : isAsciiSpace c2 = false) by (apply Hw; right; now left).
  cbn [append]. rewrite Hc2.
  cbn [append] in IH. rewrite IH; [reflexivity|discriminate|].
  intros x Hx. apply Hw. now right.
Qed.

Lemma Fields_Join ws : Forall isWord ws -> Fields (Join ws " ") = ws.
Proof.
  induction ws as [|w ws IH]; intros H; [reflexivity|].
  inversion H as [|? ? Hw Hws]; subst.
  destruct ws as [|v vs].
  - apply Fields_of_word, Hw.
  - change (Join (w :: v :: vs) " ")
      with (w ++ String " " (Join (v :: vs) " "))%string.
    rewrite (@Fields_word_blank w _ Hw), IH; auto.
Qed.

Lemma Join_Fields_nonempty s :
  Fields s <> [] -> Join (Fields s) " " <> EmptyString.
Proof.
  intros Hne. pose proof (Fields_words s) as Hw.
  destruct (Fields s) as [|w ws]; [congruence|].
  inversion Hw as [|? ? [Hw0 _] _]; subst.
  destruct w as [|c w']; [congruence|].
  rewrite Join_cons_char. discriminate.
Qed.

Lemma Join_Fields_length_strong s :
  (String.length (Join (Fields s) " ") <= String.length s)%nat /\
  (forall c rest, s = String c rest -> isAsciiSpace c = true ->
     (String.length (Join (Fields s) " ") < String.length s)%nat).
Proof.
  induction s as [|c rest [IH1 IH2]]; [split; [simpl; lia|discriminate]|].
  destruct (isAsciiSpace c) eqn:Hc.
  - rewrite (@Join_Fields_space c rest Hc). cbn [String.length].
    split; [lia|]. intros; lia.
  - split; [|intros c0 r0 [= <- <-] H0; congruence].
    rewrite (@Join_Fields_step c rest Hc).
    destruct rest as [|c' r']; [simpl; lia|].
    destruct (isAsciiSpace c') eqn:Hc'.
    + specialize (IH2 c' r' eq_refl Hc').
      destruct (Fields (String c' r')) as [|v vs]; cbn [String.length] in *; lia.
    + cbn [String.length] in *. lia.
Qed.

Lemma Join_Fields_length s :
  (String.length (Join (Fields s) " ") <= String.length s)%nat.
Proof. apply Join_Fields_length_strong. Qed.

Lemma Join_Fields_text s :
  filter (fun c => negb (isAsciiSpace c))
         (list_ascii_of_string (Join (Fields s) " "))
  = filter (fun c => negb (isAsciiSpace c)) (list_ascii_of_string s).
Proof.
  induction s as [|c rest IH]; [reflexivity|].
  destruct (isAsciiSpace c) eqn:Hc.
  - rewrite (@Join_Fields_space c rest Hc). simpl. now rewrite Hc.
  - rewrite (@Join_Fields_step c rest Hc). simpl. rewrite Hc. simpl. f_equal.
    destruct rest as [|c' r']; [reflexivity|].
    destruct (isAsciiSpace c') eqn:Hc'.
    + destruct (Fields (String c' r')) as [|v vs] eqn:F.
      * rewrite <- IH. reflexivity.
      * rewrite <- IH. reflexivity.
    + exact IH.
Qed.

Lemma Join_Fields_tidy s :
  Join (Fields s) " " = EmptyString \/ tidyFrom true (Join (Fields s) " ") = true.
Proof.
  induction s as [|c rest IH]; [now left|].
  destruct (isAsciiSpace c) eqn:Hc.
  - now rewrite (@Join_Fields_space c rest Hc).
  - right. rewrite (@Join_Fields_step c rest Hc). cbn [tidyFrom]. rewrite Hc.
    destruct rest as [|c' r']; [reflexivity|].
    destruct (isAsciiSpace c') eqn:Hc'.
    + destruct (Fields (String c' r')) as [|v vs] eqn:F; [reflexivity|].
      cbn [tidyFrom]. simpl.
      destruct IH as [IH|IH]; [|exact IH].
      exfalso. revert IH. rewrite <- F. apply Join_Fields_nonempty.
      rewrite F. discriminate.
    + destruct IH as [IH|IH].
      * rewrite IH. reflexivity.
      * rewrite (@Join_Fields_step c' r' Hc') in *. cbn [tidyFrom] in *.
        now rewrite Hc' in *.
Qed.

Lemma tidyFrom_spec s :
  forall p a c b,
    tidyFrom p s = true ->
    s = (a ++ String c b)%string ->
    isAsciiSpace c = true ->
    c = " "%char /\
    (a = EmptyString -> p = false) /\
    (forall a' x, a = (a' ++ String x EmptyString)%string -> isAsciiSpace x = false) /\
    exists y b', b = String y b' /\ isAsciiSpace y = false.
Proof.
  induction s as [|c0 r IH]; intros p a c b Ht Hs Hc.
  - destruct a; discriminate.
  - destruct a as [|a0 a1]; cbn [append] in Hs; injection Hs as E0 Er.
    + subst c0 r. cbn [tidyFrom] in Ht. rewrite Hc in Ht.
      apply andb_prop in Ht. destruct Ht as [Ht Hb].
      apply andb_prop in Ht. destruct Ht as [Heq Hp].
      split; [now apply Ascii.eqb_eq|].
      split; [intros _; now destruct p|].
      split; [intros a' x Ha; destruct a'; discriminate|].
      destruct b as [|y b']; [discriminate|].
      exists y, b'. split; [reflexivity|].
      cbn [tidyFrom] in Hb. destruct (isAsciiSpace y); [|reflexivity].
      rewrite andb_false_r in Hb. discriminate.
    + subst c0. cbn [tidyFrom] in Ht.
      assert (Hrest : tidyFrom (isAsciiSpace a0) r = true).
      { destruct (isAsciiSpace a0); [|exact Ht].
        apply andb_prop in Ht. tauto. }
      destruct (IH (isAsciiSpace a0) a1 c b Hrest Er Hc) as (Hcc & Hfirst & Hlast & Hb).
      split; [exact Hcc|]. split; [discriminate|]. split; [|exact Hb].
      intros a' x Ha. destruct a' as [|a2 a3]; cbn [append] in Ha.
      * injection Ha as -> ->. now apply Hfirst.
      * injection Ha as _ Ha. now apply (Hlast a3 x).
Qed.

Lemma ReplaceAllByte_length s old new :
  String.length (ReplaceAllByte s old new) = String.length s.
Proof.
  unfold ReplaceAllByte. induction s as [|c r IH]; simpl; [reflexivity|].
  now rewrite IH.
Qed.

Lemma ReplaceAllByte_absent s old new :
  ~ In old (list_ascii_of_string s) -> ReplaceAllByte s old new = s.
Proof.
  unfold ReplaceAllByte. induction s as [|c r IH]; simpl; [reflexivity|].
  intros H. destruct (Ascii.eqb_spec c old) as [->|_].
  - exfalso. apply H. now left.
  - rewrite IH; [reflexivity|]. intros Hin. apply H. now right.
Qed.

Lemma ReplaceAllByte_text s old new :
  isAsciiSpace old = true -> isAsciiSpace new = true ->
  filter (fun c => negb (isAsciiSpace c))
         (list_ascii_of_string (ReplaceAllByte s old new))
  = filter (fun c => negb (isAsciiSpace c)) (list_ascii_of_string s).
Proof.
  intros Ho Hn. unfold ReplaceAllByte.
  induction s as [|c r IH]; simpl; [reflexivity|].
  destruct (Ascii.eqb_spec c old) as [->|_].
  - now rewrite Hn, Ho.
  - now rewrite IH.
Qed.

(** Every white-space byte of a cleaned text is a blank. *)
Lemma Join_Fields_blank s c :
  In c (list_ascii_of_string (Join (Fields s) " ")) ->
  isAsciiSpace c = true -> c = " "%char.
Proof.
  intros Hin Hc.
  destruct (in_split _ _ Hin) as (l1 & l2 & E).
  assert (Es : Join (Fields s) " "
               = (string_of_list_ascii l1 ++ String c (string_of_list_ascii l2))%string).
  { rewrite <- (string_of_list_ascii_of_string (Join (Fields s) " ")), E.
    clear. induction l1 as [|x l1 IH]; simpl; [reflexivity|]. now rewrite IH. }
  destruct (Join_Fields_tidy s) as [H0|Ht].
  - rewrite H0 in Es. destruct (string_of_list_ascii l1); discriminate.
  - now destruct (tidyFrom_spec _ _ _ _ Ht Es Hc).
Qed.

(** The text the short branch of [sanitizeString] joins. *)
Lemma sanitizeString_short s :
  (String.length s <= maxLength)%nat ->
  sanitizeString s =
  Join (Fields (ReplaceAllByte (ReplaceAllByte s "010" " ") "013" " ")) " ".
Proof.
  intros H. unfold sanitizeString.
  destruct (Nat.ltb_spec maxLength (String.length s)); [lia|reflexivity].
Qed.

(** X7: for a text of at most 1000 ASCII bytes, [sanitizeString] keeps
    the bytes that are not white space, in their order, and leaves white
    space only as single blanks between them: no tab, line feed or
    carriage return, no blank at either end, no two blanks in a row.  The
    result is never longer than the input. *)
Theorem sanitizeString_cleans (s : string) :
  ascii_only s ->
  (String.length s <= maxLength)%nat ->
  let o := sanitizeString s in
  (forall a c b,
      o = (a ++ String c b)%string -> isAsciiSpace c = true ->
      c = " "%char /\
      a <> EmptyString /\
      (forall a' x, a = (a' ++ String x EmptyString)%string ->
                    isAsciiSpace x = false) /\
      exists y b', b = String y b' /\ isAsciiSpace y = false) /\
  filter (fun c => negb (isAsciiSpace c)) (list_ascii_of_string o)
  = filter (fun c => negb (isAsciiSpace c)) (list_ascii_of_string s) /\
  (String.length o <= String.length s)%nat.
Proof.
  intros _ Hlen o. subst o. rewrite (sanitizeString_short s Hlen).
  set (s2 := ReplaceAllByte (ReplaceAllByte s "010" " ") "013" " ").
  split; [|split].
  - intros a c b Ho Hc.
    destruct (Join_Fields_tidy s2) as [H0|Ht].
    + rewrite H0 in Ho. destruct a; discriminate.
    + destruct (tidyFrom_spec _ _ _ _ Ht Ho Hc) as (Hcc & Hfirst & Hlast & Hb).
      split; [exact Hcc|]. split; [|split; [exact Hlast|exact Hb]].
      intros Ha. specialize (Hfirst Ha). discriminate.
  - rewrite Join_Fields_text. unfold s2.
    rewrite !ReplaceAllByte_text; reflexivity.
  - pose proof (Join_Fields_length s2) as H. unfold s2 in H.
    rewrite !ReplaceAllByte_length in H. exact H.
Qed.

Lemma sanitizeString_cleans_witness :
  filter (fun c => negb (isAsciiSpace c))
         (list_ascii_of_string (sanitizeString (String "010" " a  b ")))
  = ["a"%char; "b"%char].
Proof.
  assert (Ha : ascii_only (String "010" " a  b ")).
  { intros c Hc. simpl in Hc.
    repeat (destruct Hc as [<-|Hc]; [apply Nat.ltb_lt; reflexivity|]). destruct Hc. }
  assert (Hl : (String.length (String "010" " a  b ") <= maxLength)%nat)
    by (unfold maxLength; simpl; lia).
  destruct (@sanitizeString_cleans (String "010" " a  b ") Ha Hl) as (_ & Ht & _).
  exact Ht.
Defined.

Lemma substring_prefix a b :
  substring 0 (String.length a) (a ++ b)%string = a.
Proof.
  induction a as [|c a IH]; simpl.
  - now destruct b.
  - now rewrite IH.
Qed.

Lemma substring_length n s :
  (n <= String.length s)%nat -> String.length (substring 0 n s) = n.
Proof.
  revert s. induction n as [|n IH]; intros s H.
  - now destruct s.
  - destruct s as [|c s]; simpl in *; [lia|]. rewrite IH; [reflexivity|lia].
Qed.

Lemma string_length_app a b :
  String.length (a ++ b)%string = (String.length a + String.length b)%nat.
Proof. induction a as [|c a IH]; simpl; [reflexivity|now rewrite IH]. Qed.

(** X8: sanitising a sanitised text changes nothing, on either branch. *)
Theorem sanitizeString_idempotent (s : string) :
  ascii_only s ->
  sanitizeString (sanitizeString s) = sanitizeString s.
Proof.
  intros _.
  destruct (Nat.le_gt_cases (String.length s) maxLength) as [Hlen|Hlen].
  - rewrite (sanitizeString_short s Hlen).
    set (s2 := ReplaceAllByte (ReplaceAllByte s "010" " ") "013" " ").
    assert (Hl2 : (String.length (Join (Fields s2) " ") <= maxLength)%nat).
    { pose proof (Join_Fields_length s2) as H.
      assert (E2 : String.length s2 = String.length s)
        by (unfold s2; now rewrite !ReplaceAllByte_length).
      lia. }
    rewrite (sanitizeString_short _ Hl2).
    rewrite (@ReplaceAllByte_absent (Join (Fields s2) " ") "010" " ").
    + rewrite (@ReplaceAllByte_absent (Join (Fields s2) " ") "013" " ").
      * now rewrite Fields_Join by apply Fields_words.
      * intros Hin. apply Join_Fields_blank in Hin; [discriminate|reflexivity].
    + intros Hin. apply Join_Fields_blank in Hin; [discriminate|reflexivity].
  - unfold sanitizeString at 2 3.
    destruct (Nat.ltb_spec maxLength (String.length s)); [|lia].
    assert (Hsub : String.length (substring 0 maxLength s) = maxLength)
      by (apply substring_length; lia).
    unfold sanitizeString.
    rewrite string_length_app, Hsub.
    assert (Hm : String.length omittedMark = 11%nat) by reflexivity.
    destruct (Nat.ltb_spec maxLength (maxLength + String.length omittedMark));
      [|lia].
    f_equal. rewrite <- Hsub at 1. apply substring_prefix.
Qed.

Lemma sanitizeString_idempotent_witness :
  sanitizeString (sanitizeString (String "009" "a  b"))
  = sanitizeString (String "009" "a  b").
Proof.
  apply sanitizeString_idempotent.
  intros c Hc. simpl in Hc.
  repeat (destruct Hc as [<-|Hc]; [apply Nat.ltb_lt; reflexivity|]). destruct Hc.
Defined.

(** X9: a text longer than 1000 bytes is cut, not cleaned: the result is
    its first 1000 bytes, white space and line breaks included, followed
    by the 11-byte mark, 1011 bytes in all. *)
Theorem sanitizeString_cuts_long_text (s : string) :
  (maxLength < String.length s)%nat ->
  String.length (sanitizeString s) = 1011%nat /\
  (forall i, (i < maxLength)%nat -> get i (sanitizeString s) = get i s) /\
  substring maxLength 11 (sanitizeString s) = omittedMark.
Proof.
  intros Hlen. unfold sanitizeString.
  destruct (Nat.ltb_spec maxLength (String.length s)); [|lia].
  assert (Hsub : String.length (substring 0 maxLength s) = maxLength)
    by (apply substring_length; lia).
  split; [|split].
  - rewrite string_length_app, Hsub. reflexivity.
  - intros i Hi. rewrite <- append_correct1 by (rewrite Hsub; exact Hi).
    rewrite (substring_correct1 s 0 maxLength i Hi). f_equal. lia.
  - generalize (substring 0 maxLength s) Hsub. intros pre Hpre.
    rewrite <- Hpre. clear.
    induction pre as [|c pre IH]; [reflexivity|exact IH].
Qed.

Lemma sanitizeString_cuts_long_text_witness :
  get 3 (sanitizeString (repeatByte "010" 1001)) = Some "010"%char.
Proof.
  destruct (@sanitizeString_cuts_long_text (repeatByte "010" 1001)) as (_ & Hget & _).
  - vm_compute. lia.
  - rewrite Hget; [reflexivity|unfold maxLength; lia].
Defined.

(** * Presence history *)

Example demo_user_history :
  fst (handleUserPresenceHistory
         (fun t => if t <? 1000 then "2024-01-01"%string else "2024-01-02"%string)
         (@rev _) None 0 1 true
         (with_sessions
            [mkSession 1 1 5 1500 None 1600; mkSession 2 2 3 150 None 150;
             mkSession 3 1 7 200 (Some 300) 250; mkSession 4 1 7 1200 (Some 1300) 1250]
            demoWorld))
  = HistoryOK
      (1, [mkUserPresenceDay "2024-01-01" [mkSession 3 1 7 200 (Some 300) 250];
           mkUserPresenceDay "2024-01-02"
             [mkSession 4 1 7 1200 (Some 1300) 1250; mkSession 1 1 5 1500 None 1600]]).
Proof. reflexivity. Qed.

Lemma insertByStartTime_perm s l : Permutation (insertByStartTime s l) (s :: l).
Proof.
  induction l as [|x l IH]; simpl; [reflexivity|].
  destruct (StartTime s <=? StartTime x); [reflexivity|].
  rewrite IH. apply perm_swap.
Qed.

Lemma orderByStartTime_perm l : Permutation (orderByStartTime l) l.
Proof.
  induction l as [|s l IH]; simpl; [reflexivity|].
  rewrite insertByStartTime_perm. now constructor.
Qed.

Lemma insertByStartTime_sorted s l :
  StronglySorted byStartTime l -> StronglySorted byStartTime (insertByStartTime s l).
Proof.
  induction l as [|x l IH]; intros H; simpl.
  - constructor; constructor.
  - apply StronglySorted_inv in H. destruct H as [Hl Hx].
    destruct (Z.leb_spec (StartTime s) (StartTime x)) as [Hle|Hgt].
    + constructor; [now constructor|].
      constructor; [exact Hle|].
      eapply Forall_impl; [|exact Hx]. unfold byStartTime. intros a Ha. lia.
    + constructor; [now apply IH|].
      assert (Hp : Forall (byStartTime x) (s :: l)).
      { constructor; [unfold byStartTime; lia|exact Hx]. }
      rewrite Forall_forall in *. intros a Ha. apply Hp.
      eapply Permutation_in; [apply insertByStartTime_perm|exact Ha].
Qed.

Lemma orderByStartTime_sorted l : StronglySorted byStartTime (orderByStartTime l).
Proof.
  induction l as [|s l IH]; simpl; [constructor|].
  now apply insertByStartTime_sorted.
Qed.

Lemma fetchUserSessions_reliable u since w :
  db_reliable w ->
  fetchUserSessions u since w =
  (Ok (orderByStartTime
         (filter (fun s => (UserID s =? u) && (StartTime s >=? since))
                 (user_presence_sessions w))), w).
Proof.
  intros Hw. unfold fetchUserSessions.
  rewrite bind_run, (db_roundtrip_reliable Hw). cbn [fst snd].
  rewrite bind_run, (db_roundtrip_reliable Hw). reflexivity.
Qed.

Lemma fetchAllSessions_reliable since w :
  db_reliable w ->
  fetchAllSessions since w =
  (Ok (orderByStartTime
         (filter (fun s => StartTime s >=? since) (user_presence_sessions w))), w).
Proof.
  intros Hw. unfold fetchAllSessions.
  rewrite bind_run, (db_roundtrip_reliable Hw). cbn [fst snd].
  rewrite bind_run, (db_roundtrip_reliable Hw). reflexivity.
Qed.

(** X10: with the database answering, [fetchUserSessions] returns exactly
    the rows of the user that started at or after [since], open and closed
    alike, each as often as it is in the table, ordered by start time;
    [fetchAllSessions] does the same for all users.  Neither changes the
    store. *)
Theorem fetch_sessions_correct (w : World) (userID since : Z) :
  db_reliable w ->
  exists mine everyone,
    fetchUserSessions userID since w = (Ok mine, w) /\
    fetchAllSessions since w = (Ok everyone, w) /\
    (forall s, In s mine <->
               In s (user_presence_sessions w) /\ UserID s = userID /\
               since <= StartTime s) /\
    (forall s, In s everyone <->
               In s (user_presence_sessions w) /\ since <= StartTime s) /\
    Permutation mine
      (filter (fun s => (UserID s =? userID) && (StartTime s >=? since))
              (user_presence_sessions w)) /\
    Permutation everyone
      (filter (fun s => StartTime s >=? since) (user_presence_sessions w)) /\
    StronglySorted byStartTime mine /\
    StronglySorted byStartTime everyone.
Proof.
  intros Hw. eexists. eexists.
  split; [apply (fetchUserSessions_reliable _ _ Hw)|].
  split; [apply (fetchAllSessions_reliable _ Hw)|].
  split; [|split; [|split; [|split; [|split]]]].
  - intros s. split.
    + intros Hin. apply (Permutation_in _ (orderByStartTime_perm _)) in Hin.
      apply filter_In in Hin. destruct Hin as [Hin Hb].
      apply andb_prop in Hb. destruct Hb as [Hu Hs].
      apply Z.eqb_eq in Hu. rewrite Z.geb_leb in Hs. apply Z.leb_le in Hs. tauto.
    + intros (Hin & Hu & Hs).
      apply (Permutation_in _ (Permutation_sym (orderByStartTime_perm _))).
      apply filter_In. split; [exact Hin|].
      rewrite Hu, Z.eqb_refl, Z.geb_leb. simpl. now apply Z.leb_le.
  - intros s. split.
    + intros Hin. apply (Permutation_in _ (orderByStartTime_perm _)) in Hin.
      apply filter_In in Hin. destruct Hin as [Hin Hs].
      rewrite Z.geb_leb in Hs. apply Z.leb_le in Hs. tauto.
    + intros (Hin & Hs).
      apply (Permutation_in _ (Permutation_sym (orderByStartTime_perm _))).
      apply filter_In. split; [exact Hin|].
      rewrite Z.geb_leb. now apply Z.leb_le.
  - apply orderByStartTime_perm.
  - apply orderByStartTime_perm.
  - apply orderByStartTime_sorted.
  - apply orderByStartTime_sorted.
Qed.

Lemma fetch_sessions_correct_witness :
  db_reliable doubleOpenWorld /\
  fst (fetchUserSessions 1 150 doubleOpenWorld) = Ok [mkSession 3 1 7 200 None 2000].
Proof.
  split; [reflexivity|].
  destruct (@fetch_sessions_correct doubleOpenWorld 1 150 eq_refl)
    as (mine & everyone & Hm & _).
  rewrite Hm. apply (f_equal fst) in Hm. simpl in Hm. simpl.
  rewrite <- Hm. reflexivity.
Defined.

Lemma fetch_sessions_failure_frame w userID since :
  exists s, snd (fetchUserSessions userID since w) = with_db_script s w.
Proof.
  unfold fetchUserSessions, bind, db_roundtrip, ret.
  destruct (db_script w) as [|b r] eqn:E.
  - exists []. simpl. rewrite E. simpl. now rewrite <- E, with_db_script_same.
  - destruct b; [|now exists r].
    simpl. destruct r as [|b2 r2].
    + now exists [].
    + exists r2. now destruct b2.
Qed.

(** X11: a history fetch whose query fails, or whose rows cannot be read
    to the end, returns the error and no sessions; in every case the
    fetch leaves sessions, counters and samples as they were. *)
Theorem fetch_sessions_failure (w : World) (userID since : Z) (rest : list bool) :
  (db_script w = false :: rest ->
   fetchUserSessions userID since w = (Err ErrDriver, with_db_script rest w) /\
   fetchAllSessions since w = (Err ErrDriver, with_db_script rest w)) /\
  (db_script w = true :: false :: rest ->
   fetchUserSessions userID since w = (Err ErrDriver, with_db_script rest w) /\
   fetchAllSessions since w = (Err ErrDriver, with_db_script rest w)) /\
  (exists s1 s2,
     snd (fetchUserSessions userID since w) = with_db_script s1 w /\
     snd (fetchAllSessions since w) = with_db_script s2 w).
Proof.
  unfold fetchUserSessions, fetchAllSessions, bind, db_roundtrip, ret.
  split; [|split].
  - intros ->. split; reflexivity.
  - intros ->. simpl. split; reflexivity.
  - destruct (db_script w) as [|b r] eqn:E.
    + exists [], []. simpl. rewrite E. simpl.
      rewrite <- E, with_db_script_same. split; reflexivity.
    + destruct b; [|exists r, r; split; reflexivity].
      simpl. destruct r as [|b2 r2].
      * exists [], []. split; reflexivity.
      * exists r2, r2. destruct b2; split; reflexivity.
Qed.

Lemma fetch_sessions_failure_witness :
  db_script failingWorld = [false] /\
  fst (fetchUserSessions 1 0 failingWorld) = Err ErrDriver.
Proof.
  split; [reflexivity|].
  destruct (@fetch_sessions_failure failingWorld 1 0 []) as (H & _).
  destruct (H eq_refl) as [-> _]. reflexivity.
Defined.

(** ** Go maps of slices *)

Section MapOfSlices.

Variables K V : Type.
Variable eqb : K -> K -> bool.
Hypothesis eqb_spec : forall a b, reflect (a = b) (eqb a b).

Lemma mapGet_mapAppend k' k (v : V) m :
  mapGet eqb k' (mapAppend eqb k v m) =
  if eqb k' k then mapGet eqb k' m ++ [v] else mapGet eqb k' m.
Proof.
  induction m as [|[k0 vs] r IH]; simpl.
  - destruct (eqb_spec k k'), (eqb_spec k' k); congruence.
  - destruct (eqb_spec k0 k) as [->|Hk0]; simpl.
    + destruct (eqb_spec k k'), (eqb_spec k' k); congruence.
    + rewrite IH.
      destruct (eqb_spec k0 k'), (eqb_spec k' k); congruence.
Qed.

Lemma mapAppend_keys k' k (v : V) m :
  In k' (map fst (mapAppend eqb k v m)) <-> k' = k \/ In k' (map fst m).
Proof.
  induction m as [|[k0 vs] r IH]; simpl.
  - intuition congruence.
  - destruct (eqb_spec k0 k) as [->|Hk0]; simpl.
    + intuition congruence.
    + rewrite IH. intuition congruence.
Qed.

Lemma mapAppend_NoDup k (v : V) m :
  NoDup (map fst m) -> NoDup (map fst (mapAppend eqb k v m)).
Proof.
  induction m as [|[k0 vs] r IH]; simpl; intros H.
  - constructor; [intros []|constructor].
  - inversion H as [|? ? Hn Hr]; subst.
    destruct (eqb_spec k0 k) as [->|Hk0]; simpl.
    + now constructor.
    + constructor; [|now apply IH].
      rewrite mapAppend_keys. intuition congruence.
Qed.

Lemma mapAppend_concat k (v : V) m :
  Permutation (List.concat (map snd (mapAppend eqb k v m)))
              (List.concat (map snd m) ++ [v]).
Proof.
  induction m as [|[k0 vs] r IH]; simpl; [reflexivity|].
  destruct (eqb_spec k0 k) as [->|Hk0]; simpl.
  - rewrite <- !app_assoc. apply Permutation_app_head, Permutation_app_comm.
  - rewrite IH. now rewrite app_assoc.
Qed.

Lemma mapGet_In k (vs : list V) m :
  NoDup (map fst m) -> In (k, vs) m -> mapGet eqb k m = vs.
Proof.
  induction m as [|[k0 vs0] r IH]; simpl; intros Hn Hin; [destruct Hin|].
  inversion Hn as [|? ? Hn0 Hr]; subst.
  destruct Hin as [[= -> ->] | Hin].
  - destruct (eqb_spec k k); congruence.
  - destruct (eqb_spec k0 k) as [->|_]; [|now apply IH].
    exfalso. apply Hn0. change k with (fst (k, vs)). now apply in_map.
Qed.

(** Grouping a slice by a key, the way the handlers fill their maps. *)
Variable key : V -> K.

Lemma group_snoc l x :
  fold_left (fun m s => mapAppend eqb (key s) s m) (l ++ [x]) [] =
  mapAppend eqb (key x) x
    (fold_left (fun m s => mapAppend eqb (key s) s m) l []).
Proof. now rewrite fold_left_app. Qed.

Lemma group_get k l :
  mapGet eqb k (fold_left (fun m s => mapAppend eqb (key s) s m) l []) =
  filter (fun s => eqb (key s) k) l.
Proof.
  induction l as [|x l IH] using rev_ind; [reflexivity|].
  rewrite group_snoc, mapGet_mapAppend, IH, filter_app. simpl.
  destruct (eqb_spec k (key x)), (eqb_spec (key x) k);
    try congruence; now rewrite ?app_nil_r.
Qed.

Lemma group_keys k l :
  In k (map fst (fold_left (fun m s => mapAppend eqb (key s) s m) l [])) <->
  exists s, In s l /\ key s = k.
Proof.
  induction l as [|x l IH] using rev_ind.
  - simpl. split; [intros []|intros (s & [] & _)].
  - rewrite group_snoc, mapAppend_keys, IH. split.
    + intros [->|(s & Hs & Hk)].
      * exists x. split; [apply in_or_app; right; now left|reflexivity].
      * exists s. split; [apply in_or_app; now left|exact Hk].
    + intros (s & Hs & Hk). apply in_app_or in Hs.
      destruct Hs as [Hs|[<-|[]]]; [right; now exists s|now left].
Qed.

Lemma group_NoDup l :
  NoDup (map fst (fold_left (fun m s => mapAppend eqb (key s) s m) l [])).
Proof.
  induction l as [|x l IH] using rev_ind; [constructor|].
  rewrite group_snoc. now apply mapAppend_NoDup.
Qed.

Lemma group_concat l :
  Permutation
    (List.concat (map snd (fold_left (fun m s => mapAppend eqb (key s) s m) l [])))
    l.
Proof.
  induction l as [|x l IH] using rev_ind; [reflexivity|].
  rewrite group_snoc, mapAppend_concat. now apply Permutation_app_tail.
Qed.

End MapOfSlices.

Lemma Permutation_concat_map_snd {K V : Type} (m m' : list (K * list V)) :
  Permutation m m' ->
  Permutation (List.concat (map snd m)) (List.concat (map snd m')).
Proof.
  induction 1 as [|x l l' _ IH|x y l|l1 l2 l3 _ IH1 _ IH2]; simpl.
  - reflexivity.
  - now apply Permutation_app_head.
  - rewrite !app_assoc. apply Permutation_app_tail, Permutation_app_comm.
  - now rewrite IH1.
Qed.

(** ** Sorting the days *)

Lemma ascii_compare_lt_trans a b c :
  Ascii.compare a b = Lt -> Ascii.compare b c = Lt -> Ascii.compare a c = Lt.
Proof.
  unfold Ascii.compare. rewrite !N.compare_lt_iff. apply N.lt_trans.
Qed.

Lemma string_compare_lt_trans s1 :
  forall s2 s3,
    String.compare s1 s2 = Lt -> String.compare s2 s3 = Lt ->
    String.compare s1 s3 = Lt.
Proof.
  induction s1 as [|a s1 IH]; intros [|b s2] [|c s3]; simpl;
    try discriminate; try reflexivity.
  destruct (Ascii.compare a b) eqn:Hab; try discriminate;
    destruct (Ascii.compare b c) eqn:Hbc; try discriminate; intros H1 H2.
  - apply Ascii.compare_eq_iff in Hab, Hbc. subst.
    assert (E : Ascii.compare c c = Eq)
      by (unfold Ascii.compare; apply N.compare_refl).
    rewrite E. now apply (IH s2 s3).
  - apply Ascii.compare_eq_iff in Hab. subst. now rewrite Hbc.
  - apply Ascii.compare_eq_iff in Hbc. subst. now rewrite Hab.
  - now rewrite (ascii_compare_lt_trans _ _ _ Hab Hbc).
Qed.

Lemma string_ltb_lt a b : String.ltb a b = true <-> String.compare a b = Lt.
Proof.
  unfold String.ltb.
  destruct (String.compare a b); split; intros H; (discriminate || reflexivity).
Qed.

Lemma string_ltb_asym a b : String.ltb a b = true -> String.ltb b a = false.
Proof.
  unfold String.ltb. rewrite (String.compare_antisym b a).
  destruct (String.compare a b); simpl; congruence.
Qed.

Lemma string_not_ltb_trans a b c :
  String.ltb b a = false -> String.ltb c b = false -> String.ltb c a = false.
Proof.
  intros Hba Hcb. destruct (String.ltb c a) eqn:Hca; [|reflexivity].
  exfalso. apply string_ltb_lt in Hca.
  unfold String.ltb in Hba, Hcb.
  destruct (String.compare c b) eqn:E; [| discriminate |].
  - apply String.compare_eq_iff in E. subst. now rewrite Hca in Hba.
  - assert (Hbc : String.compare b c = Lt).
    { rewrite String.compare_antisym, E. reflexivity. }
    now rewrite (string_compare_lt_trans _ _ _ Hbc Hca) in Hba.
Qed.

Lemma string_not_ltb_neq a b :
  String.ltb b a = false -> a <> b -> String.ltb a b = true.
Proof.
  intros Hba Hne. unfold String.ltb in *.
  rewrite (String.compare_antisym b a) in Hba.
  destruct (String.compare a b) eqn:E; simpl in Hba; try congruence.
  apply String.compare_eq_iff in E. contradiction.
Qed.

Section SortByDateFacts.

Variable A : Type.
Variable date : A -> string.

Lemma insertDay_perm d l : Permutation (insertDay date d l) (d :: l).
Proof.
  induction l as [|x l IH]; simpl; [reflexivity|].
  destruct (dateLess date d x); [reflexivity|].
  rewrite IH. apply perm_swap.
Qed.

Lemma sortDays_perm l : Permutation (sortDays date l) l.
Proof.
  induction l as [|d l IH]; simpl; [reflexivity|].
  rewrite insertDay_perm. now constructor.
Qed.

Lemma insertDay_sorted d l :
  StronglySorted (dateLe date) l -> StronglySorted (dateLe date) (insertDay date d l).
Proof.
  induction l as [|x l IH]; intros H; simpl.
  - constructor; constructor.
  - apply StronglySorted_inv in H. destruct H as [Hl Hx].
    destruct (dateLess date d x) eqn:Hd.
    + assert (Hdx : dateLe date d x) by (apply string_ltb_asym; exact Hd).
      constructor; [now constructor|].
      constructor; [exact Hdx|].
      eapply Forall_impl; [|exact Hx]. unfold dateLe, dateLess in *.
      intros a Ha. eapply string_not_ltb_trans; eauto.
    + constructor; [now apply IH|].
      assert (Hp : Forall (dateLe date x) (d :: l)) by (constructor; assumption).
      rewrite Forall_forall in *. intros a Ha. apply Hp.
      eapply Permutation_in; [apply insertDay_perm|exact Ha].
Qed.

Lemma sortDays_sorted l : StronglySorted (dateLe date) (sortDays date l).
Proof.
  induction l as [|d l IH]; simpl; [constructor|].
  now apply insertDay_sorted.
Qed.

Lemma sorted_distinct_strict l :
  StronglySorted (dateLe date) l -> NoDup (map date l) ->
  StronglySorted (fun a b => String.ltb (date a) (date b) = true) l.
Proof.
  induction l as [|x l IH]; intros Hs Hn; [constructor|].
  apply StronglySorted_inv in Hs. destruct Hs as [Hl Hx].
  inversion Hn as [|? ? Hnx Hnl]; subst.
  constructor; [now apply IH|].
  rewrite Forall_forall in *. intros a Ha.
  apply string_not_ltb_neq; [now apply Hx|].
  intros E. apply Hnx. rewrite E. now apply in_map.
Qed.

End SortByDateFacts.

Lemma Permutation_concat_map {A B : Type} (f : A -> list B) (l l' : list A) :
  Permutation l l' ->
  Permutation (List.concat (map f l)) (List.concat (map f l')).
Proof.
  induction 1 as [|x l l' _ IH|x y l|l1 l2 l3 _ IH1 _ IH2]; simpl.
  - reflexivity.
  - now apply Permutation_app_head.
  - rewrite !app_assoc. apply Permutation_app_tail, Permutation_app_comm.
  - now rewrite IH1.
Qed.

Lemma StronglySorted_filter {A : Type} (R : A -> A -> Prop) (p : A -> bool) l :
  StronglySorted R l -> StronglySorted R (filter p l).
Proof.
  induction l as [|x l IH]; intros H; simpl; [constructor|].
  apply StronglySorted_inv in H. destruct H as [Hl Hx].
  destruct (p x); [|now apply IH].
  constructor; [now apply IH|].
  rewrite Forall_forall in *. intros a Ha. apply Hx.
  apply filter_In in Ha. tauto.
Qed.

(** The reply of [handleUserPresenceHistory] once the sessions are
    fetched. *)
Lemma handleUserPresenceHistory_reliable
    formatDate mapOrder dateParam monthAgo userID since w :
  db_reliable w ->
  historySince dateParam monthAgo = Ok since ->
  handleUserPresenceHistory formatDate mapOrder dateParam monthAgo userID true w =
  (HistoryOK
     (userID,
      sortDays day_Date
        (map (fun entry => mkUserPresenceDay (fst entry) (snd entry))
           (mapOrder
              (fold_left
                 (fun m session =>
                    mapAppend String.eqb (formatDate (StartTime session)) session m)
                 (orderByStartTime
                    (filter (fun s => (UserID s =? userID) && (StartTime s >=? since))
                            (user_presence_sessions w)))
                 [])))), w).
Proof.
  intros Hw Hs. unfold handleUserPresenceHistory. rewrite Hs.
  rewrite bind_run, (fetchUserSessions_reliable _ _ Hw). reflexivity.
Qed.

(** X12: the user history groups the user's sessions since the start
    instant by the calendar day of their start time.  Whatever order the
    map is walked in, the days come out in strictly increasing date order
    (so no date twice), no day is empty, each day holds exactly the
    fetched sessions that start on it, in start-time order, and every
    fetched session is in exactly one day. *)
Theorem user_history_grouping
    (formatDate : Z -> string)
    (mapOrder : list (string * list PresenceSession) ->
                list (string * list PresenceSession))
    (dateParam : option (result Z)) (monthAgo userID since : Z) (w : World) :
  db_reliable w ->
  (forall m, Permutation (mapOrder m) m) ->
  historySince dateParam monthAgo = Ok since ->
  exists days,
    handleUserPresenceHistory formatDate mapOrder dateParam monthAgo userID true w
    = (HistoryOK (userID, days), w) /\
    StronglySorted (fun a b => String.ltb (day_Date a) (day_Date b) = true) days /\
    (forall d, In d days ->
       day_Sessions d <> [] /\
       StronglySorted byStartTime (day_Sessions d) /\
       forall s, In s (day_Sessions d) <->
                 In s (user_presence_sessions w) /\ UserID s = userID /\
                 since <= StartTime s /\ formatDate (StartTime s) = day_Date d) /\
    Permutation (List.concat (map day_Sessions days))
      (filter (fun s => (UserID s =? userID) && (StartTime s >=? since))
              (user_presence_sessions w)).
Proof.
  intros Hw Hperm Hs.
  rewrite (@handleUserPresenceHistory_reliable formatDate mapOrder dateParam
             monthAgo userID since w Hw Hs).
  set (wanted := filter (fun s => (UserID s =? userID) && (StartTime s >=? since))
                        (user_presence_sessions w)).
  set (fetched := orderByStartTime wanted).
  set (m := fold_left
              (fun m session =>
                 mapAppend String.eqb (formatDate (StartTime session)) session m)
              fetched []).
  set (mk := fun entry : string * list PresenceSession =>
               mkUserPresenceDay (fst entry) (snd entry)).
  eexists. split; [reflexivity|].
  assert (Hfetched : forall s, In s fetched <->
            In s (user_presence_sessions w) /\ UserID s = userID /\
            since <= StartTime s).
  { intros s. unfold fetched. split.
    - intros Hin. apply (Permutation_in _ (orderByStartTime_perm _)) in Hin.
      apply filter_In in Hin. destruct Hin as [Hin Hb].
      apply andb_prop in Hb. destruct Hb as [Hu Hst].
      apply Z.eqb_eq in Hu. rewrite Z.geb_leb in Hst. apply Z.leb_le in Hst. tauto.
    - intros (Hin & Hu & Hst).
      apply (Permutation_in _ (Permutation_sym (orderByStartTime_perm _))).
      apply filter_In. split; [exact Hin|].
      rewrite Hu, Z.eqb_refl, Z.geb_leb. simpl. now apply Z.leb_le. }
  assert (Hnodup : NoDup (map fst m))
    by (apply (@group_NoDup string PresenceSession String.eqb String.eqb_spec
                 (fun s : PresenceSession => formatDate (StartTime s)) fetched)).
  assert (Hdates : map day_Date (map mk (mapOrder m)) = map fst (mapOrder m)).
  { rewrite map_map. apply map_ext. reflexivity. }
  split; [|split].
  - apply (@sorted_distinct_strict UserPresenceDay day_Date);
      [apply sortDays_sorted|].
    apply (Permutation_NoDup
             (Permutation_map day_Date
                (Permutation_sym (@sortDays_perm UserPresenceDay day_Date _)))).
    rewrite Hdates.
    apply (Permutation_NoDup (Permutation_map fst (Permutation_sym (Hperm m)))).
    exact Hnodup.
  - intros d Hd.
    apply (Permutation_in _ (@sortDays_perm UserPresenceDay day_Date _)) in Hd.
    apply in_map_iff in Hd. destruct Hd as ([k vs] & <- & Hin).
    apply (Permutation_in _ (Hperm m)) in Hin. simpl.
    assert (Hvs : vs = filter (fun s => String.eqb (formatDate (StartTime s)) k) fetched).
    { rewrite <- (@mapGet_In string PresenceSession String.eqb String.eqb_spec
                    k vs m Hnodup Hin).
      apply (@group_get string PresenceSession String.eqb String.eqb_spec
               (fun s : PresenceSession => formatDate (StartTime s)) k fetched). }
    assert (Hkey : exists s, In s fetched /\ formatDate (StartTime s) = k).
    { apply (@group_keys string PresenceSession String.eqb String.eqb_spec
               (fun s : PresenceSession => formatDate (StartTime s)) k fetched).
      change k with (fst (k, vs)). now apply in_map. }
    split; [|split].
    + destruct Hkey as (s & Hsin & Hk). intros E.
      assert (Hf : In s vs).
      { rewrite Hvs. apply filter_In. split; [exact Hsin|].
        now apply String.eqb_eq. }
      rewrite E in Hf. destruct Hf.
    + rewrite Hvs. apply StronglySorted_filter, orderByStartTime_sorted.
    + intros s. rewrite Hvs, filter_In, Hfetched, String.eqb_eq. tauto.
  - rewrite (Permutation_concat_map day_Sessions
               (@sortDays_perm UserPresenceDay day_Date _)).
    rewrite map_map.
    change (map (fun x => day_Sessions (mk x)) (mapOrder m))
      with (map snd (mapOrder m)).
    rewrite (Permutation_concat_map snd (Hperm m)).
    unfold m.
    rewrite (@group_concat string PresenceSession String.eqb String.eqb_spec
               (fun s : PresenceSession => formatDate (StartTime s)) fetched).
    apply orderByStartTime_perm.
Qed.

Lemma user_history_grouping_witness :
  exists days,
    fst (handleUserPresenceHistory
           (fun t => if t <? 150 then "2024-01-01"%string else "2024-01-02"%string)
           (@rev _) (Some (Ok 100)) 0 1 true doubleOpenWorld)
    = HistoryOK (1, days) /\
    List.length days = 2%nat.
Proof.
  destruct (@user_history_grouping
              (fun t => if t <? 150 then "2024-01-01"%string else "2024-01-02"%string)
              (@rev _) (Some (Ok 100)) 0 1 100 doubleOpenWorld eq_refl
              (fun m => Permutation_sym (Permutation_rev m)) eq_refl)
    as (days & Hrun & _).
  exists days. rewrite Hrun. split; [reflexivity|].
  apply (f_equal fst) in Hrun. vm_compute in Hrun.
  injection Hrun as <-. reflexivity.
Defined.

(** X13: the history handler answers 400 to a date it cannot parse, before
    any database call; 500 when the fetch fails or the reply cannot be
    encoded; and in no case changes sessions, counters or samples. *)
Theorem user_history_failures
    (formatDate : Z -> string)
    (mapOrder : list (string * list PresenceSession) ->
                list (string * list PresenceSession))
    (dateParam : option (result Z)) (monthAgo userID : Z) (encode_ok : bool)
    (w : World) :
  let run := handleUserPresenceHistory formatDate mapOrder dateParam monthAgo
               userID encode_ok w in
  (forall e, dateParam = Some (Err e) ->
             run = (HistoryFailed StatusBadRequest, w)) /\
  (forall since e,
      historySince dateParam monthAgo = Ok since ->
      fst (fetchUserSessions userID since w) = Err e ->
      fst run = HistoryFailed StatusInternalServerError) /\
  (encode_ok = false ->
   forall since, historySince dateParam monthAgo = Ok since ->
                 fst run = HistoryFailed StatusInternalServerError) /\
  (exists s, snd run = with_db_script s w).
Proof.
  intros run. subst run. unfold handleUserPresenceHistory.
  split; [|split; [|split]].
  - intros e ->. reflexivity.
  - intros since e Hs He. rewrite Hs, bind_run, He. reflexivity.
  - intros -> since Hs. rewrite Hs, bind_run.
    destruct (fst (fetchUserSessions userID since w)); reflexivity.
  - destruct (historySince dateParam monthAgo) as [since|e].
    + rewrite bind_run.
      destruct (@fetch_sessions_failure_frame w userID since) as [s Hs].
      exists s. rewrite <- Hs.
      destruct (fst (fetchUserSessions userID since w)); [|reflexivity].
      destruct encode_ok; reflexivity.
    + exists (db_script w). now rewrite with_db_script_same.
Qed.

Lemma user_history_failures_witness :
  fst (handleUserPresenceHistory (fun _ => "d"%string) (fun m => m) None 0 1 true
         failingWorld)
  = HistoryFailed StatusInternalServerError.
Proof.
  destruct (@user_history_failures (fun _ => "d"%string) (fun m => m) None 0 1 true
              failingWorld) as (_ & Hfetch & _).
  apply (Hfetch 0 ErrDriver); reflexivity.
Defined.

Example demo_all_history :
  fst (handlePresenceHistory
         (fun t => if t <? 1000 then "2024-01-01"%string else "2024-01-02"%string)
         (@rev _) (fun m => m) None 0 true
         (with_sessions
            [mkSession 1 1 5 1500 None 1600; mkSession 2 2 3 150 None 150;
             mkSession 3 1 7 200 (Some 300) 250; mkSession 4 1 7 1200 (Some 1300) 1250]
            demoWorld))
  = HistoryOK
      [mkAllUsersPresenceDay "2024-01-01"
         [mkUserPresenceDetail 2 [mkSession 2 2 3 150 None 150];
          mkUserPresenceDetail 1 [mkSession 3 1 7 200 (Some 300) 250]];
       mkAllUsersPresenceDay "2024-01-02"
         [mkUserPresenceDetail 1
            [mkSession 4 1 7 1200 (Some 1300) 1250; mkSession 1 1 5 1500 None 1600]]].
Proof. reflexivity. Qed.

(** The nested map is the map of days with each day's sessions grouped by
    user. *)
Lemma dayUserAppend_map date s (m : list (string * list PresenceSession)) :
  dayUserAppend date s
    (map (fun e => (fst e,
                    fold_left (fun um x => mapAppend Z.eqb (UserID x) x um) (snd e) []))
         m)
  = map (fun e => (fst e,
                   fold_left (fun um x => mapAppend Z.eqb (UserID x) x um) (snd e) []))
        (mapAppend String.eqb date s m).
Proof.
  induction m as [|[d ss] r IH]; simpl; [reflexivity|].
  destruct (String.eqb d date); simpl.
  - now rewrite fold_left_app.
  - now rewrite IH.
Qed.

Lemma dayUserMap_groups (formatDate : Z -> string) l :
  fold_left (fun m s => dayUserAppend (formatDate (StartTime s)) s m) l [] =
  map (fun e => (fst e,
                 fold_left (fun um x => mapAppend Z.eqb (UserID x) x um) (snd e) []))
      (fold_left (fun m s => mapAppend String.eqb (formatDate (StartTime s)) s m) l []).
Proof.
  induction l as [|x l IH] using rev_ind; [reflexivity|].
  now rewrite !fold_left_app, IH; simpl; rewrite dayUserAppend_map.
Qed.

Lemma Permutation_concat_pointwise {A B : Type} (f g : A -> list B) l :
  (forall x, In x l -> Permutation (f x) (g x)) ->
  Permutation (List.concat (map f l)) (List.concat (map g l)).
Proof.
  induction l as [|x l IH]; intros H; simpl; [reflexivity|].
  apply Permutation_app; [apply H; now left|].
  apply IH. intros y Hy. apply H. now right.
Qed.

Lemma handlePresenceHistory_reliable
    formatDate dayOrder userOrder dateParam monthAgo since w :
  db_reliable w ->
  historySince dateParam monthAgo = Ok since ->
  handlePresenceHistory formatDate dayOrder userOrder dateParam monthAgo true w =
  (HistoryOK
     (sortDays all_Date
        (map (fun dayEntry =>
                mkAllUsersPresenceDay (fst dayEntry)
                  (map (fun userEntry =>
                          mkUserPresenceDetail (fst userEntry) (snd userEntry))
                       (userOrder (snd dayEntry))))
           (dayOrder
              (fold_left
                 (fun m session =>
                    dayUserAppend (formatDate (StartTime session)) session m)
                 (orderByStartTime
                    (filter (fun s => StartTime s >=? since)
                            (user_presence_sessions w)))
                 [])))), w).
Proof.
  intros Hw Hs. unfold handlePresenceHistory. rewrite Hs.
  rewrite bind_run, (fetchAllSessions_reliable _ Hw). reflexivity.
Qed.

(** X14: the all-users history groups the sessions since the start
    instant by calendar day and, within a day, by user.  Whatever order
    the two maps are walked in, the days come out in strictly increasing
    date order, a day lists each of its users once and no user without
    sessions, a user's entry holds exactly the fetched sessions of that
    user that start on that day, in start-time order, and every fetched
    session is in exactly one entry. *)
Theorem all_history_grouping
    (formatDate : Z -> string)
    (dayOrder : list (string * list (Z * list PresenceSession)) ->
                list (string * list (Z * list PresenceSession)))
    (userOrder : list (Z * list PresenceSession) ->
                 list (Z * list PresenceSession))
    (dateParam : option (result Z)) (monthAgo since : Z) (w : World) :
  db_reliable w ->
  (forall m, Permutation (dayOrder m) m) ->
  (forall m, Permutation (userOrder m) m) ->
  historySince dateParam monthAgo = Ok since ->
  exists days,
    handlePresenceHistory formatDate dayOrder userOrder dateParam monthAgo true w
    = (HistoryOK days, w) /\
    StronglySorted (fun a b => String.ltb (all_Date a) (all_Date b) = true) days /\
    (forall d, In d days ->
       all_Users d <> [] /\
       NoDup (map detail_UserID (all_Users d)) /\
       forall u, In u (all_Users d) ->
         detail_Sessions u <> [] /\
         StronglySorted byStartTime (detail_Sessions u) /\
         forall s, In s (detail_Sessions u) <->
                   In s (user_presence_sessions w) /\ since <= StartTime s /\
                   formatDate (StartTime s) = all_Date d /\
                   UserID s = detail_UserID u) /\
    Permutation
      (List.concat
         (map (fun d => List.concat (map detail_Sessions (all_Users d))) days))
      (filter (fun s => StartTime s >=? since) (user_presence_sessions w)).
Proof.
  intros Hw Hday Huser Hs.
  rewrite (@handlePresenceHistory_reliable formatDate dayOrder userOrder dateParam
             monthAgo since w Hw Hs).
  set (wanted := filter (fun s => StartTime s >=? since) (user_presence_sessions w)).
  set (fetched := orderByStartTime wanted).
  rewrite dayUserMap_groups.
  set (keyD := fun s : PresenceSession => formatDate (StartTime s)).
  set (grpU := fun ss : list PresenceSession =>
                 fold_left (fun um x => mapAppend Z.eqb (UserID x) x um) ss []).
  set (grpD := fold_left (fun m s => mapAppend String.eqb (keyD s) s m) fetched []).
  set (F := fun e : string * list PresenceSession => (fst e, grpU (snd e))).
  set (mkU := fun userEntry : Z * list PresenceSession =>
                mkUserPresenceDetail (fst userEntry) (snd userEntry)).
  set (mkDay := fun dayEntry : string * list (Z * list PresenceSession) =>
                  mkAllUsersPresenceDay (fst dayEntry)
                    (map mkU (userOrder (snd dayEntry)))).
  change (fold_left (fun m s => mapAppend String.eqb (formatDate (StartTime s)) s m)
            fetched []) with grpD.
  change (map (fun e : string * list PresenceSession =>
                 (fst e,
                  fold_left (fun um x => mapAppend Z.eqb (UserID x) x um) (snd e) []))
              grpD) with (map F grpD).
  eexists. split; [reflexivity|].
  assert (Hfetched : forall s, In s fetched <->
            In s (user_presence_sessions w) /\ since <= StartTime s).
  { intros s. unfold fetched. split.
    - intros Hin. apply (Permutation_in _ (orderByStartTime_perm _)) in Hin.
      apply filter_In in Hin. destruct Hin as [Hin Hst].
      rewrite Z.geb_leb in Hst. apply Z.leb_le in Hst. tauto.
    - intros (Hin & Hst).
      apply (Permutation_in _ (Permutation_sym (orderByStartTime_perm _))).
      apply filter_In. split; [exact Hin|].
      rewrite Z.geb_leb. now apply Z.leb_le. }
  assert (HnodupD : NoDup (map fst grpD))
    by (apply (@group_NoDup string PresenceSession String.eqb String.eqb_spec
                 keyD fetched)).
  assert (HkeysF : map fst (map F grpD) = map fst grpD).
  { rewrite map_map. apply map_ext. reflexivity. }
  assert (Hdates : map all_Date (map mkDay (dayOrder (map F grpD)))
                   = map fst (dayOrder (map F grpD))).
  { rewrite map_map. apply map_ext. reflexivity. }
  split; [|split].
  - apply (@sorted_distinct_strict AllUsersPresenceDay all_Date);
      [apply sortDays_sorted|].
    apply (Permutation_NoDup
             (Permutation_map all_Date
                (Permutation_sym (@sortDays_perm AllUsersPresenceDay all_Date _)))).
    rewrite Hdates.
    apply (Permutation_NoDup
             (Permutation_map fst (Permutation_sym (Hday (map F grpD))))).
    now rewrite HkeysF.
  - intros d Hd.
    apply (Permutation_in _ (@sortDays_perm AllUsersPresenceDay all_Date _)) in Hd.
    apply in_map_iff in Hd. destruct Hd as ([k us] & <- & Hin).
    apply (Permutation_in _ (Hday _)) in Hin.
    apply in_map_iff in Hin. destruct Hin as ([k' ss] & [= <- <-] & Hin).
    cbn [all_Users all_Date mkDay fst snd].
    assert (Hss : ss = filter (fun s => String.eqb (keyD s) k') fetched).
    { rewrite <- (@mapGet_In string PresenceSession String.eqb String.eqb_spec
                    k' ss grpD HnodupD Hin).
      apply (@group_get string PresenceSession String.eqb String.eqb_spec
               keyD k' fetched). }
    assert (HnodupU : NoDup (map fst (grpU ss)))
      by (apply (@group_NoDup Z PresenceSession Z.eqb Z.eqb_spec UserID ss)).
    assert (Hentry : forall uid vs, In (uid, vs) (userOrder (grpU ss)) ->
              vs = filter (fun s => UserID s =? uid) ss /\ vs <> []).
    { intros uid vs Hu. apply (Permutation_in _ (Huser _)) in Hu.
      assert (Hvs : vs = filter (fun s => UserID s =? uid) ss).
      { rewrite <- (@mapGet_In Z PresenceSession Z.eqb Z.eqb_spec
                      uid vs (grpU ss) HnodupU Hu).
        apply (@group_get Z PresenceSession Z.eqb Z.eqb_spec UserID uid ss). }
      split; [exact Hvs|].
      assert (Hk : exists s, In s ss /\ UserID s = uid).
      { apply (@group_keys Z PresenceSession Z.eqb Z.eqb_spec UserID uid ss).
        change uid with (fst (uid, vs)). now apply in_map. }
      destruct Hk as (s & Hsin & Hsu). intros E.
      assert (Hf : In s vs).
      { rewrite Hvs. apply filter_In. split; [exact Hsin|]. now apply Z.eqb_eq. }
      rewrite E in Hf. destruct Hf. }
    split; [|split].
    + assert (Hk : exists s, In s fetched /\ keyD s = k').
      { apply (@group_keys string PresenceSession String.eqb String.eqb_spec
                 keyD k' fetched).
        change k' with (fst (k', ss)). now apply in_map. }
      destruct Hk as (s & Hsin & Hsk).
      assert (Hs_ss : In s ss).
      { rewrite Hss. apply filter_In. split; [exact Hsin|]. now apply String.eqb_eq. }
      assert (Hu : In (UserID s) (map fst (grpU ss))).
      { apply (@group_keys Z PresenceSession Z.eqb Z.eqb_spec UserID (UserID s) ss).
        now exists s. }
      apply (Permutation_in _ (Permutation_map fst (Permutation_sym (Huser _)))) in Hu.
      intros E. destruct (userOrder (grpU ss)); [destruct Hu|discriminate].
    + rewrite map_map.
      change (map (fun x => detail_UserID (mkU x)) (userOrder (grpU ss)))
        with (map fst (userOrder (grpU ss))).
      apply (Permutation_NoDup
               (Permutation_map fst (Permutation_sym (Huser (grpU ss))))).
      exact HnodupU.
    + intros u Hu. apply in_map_iff in Hu. destruct Hu as ([uid vs] & <- & Hu).
      destruct (Hentry uid vs Hu) as [Hvs Hne]. cbn [detail_Sessions detail_UserID mkU fst snd].
      split; [exact Hne|]. split.
      * rewrite Hvs, Hss.
        apply StronglySorted_filter, StronglySorted_filter, orderByStartTime_sorted.
      * intros s. rewrite Hvs, filter_In, Hss, filter_In, Hfetched.
        rewrite String.eqb_eq, Z.eqb_eq. unfold keyD. tauto.
  - rewrite (Permutation_concat_map
               (fun d => List.concat (map detail_Sessions (all_Users d)))
               (@sortDays_perm AllUsersPresenceDay all_Date _)).
    rewrite map_map.
    rewrite (Permutation_concat_map
               (fun x => List.concat (map detail_Sessions (all_Users (mkDay x))))
               (Hday (map F grpD))).
    rewrite map_map.
    rewrite (@Permutation_concat_pointwise _ _
               (fun x => List.concat (map detail_Sessions (all_Users (mkDay (F x)))))
               snd grpD).
    + unfold grpD.
      rewrite (@group_concat string PresenceSession String.eqb String.eqb_spec
                 keyD fetched).
      apply orderByStartTime_perm.
    + intros [k ss] _. cbn [all_Users mkDay F fst snd].
      rewrite map_map.
      change (map (fun x => detail_Sessions (mkU x)) (userOrder (grpU ss)))
        with (map snd (userOrder (grpU ss))).
      rewrite (Permutation_concat_map snd (Huser (grpU ss))).
      apply (@group_concat Z PresenceSession Z.eqb Z.eqb_spec UserID ss).
Qed.

Lemma all_history_grouping_witness :
  exists days,
    fst (handlePresenceHistory
           (fun t => if t <? 150 then "2024-01-01"%string else "2024-01-02"%string)
           (@rev _) (@rev _) None 0 true doubleOpenWorld)
    = HistoryOK days /\
    List.length days = 2%nat.
Proof.
  destruct (@all_history_grouping
              (fun t => if t <? 150 then "2024-01-01"%string else "2024-01-02"%string)
              (@rev _) (@rev _) None 0 0 doubleOpenWorld eq_refl
              (fun m => Permutation_sym (Permutation_rev m))
              (fun m => Permutation_sym (Permutation_rev m)) eq_refl)
    as (days & Hrun & _).
  exists days. rewrite Hrun. split; [reflexivity|].
  apply (f_equal fst) in Hrun. vm_compute in Hrun.
  injection Hrun as <-. reflexivity.
Defined.

(** * Fingerprint collection *)

Example demo_Atoi :
  Atoi "42" = Some 42 /\ Atoi "-7" = Some (-7) /\ Atoi "+007" = Some 7 /\
  Atoi "" = None /\ Atoi "-" = None /\ Atoi "4 2" = None /\ Atoi "1_0" = None /\
  Atoi "9223372036854775807" = Some 9223372036854775807 /\
  Atoi "9223372036854775808" = None /\
  Atoi "-9223372036854775808" = Some (-9223372036854775808).
Proof. repeat split. Qed.

Example demo_collect :
  handleFingerprintCollect (collectRequest "-0")
  = (StatusOK,
     [mkSavedFile NegativeSamples "-0" WifiData 1700;
      mkSavedFile NegativeSamples "-0" BleData 1700;
      mkSavedFile ManagerFingerprint "-0" WifiData 1700;
      mkSavedFile ManagerFingerprint "-0" BleData 1700]).
Proof. reflexivity. Qed.

Lemma digitOf_range c d : digitOf c = Some d -> 0 <= d <= 9.
Proof.
  unfold digitOf.
  destruct ((48 <=? nat_of_ascii c) && (nat_of_ascii c <=? 57))%nat eqn:E;
    [|discriminate].
  apply andb_prop in E. destruct E as [E1 E2].
  apply Nat.leb_le in E1, E2. intros [= <-]. lia.
Qed.

Lemma digitOf_zero c : digitOf c = Some 0 <-> c = "0"%char.
Proof.
  split; [|intros ->; reflexivity].
  unfold digitOf.
  destruct ((48 <=? nat_of_ascii c) && (nat_of_ascii c <=? 57))%nat eqn:E;
    [|discriminate].
  apply andb_prop in E. destruct E as [E1 E2].
  apply Nat.leb_le in E1, E2. intros [= H].
  assert (Hn : nat_of_ascii c = 48%nat) by lia.
  rewrite <- (ascii_nat_embedding c), Hn. reflexivity.
Qed.

Lemma parseDigits_lower s :
  forall acc n, 0 <= acc -> parseDigits s acc = Some n -> acc <= n.
Proof.
  induction s as [|c r IH]; intros acc n Hacc; simpl.
  - intros [= <-]. lia.
  - destruct (digitOf c) as [d|] eqn:Hd; [|discriminate].
    apply digitOf_range in Hd. intros H.
    apply IH in H; lia.
Qed.

Lemma parseDigits_zero s :
  forall acc, 0 <= acc ->
    (parseDigits s acc = Some 0 <-> acc = 0 /\ allZeros s = true).
Proof.
  induction s as [|c r IH]; intros acc Hacc; simpl.
  - split; [intros [= ->]; now split|intros [-> _]; reflexivity].
  - destruct (digitOf c) as [d|] eqn:Hd.
    + pose proof (digitOf_range _ Hd) as Hr.
      rewrite IH by lia. split.
      * intros [H0 Hz]. assert (d = 0) by lia. subst d.
        apply digitOf_zero in Hd. subst c. split; [lia|]. exact Hz.
      * intros [-> Hz]. apply andb_prop in Hz. destruct Hz as [Hc Hz].
        apply Ascii.eqb_eq in Hc. subst c.
        assert (d = 0) by (vm_compute in Hd; congruence).
        subst d. now split.
    + split; [discriminate|].
      intros [_ Hz]. apply andb_prop in Hz. destruct Hz as [Hc _].
      apply Ascii.eqb_eq in Hc. subst c. vm_compute in Hd. discriminate.
Qed.

(** X15: [Atoi] yields 0 exactly for the texts made of one or more ['0']
    digits with an optional sign in front; so "0", "00", "+0" and "-0" all
    read as room 0, and whatever [Atoi] accepts lies in the range of a
    64-bit [int]. *)
Theorem Atoi_zero_texts (s : string) :
  (Atoi s = Some 0 <->
   exists body,
     body <> EmptyString /\ allZeros body = true /\
     (s = body \/ s = String "+" body \/ s = String "-" body)) /\
  (forall n, Atoi s = Some n -> - 2 ^ 63 <= n <= 2 ^ 63 - 1).
Proof.
  split.
  - split.
    + destruct s as [|c rest]; [discriminate|]. unfold Atoi.
      destruct (Ascii.eqb_spec c "-") as [->|Hm]; simpl orb.
      * destruct rest as [|c2 r2]; [discriminate|].
        destruct (parseDigits (String c2 r2) 0) as [n|] eqn:Hp; [|discriminate].
        destruct ((- 2 ^ 63 <=? - n) && (- n <=? 2 ^ 63 - 1)); [|discriminate].
        intros [= Hn]. assert (n = 0) by lia. subst n.
        apply parseDigits_zero in Hp; [|lia].
        exists (String c2 r2). split; [discriminate|]. split; [tauto|auto].
      * destruct (Ascii.eqb_spec c "+") as [->|Hp'].
        -- destruct rest as [|c2 r2]; [discriminate|].
           destruct (parseDigits (String c2 r2) 0) as [n|] eqn:Hp; [|discriminate].
           destruct ((- 2 ^ 63 <=? n) && (n <=? 2 ^ 63 - 1)); [|discriminate].
           intros [= ->]. apply parseDigits_zero in Hp; [|lia].
           exists (String c2 r2). split; [discriminate|]. split; [tauto|auto].
        -- destruct (parseDigits (String c rest) 0) as [n|] eqn:Hp; [|discriminate].
           destruct ((- 2 ^ 63 <=? n) && (n <=? 2 ^ 63 - 1)); [|discriminate].
           intros [= ->]. apply parseDigits_zero in Hp; [|lia].
           exists (String c rest). split; [discriminate|]. split; [tauto|auto].
    + intros (body & Hne & Hz & Hs).
      assert (Hp : parseDigits body 0 = Some 0)
        by (apply parseDigits_zero; [lia|now split]).
      destruct body as [|b0 br]; [congruence|].
      destruct Hs as [-> | [-> | ->]].
      * unfold Atoi. simpl in Hz. apply andb_prop in Hz. destruct Hz as [Hb _].
        apply Ascii.eqb_eq in Hb. subst b0. simpl orb. cbv iota.
        now rewrite Hp.
      * unfold Atoi. simpl orb. cbv iota. now rewrite Hp.
      * unfold Atoi. simpl orb. cbv iota. now rewrite Hp.
  - intros n. destruct s as [|c rest]; [discriminate|]. unfold Atoi.
    destruct (if (c =? "-")%char || (c =? "+")%char then rest else String c rest);
      [discriminate|].
    destruct (parseDigits _ 0) as [m|]; [|discriminate].
    destruct (Z.leb_spec (- 2 ^ 63) (if (c =? "-")%char then - m else m));
      [|discriminate].
    destruct (Z.leb_spec (if (c =? "-")%char then - m else m) (2 ^ 63 - 1));
      [|discriminate].
    simpl. intros [= <-]. lia.
Qed.

Lemma Atoi_zero_texts_witness : Atoi "-000" = Some 0.
Proof.
  apply (proj1 (@Atoi_zero_texts "-000")).
  exists "000"%string. split; [discriminate|]. split; [reflexivity|].
  right. right. reflexivity.
Defined.

Ltac collect_early :=
  cbn [fst snd];
  split; [auto 6|];
  split; [intros H; discriminate H|];
  split; [intros; reflexivity|];
  split; [intros Hc Hp Hf;
          first [reflexivity | discriminate | destruct Hc; congruence]|];
  intros f [].

(** X16: [handleFingerprintCollect] answers 200 only after all four files
    are written; a 4xx answer means none was; a 500 answer leaves behind
    whatever was written before the failing step.  Every file written is
    in the directory named by the [room_id] text as sent; the copies under
    [estimation] go to the negative tree exactly when the text reads as
    0, and a copy under [manager_fingerprint] is written only after both
    copies under [estimation]. *)
Theorem collect_outcome (req : CollectRequest) :
  let status := fst (handleFingerprintCollect req) in
  let files := snd (handleFingerprintCollect req) in
  (status = StatusOK \/ status = StatusBadRequest \/
   status = StatusMethodNotAllowed \/ status = StatusInternalServerError) /\
  (status = StatusOK -> List.length files = 4%nat) /\
  (status = StatusBadRequest \/ status = StatusMethodNotAllowed -> files = []) /\
  (cr_roomIDStr req = EmptyString \/ Atoi (cr_roomIDStr req) = None ->
   cr_isPost req = true -> cr_formParses req = true ->
   status = StatusBadRequest) /\
  (forall f, In f files ->
     sf_room f = cr_roomIDStr req /\ sf_timestamp f = cr_timestamp req /\
     (sf_tree f = NegativeSamples -> Atoi (cr_roomIDStr req) = Some 0) /\
     (sf_tree f = PositiveSamples ->
      exists n, Atoi (cr_roomIDStr req) = Some n /\ n <> 0) /\
     (sf_tree f = ManagerFingerprint ->
      exists e1 e2, files = e1 :: e2 :: skipn 2 files /\
                    sf_tree e1 <> ManagerFingerprint /\ sf_file e1 = WifiData /\
                    sf_tree e2 <> ManagerFingerprint /\ sf_file e2 = BleData)).
Proof.
  unfold handleFingerprintCollect.
  destruct (cr_isPost req); simpl negb; cbv iota; [|collect_early].
  destruct (cr_formParses req); simpl negb; cbv iota; [|collect_early].
  destruct (String.eqb_spec (cr_roomIDStr req) "") as [He|He]; [collect_early|].
  destruct (Atoi (cr_roomIDStr req)) as [n|] eqn:Ha; [|collect_early].
  destruct (cr_hasWifi req); simpl negb; cbv iota; [|collect_early].
  destruct (cr_hasBle req); simpl negb; cbv iota; [|collect_early].
  destruct (cr_mkdirSave req); simpl negb; cbv iota; [|collect_early].
  destruct (cr_mkdirManager req); simpl negb; cbv iota; [|collect_early].
  assert (Htree : forall t,
            t = (if n =? 0 then NegativeSamples else PositiveSamples) ->
            (t = NegativeSamples -> Some n = Some 0) /\
            (t = PositiveSamples -> exists n0, Some n = Some n0 /\ n0 <> 0) /\
            t <> ManagerFingerprint).
  { intros t ->. destruct (Z.eqb_spec n 0) as [->|Hn].
    - split; [reflexivity|]. split; discriminate.
    - split; [discriminate|]. split; [|discriminate]. intros _. now exists n. }
  destruct (Htree _ eq_refl) as (Hneg & Hpos & Hmgr).
  destruct (cr_saveWifi req), (cr_saveBle req), (cr_saveMgrWifi req),
    (cr_saveMgrBle req), (cr_encode req); cbn [negb fst snd];
    (split; [auto|]);
    (split; [intros H; (reflexivity || discriminate H)|]);
    (split; [intros [H|H]; (reflexivity || discriminate H)|]);
    (split; [intros Hc _ _; destruct Hc; congruence|]);
    intros f Hf; cbn [In] in Hf;
    repeat (destruct Hf as [<-|Hf];
            [cbn [sf_tree sf_room sf_timestamp sf_file];
             split; [reflexivity|]; split; [reflexivity|];
             first
               [ split; [exact Hneg|]; split; [exact Hpos|];
                 intros Hm; exfalso; exact (Hmgr Hm)
               | split; [intros Hm; discriminate Hm|];
                 split; [intros Hm; discriminate Hm|];
                 intros _; do 2 eexists;
                 split; [reflexivity|];
                 cbn [sf_tree sf_file];
                 split; [exact Hmgr|]; split; [reflexivity|];
                 split; [exact Hmgr|reflexivity] ]
            |]);
    destruct Hf.
Qed.

Lemma collect_outcome_witness :
  In (mkSavedFile NegativeSamples "00" BleData 1700)
     (snd (handleFingerprintCollect (collectRequest "00"))) /\
  Atoi (cr_roomIDStr (collectRequest "00")) = Some 0.
Proof.
  assert (Hin : In (mkSavedFile NegativeSamples "00" BleData 1700)
                   (snd (handleFingerprintCollect (collectRequest "00"))))
    by (simpl; auto).
  split; [exact Hin|].
  destruct (@collect_outcome (collectRequest "00")) as (_ & _ & _ & _ & Hfiles).
  destruct (Hfiles _ Hin) as (_ & _ & Hneg & _).
  apply Hneg. reflexivity.
Defined.

(** * Reading the uploaded CSV files *)

Section CSVFacts.

Variable TrimSpace : string -> string.
Variable ParseFloat : string -> option Z.






End CSVFacts.


(** * Current occupants *)

Example demo_current_occupants :
  fst (handleCurrentOccupants
         [(3, "lab"); (5, "office"); (7, "hall")]%string
         [(1, "alice"); (2, "bob")]%string
         (fun rows => rows) (@rev _) true doubleOpenWorld)
  = HistoryOK
      [mkRoomOccupants 7 "hall" [mkCurrentOccupant "alice" 2000];
       mkRoomOccupants 5 "office" [mkCurrentOccupant "alice" 100];
       mkRoomOccupants 3 "lab" [mkCurrentOccupant "bob" 150]].
Proof. reflexivity. Qed.

Lemma roomsMapHas_In roomID m :
  roomsMapHas roomID m = true <-> In roomID (map fst m).
Proof.
  induction m as [|[k r] rest IH]; simpl; [split; [discriminate|intros []]|].
  rewrite orb_true_iff, IH, Z.eqb_eq. tauto.
Qed.

Lemma roomsMapAddOccupant_keys roomID occ m :
  map fst (roomsMapAddOccupant roomID occ m) = map fst m.
Proof.
  induction m as [|[k r] rest IH]; simpl; [reflexivity|].
  destruct (k =? roomID); simpl; [reflexivity|now rewrite IH].
Qed.

Lemma roomsMapAddOccupant_ids roomID occ m :
  (forall k r, In (k, r) m -> ro_RoomID r = k) ->
  forall k r, In (k, r) (roomsMapAddOccupant roomID occ m) -> ro_RoomID r = k.
Proof.
  induction m as [|[k0 r0] rest IH]; simpl; intros H k r Hin; [destruct Hin|].
  destruct (k0 =? roomID); simpl in Hin.
  - destruct Hin as [[= <- <-]|Hin]; [simpl; apply H; now left|].
    apply H. now right.
  - destruct Hin as [[= <- <-]|Hin]; [apply H; now left|].
    apply IH; [|exact Hin]. intros k' r' H'. apply H. now right.
Qed.

Lemma roomsMapGet_add k roomID occ m :
  roomsMapGet k (roomsMapAddOccupant roomID occ m) =
  roomsMapGet k m ++
  (if roomsMapHas roomID m && (roomID =? k) then [occ] else []).
Proof.
  induction m as [|[k0 r0] rest IH]; simpl; [reflexivity|].
  destruct (Z.eqb_spec k0 roomID) as [-> | Hk0]; simpl.
  - destruct (Z.eqb_spec roomID k) as [-> | Hk]; [reflexivity|].
    now rewrite app_nil_r.
  - rewrite IH. destruct (Z.eqb_spec k0 k) as [-> | Hk]; [|reflexivity].
    destruct (Z.eqb_spec roomID k) as [-> | Hr]; [congruence|].
    now rewrite andb_false_r, app_nil_r.
Qed.

Lemma roomsMapGet_new k roomID name m :
  roomsMapGet k (m ++ [(roomID, mkRoomOccupants roomID name [])]) = roomsMapGet k m.
Proof.
  induction m as [|[k0 r0] rest IH]; simpl.
  - now destruct (roomID =? k).
  - destruct (k0 =? k); [reflexivity|exact IH].
Qed.

Lemma roomsMapHas_new roomID name m :
  roomsMapHas roomID (m ++ [(roomID, mkRoomOccupants roomID name [])]) = true.
Proof.
  apply roomsMapHas_In. rewrite map_app. apply in_or_app. right. now left.
Qed.

Lemma occupantsStep_keys m row k :
  In k (map fst (occupantsStep m row)) <-> In k (map fst m) \/ k = row_roomID row.
Proof.
  unfold occupantsStep.
  assert (H : forall m1,
            m1 = (if roomsMapHas (row_roomID row) m then m
                  else m ++ [(row_roomID row,
                              mkRoomOccupants (row_roomID row) (row_roomName row) [])]) ->
            (In k (map fst m1) <-> In k (map fst m) \/ k = row_roomID row)).
  { intros m1 ->. destruct (roomsMapHas (row_roomID row) m) eqn:E.
    - apply roomsMapHas_In in E. split; [tauto|]. intros [H | ->]; assumption.
    - rewrite map_app, in_app_iff. simpl. intuition congruence. }
  destruct (row_userID row); [rewrite roomsMapAddOccupant_keys|]; now apply H.
Qed.

Lemma occupantsStep_NoDup m row :
  NoDup (map fst m) -> NoDup (map fst (occupantsStep m row)).
Proof.
  intros Hn. unfold occupantsStep.
  assert (H : NoDup (map fst
            (if roomsMapHas (row_roomID row) m then m
             else m ++ [(row_roomID row,
                         mkRoomOccupants (row_roomID row) (row_roomName row) [])]))).
  { destruct (roomsMapHas (row_roomID row) m) eqn:E; [exact Hn|].
    rewrite map_app. simpl.
    apply (Permutation_NoDup (Permutation_cons_append _ _)).
    constructor; [|exact Hn].
    intros Hin. apply roomsMapHas_In in Hin. congruence. }
  destruct (row_userID row); [rewrite roomsMapAddOccupant_keys|]; exact H.
Qed.

Lemma occupantsStep_ids m row :
  (forall k r, In (k, r) m -> ro_RoomID r = k) ->
  forall k r, In (k, r) (occupantsStep m row) -> ro_RoomID r = k.
Proof.
  intros H. unfold occupantsStep.
  assert (H1 : forall k r,
            In (k, r)
               (if roomsMapHas (row_roomID row) m then m
                else m ++ [(row_roomID row,
                            mkRoomOccupants (row_roomID row) (row_roomName row) [])]) ->
            ro_RoomID r = k).
  { intros k r. destruct (roomsMapHas (row_roomID row) m); [apply H|].
    intros Hin. apply in_app_or in Hin.
    destruct Hin as [Hin|[[= <- <-]|[]]]; [now apply H|reflexivity]. }
  destruct (row_userID row); [now apply roomsMapAddOccupant_ids|exact H1].
Qed.

Lemma occupantsStep_get m row k :
  roomsMapGet k (occupantsStep m row) = roomsMapGet k m ++ rowOccupant k row.
Proof.
  unfold occupantsStep, rowOccupant.
  destruct (row_userID row) as [uid|].
  - rewrite roomsMapGet_add.
    destruct (roomsMapHas (row_roomID row) m) eqn:E.
    + rewrite E. reflexivity.
    + rewrite roomsMapGet_new, roomsMapHas_new. reflexivity.
  - destruct (roomsMapHas (row_roomID row) m);
      [|rewrite roomsMapGet_new]; now rewrite app_nil_r.
Qed.

Lemma occupants_fold rows :
  forall m,
    NoDup (map fst m) ->
    (forall k r, In (k, r) m -> ro_RoomID r = k) ->
    let m' := fold_left occupantsStep rows m in
    NoDup (map fst m') /\
    (forall k r, In (k, r) m' -> ro_RoomID r = k) /\
    (forall k, In k (map fst m') <->
               In k (map fst m) \/ In k (map row_roomID rows)) /\
    (forall k, roomsMapGet k m' = roomsMapGet k m ++ flat_map (rowOccupant k) rows).
Proof.
  induction rows as [|row rows IH]; intros m Hn Hid; simpl.
  - split; [exact Hn|]. split; [exact Hid|]. split; [tauto|].
    intros k. now rewrite app_nil_r.
  - destruct (IH (occupantsStep m row) (@occupantsStep_NoDup m row Hn)
                (@occupantsStep_ids m row Hid)) as (Hn' & Hid' & Hk' & Hg').
    split; [exact Hn'|]. split; [exact Hid'|]. split.
    + intros k. rewrite Hk', occupantsStep_keys. intuition congruence.
    + intros k. now rewrite Hg', occupantsStep_get, app_assoc.
Qed.

Lemma roomsMapGet_In k r m :
  NoDup (map fst m) -> In (k, r) m -> roomsMapGet k m = ro_Occupants r.
Proof.
  induction m as [|[k0 r0] rest IH]; simpl; intros Hn Hin; [destruct Hin|].
  inversion Hn as [|? ? Hn0 Hr]; subst.
  destruct Hin as [[= -> ->] | Hin].
  - now rewrite Z.eqb_refl.
  - destruct (Z.eqb_spec k0 k) as [-> | _]; [|now apply IH].
    exfalso. apply Hn0. change k with (fst (k, r)). now apply in_map.
Qed.

(** The rows the two LEFT JOINs produce. *)
Lemma occupantRows_rooms rooms users sessions k :
  In k (map row_roomID (occupantRows rooms users sessions)) <-> In k (map fst rooms).
Proof.
  unfold occupantRows. rewrite !in_map_iff. split.
  - intros (row & <- & Hin). apply in_flat_map in Hin.
    destruct Hin as (room & Hroom & Hin). exists room. split; [|exact Hroom].
    unfold joinRoom in Hin.
    destruct (filter _ sessions) as [|s ss]; [destruct Hin as [<-|[]]; reflexivity|].
    apply in_flat_map in Hin. destruct Hin as (s' & _ & Hin).
    unfold joinUsers in Hin.
    destruct (filter _ users) as [|u us]; [destruct Hin as [<-|[]]; reflexivity|].
    apply in_map_iff in Hin. destruct Hin as (u' & <- & _). reflexivity.
  - intros (room & <- & Hroom).
    assert (Hne : exists row, In row (joinRoom users sessions room) /\
                              row_roomID row = fst room).
    { unfold joinRoom.
      destruct (filter _ sessions) as [|s ss]; [eexists; split; [now left|reflexivity]|].
      assert (Hu : exists row, In row (joinUsers users room s) /\
                               row_roomID row = fst room).
      { unfold joinUsers. destruct (filter _ users) as [|u us];
          eexists; (split; [now left|reflexivity]). }
      destruct Hu as (row & Hrow & Hid). exists row. split; [|exact Hid].
      apply in_flat_map. exists s. split; [now left|exact Hrow]. }
    destruct Hne as (row & Hrow & Hid). exists row. split; [exact Hid|].
    apply in_flat_map. exists room. now split.
Qed.

Lemma occupantRows_occupant rooms users sessions k o :
  In o (flat_map (rowOccupant k) (occupantRows rooms users sessions)) <->
  In k (map fst rooms) /\
  exists s u,
    In s sessions /\ EndTime s = None /\ RoomID s = k /\
    In u users /\ fst u = UserID s /\
    o = mkCurrentOccupant (snd u) (LastSeen s).
Proof.
  rewrite in_flat_map. unfold occupantRows. split.
  - intros (row & Hrow & Ho). apply in_flat_map in Hrow.
    destruct Hrow as (room & Hroom & Hrow).
    unfold rowOccupant in Ho.
    destruct (row_userID row) as [uid|] eqn:Hu; [|destruct Ho].
    destruct (Z.eqb_spec (row_roomID row) k) as [Hk|Hk]; [|destruct Ho].
    destruct Ho as [<-|[]].
    unfold joinRoom in Hrow.
    destruct (filter (fun s => (RoomID s =? fst room) && isOpen s) sessions)
      as [|s0 ss] eqn:F;
      [destruct Hrow as [<-|[]]; discriminate|].
    apply in_flat_map in Hrow. destruct Hrow as (s & Hs & Hrow).
    rewrite <- F in Hs. apply filter_In in Hs. destruct Hs as [Hs Hb].
    apply andb_prop in Hb. destruct Hb as [Hr Hopen]. apply Z.eqb_eq in Hr.
    unfold joinUsers in Hrow.
    destruct (filter (fun u => fst u =? UserID s) users) as [|u0 us] eqn:Fu;
      [destruct Hrow as [<-|[]]; discriminate|].
    apply in_map_iff in Hrow. destruct Hrow as (u & <- & Hu').
    rewrite <- Fu in Hu'. apply filter_In in Hu'. destruct Hu' as [Hu' He].
    apply Z.eqb_eq in He. simpl in *. injection Hu as <-.
    split; [rewrite <- Hk; now apply in_map|].
    exists s, u. repeat split; auto; try congruence.
    unfold isOpen in Hopen. now destruct (EndTime s).
  - intros (Hk & s & u & Hs & Hend & Hr & Hu & He & ->).
    apply in_map_iff in Hk. destruct Hk as (room & Hid & Hroom).
    exists (mkOccupantRow (fst room) (snd room) (Some (snd u)) (Some (LastSeen s))).
    split.
    + apply in_flat_map. exists room. split; [exact Hroom|].
      unfold joinRoom.
      assert (Hf : In s (filter (fun s => (RoomID s =? fst room) && isOpen s) sessions)).
      { apply filter_In. split; [exact Hs|].
        unfold isOpen. rewrite Hend, Hr, Hid, Z.eqb_refl. reflexivity. }
      destruct (filter (fun s => (RoomID s =? fst room) && isOpen s) sessions)
        as [|s0 ss]; [destruct Hf|].
      apply in_flat_map. exists s. split; [exact Hf|].
      unfold joinUsers.
      assert (Hfu : In u (filter (fun u => fst u =? UserID s) users)).
      { apply filter_In. split; [exact Hu|]. now apply Z.eqb_eq. }
      destruct (filter (fun u => fst u =? UserID s) users) as [|u0 us];
        [destruct Hfu|].
      apply in_map_iff. now exists u.
    + unfold rowOccupant. simpl. rewrite Hid, Z.eqb_refl. now left.
Qed.

(** X18: with the database answering, the occupants reply lists every
    room of the [rooms] table, each room id once, also the rooms nobody
    is in; and the occupants listed for a room are exactly the users that
    have a session in that room with [end_time] unset, each with that
    session's [last_seen].  A closed session never shows, nor does a
    session whose user has no row in [users].  This holds whatever order
    the rows arrive in and the map is walked in. *)
Theorem current_occupants_correct
    (rooms users : list (Z * string))
    (rowOrder : list OccupantRow -> list OccupantRow)
    (mapOrder : list (Z * RoomOccupants) -> list (Z * RoomOccupants))
    (w : World) :
  db_reliable w ->
  (forall rows, Permutation (rowOrder rows) rows) ->
  (forall m, Permutation (mapOrder m) m) ->
  exists reply,
    handleCurrentOccupants rooms users rowOrder mapOrder true w
    = (HistoryOK reply, w) /\
    NoDup (map ro_RoomID reply) /\
    (forall k, In k (map ro_RoomID reply) <-> In k (map fst rooms)) /\
    (forall room, In room reply ->
       forall o, In o (ro_Occupants room) <->
         exists s u,
           In s (user_presence_sessions w) /\ EndTime s = None /\
           RoomID s = ro_RoomID room /\
           In u users /\ fst u = UserID s /\
           o = mkCurrentOccupant (snd u) (LastSeen s)).
Proof.
  intros Hw Hrows Hmap. unfold handleCurrentOccupants.
  rewrite bind_run, (db_roundtrip_reliable Hw). cbn [fst snd].
  rewrite bind_run, (db_roundtrip_reliable Hw). cbn [fst snd].
  set (rows := rowOrder (occupantRows rooms users (user_presence_sessions w))).
  set (m := fold_left occupantsStep rows []).
  eexists. split; [reflexivity|].
  destruct (@occupants_fold rows [] (NoDup_nil _) (fun k r (H : In (k, r) []) =>
              match H with end)) as (Hn & Hid & Hk & Hg).
  fold m in Hn, Hid, Hk, Hg.
  assert (Hids : map ro_RoomID (map snd (mapOrder m)) = map fst (mapOrder m)).
  { rewrite map_map. apply map_ext_in. intros [k r] Hin. simpl.
    apply Hid. now apply (Permutation_in _ (Hmap m)). }
  assert (HrowsIn : forall k,
            In k (map row_roomID rows) <-> In k (map fst rooms)).
  { intros k. unfold rows. rewrite <- occupantRows_rooms. split; intros H.
    - eapply Permutation_in; [apply Permutation_map, Hrows|exact H].
    - eapply Permutation_in;
        [apply Permutation_map, Permutation_sym, Hrows|exact H]. }
  split; [|split].
  - rewrite Hids.
    apply (Permutation_NoDup (Permutation_map fst (Permutation_sym (Hmap m)))).
    exact Hn.
  - intros k. rewrite Hids, <- HrowsIn. split; intros H.
    + apply (Permutation_in _ (Permutation_map fst (Hmap m))) in H.
      apply Hk in H. destruct H as [[]|H]. exact H.
    + apply (Permutation_in _ (Permutation_map fst (Permutation_sym (Hmap m)))).
      apply Hk. now right.
  - intros room Hroom o. apply in_map_iff in Hroom.
    destruct Hroom as ([k r] & <- & Hin). simpl.
    apply (Permutation_in _ (Hmap m)) in Hin.
    rewrite <- (@roomsMapGet_In k r m Hn Hin), Hg. simpl.
    rewrite (Hid k r Hin).
    assert (Hperm : Permutation (flat_map (rowOccupant k) rows)
                      (flat_map (rowOccupant k)
                         (occupantRows rooms users (user_presence_sessions w)))).
    { rewrite !flat_map_concat_map.
      apply Permutation_concat_map, Hrows. }
    split.
    + intros Ho. apply (Permutation_in _ Hperm) in Ho.
      apply occupantRows_occupant in Ho. tauto.
    + intros Ho. apply (Permutation_in _ (Permutation_sym Hperm)).
      apply occupantRows_occupant. split; [|exact Ho].
      apply HrowsIn.
      assert (Hkm : In k (map fst m))
        by (change k with (fst (k, r)); now apply in_map).
      apply Hk in Hkm. destruct Hkm as [[]|Hkm]. exact Hkm.
Qed.

Lemma current_occupants_correct_witness :
  exists reply,
    fst (handleCurrentOccupants
           [(3, "lab"); (5, "office")]%string [(1, "alice")]%string
           (@rev _) (@rev _) true sessionWorld)
    = HistoryOK reply /\
    forall k, In k (map ro_RoomID reply) <-> In k [3; 5].
Proof.
  destruct (@current_occupants_correct
              [(3, "lab"); (5, "office")]%string [(1, "alice")]%string
              (@rev _) (@rev _) sessionWorld eq_refl
              (fun m => Permutation_sym (Permutation_rev m))
              (fun m => Permutation_sym (Permutation_rev m)))
    as (reply & Hrun & _ & Hk & _).
  exists reply. rewrite Hrun. split; [reflexivity|exact Hk].
Defined.

(** X19: the occupants handler answers 500 when the query fails or its
    rows cannot be read to the end, and never changes the store. *)
Theorem current_occupants_failures
    (rooms users : list (Z * string))
    (rowOrder : list OccupantRow -> list OccupantRow)
    (mapOrder : list (Z * RoomOccupants) -> list (Z * RoomOccupants))
    (encode_ok : bool) (w : World) (rest : list bool) :
  let run := handleCurrentOccupants rooms users rowOrder mapOrder encode_ok w in
  (db_script w = false :: rest ->
   run = (HistoryFailed StatusInternalServerError, with_db_script rest w)) /\
  (db_script w = true :: false :: rest ->
   run = (HistoryFailed StatusInternalServerError, with_db_script rest w)) /\
  (encode_ok = false -> fst run = HistoryFailed StatusInternalServerError) /\
  (exists s, snd run = with_db_script s w).
Proof.
  intros run. subst run. unfold handleCurrentOccupants, bind, db_roundtrip, ret.
  destruct w as [bs aps ss n script calls negs].
  unfold with_db_script. cbn [db_script beacons wifi_access_points
    user_presence_sessions next_session_id inquiry_calls negative_samples].
  split; [|split; [|split]].
  - intros ->. reflexivity.
  - intros ->. reflexivity.
  - intros ->. destruct script as [|[] [|[] r]]; reflexivity.
  - destruct script as [|[] [|[] r]]; destruct encode_ok;
      eexists; cbn [fst snd db_script]; reflexivity.
Qed.

Lemma current_occupants_failures_witness :
  db_script failingWorld = [false] /\
  fst (handleCurrentOccupants [] [] (fun r => r) (fun m => m) true failingWorld)
  = HistoryFailed StatusInternalServerError.
Proof.
  split; [reflexivity|].
  destruct (@current_occupants_failures [] [] (fun r => r) (fun m => m) true
              failingWorld []) as (H & _).
  now rewrite (H eq_refl).
Defined.

(** * The checks before the estimation *)

Example demo_submit_anonymous :
  fst (handleSignalsSubmitRequest demoUsers (demoRequest None 10) sessionWorld)
  = (SubmitHandled UploadAccepted, [WifiData; BleData]) /\
  fst (handleSignalsSubmitRequest demoUsers (demoRequest (Some "bob"%string) 10) sessionWorld)
  = (SubmitRejected 401, []).
Proof. split; reflexivity. Qed.

Lemma handleSignalsSubmit_only_touches up w :
  only_touches (up_userID up) w (snd (handleSignalsSubmit up w)).
Proof.
  apply (@lift_handleSignalsSubmit (only_touches (up_userID up))
           (fun u => u = up_userID up)); auto.
  - apply only_touches_same.
  - apply only_touches_trans.
  - intros u t w1 w2 ->. apply only_touches_sql_end.
  - intros u t w1 w2 ->. apply only_touches_sql_touch.
  - intros id u room t w1 w2 ->. apply only_touches_sql_insert.
Qed.

(** What the user lookup does to the world and what it returns. *)
Lemma getUserIDFromDB_run users username w :
  exists ok s,
    getUserIDFromDB users username w =
    ((if ok : bool then
        match find (fun u => String.eqb (snd u) username) users with
        | Some u => Ok (fst u)
        | None => Err ErrNoRows
        end
      else Err ErrDriver), with_db_script s w) /\
    (db_script w = [] -> ok = true /\ s = []) /\
    (forall rest, db_script w = false :: rest -> ok = false /\ s = rest).
Proof.
  unfold getUserIDFromDB, bind, db_roundtrip, ret.
  destruct (db_script w) as [|[] rest] eqn:E.
  - exists true, []. rewrite <- E, with_db_script_same.
    split; [|split; [auto|intros r Hr; rewrite E in Hr; discriminate]].
    now destruct (find _ users).
  - exists true, rest.
    split; [|split; [discriminate|discriminate]].
    now destruct (find _ users).
  - exists false, rest.
    split; [reflexivity|split; [discriminate|]].
    intros r [= <-]. auto.
Qed.

Ltac submit_reject status files s Hnot :=
  left; exists status, files, s;
  split; [reflexivity|];
  split; [simpl; tauto|];
  intros _; split;
  [ intros rest Hr; now destruct (Hnot rest)
  | intros _ Hd; discriminate Hd ].

(** The outcomes of the checks, with the rest of the handler abstract. *)
Lemma submit_checks_cases (h : Upload -> M Response) users req w :
  let run :=
    (if negb (sr_isPost req) then ret (SubmitRejected StatusMethodNotAllowed, [])
     else if negb (sr_formParses req) then ret (SubmitRejected StatusBadRequest, [])
     else if negb (sr_hasWifi req) then ret (SubmitRejected StatusBadRequest, [])
     else if negb (sr_hasBle req) then ret (SubmitRejected StatusBadRequest, [])
     else
       found <- getUserIDFromDB users (getUserID (sr_basicAuth req)) ;;
       match found with
       | Err _ => ret (SubmitRejected StatusUnauthorized, [])
       | Ok userID =>
         if negb (sr_mkdir req)
         then ret (SubmitRejected StatusInternalServerError, [])
         else if negb (sr_saveWifi req)
         then ret (SubmitRejected StatusInternalServerError, [])
         else if negb (sr_saveBle req)
         then ret (SubmitRejected StatusInternalServerError, [WifiData])
         else
           match sr_wifiSize req, sr_bleSize req with
           | Some wifiSize, Some bleSize =>
               if (wifiSize =? 0) || (bleSize =? 0)
               then ret (SubmitRejected StatusBadRequest, [WifiData; BleData])
               else
                 r <- h (uploadOf userID (sr_upload req)) ;;
                 ret (SubmitHandled r, [WifiData; BleData])
           | _, _ =>
               ret (SubmitRejected StatusInternalServerError, [WifiData; BleData])
           end
       end) w in
  (exists status files s,
      run = ((SubmitRejected status, files), with_db_script s w) /\
      In status [400; 401; 405; 500] /\
      (reachesLookup req = true ->
       (forall rest, db_script w = false :: rest ->
                     status = 401 /\ files = [] /\ s = rest) /\
       (db_script w = [] ->
        find (fun u => String.eqb (snd u) (getUserID (sr_basicAuth req))) users = None ->
        status = 401 /\ files = []))) \/
  (exists u s wifiSize bleSize,
      reachesLookup req = true /\
      find (fun u => String.eqb (snd u) (getUserID (sr_basicAuth req))) users = Some u /\
      sr_wifiSize req = Some wifiSize /\ sr_bleSize req = Some bleSize /\
      wifiSize <> 0 /\ bleSize <> 0 /\
      (forall rest, db_script w <> false :: rest) /\
      run = ((SubmitHandled (fst (h (uploadOf (fst u) (sr_upload req))
                                   (with_db_script s w))),
              [WifiData; BleData]),
             snd (h (uploadOf (fst u) (sr_upload req)) (with_db_script s w)))).
Proof.
  intros run. subst run. unfold reachesLookup.
  assert (Hsame : forall st (files : list SignalFile),
            ret (SubmitRejected st, files) w
            = ((SubmitRejected st, files), with_db_script (db_script w) w))
    by (intros; unfold ret; now rewrite with_db_script_same).
  destruct (sr_isPost req);
    [|left; do 3 eexists; split; [apply Hsame|];
      split; [simpl; tauto|discriminate]].
  destruct (sr_formParses req);
    [|left; do 3 eexists; split; [apply Hsame|];
      split; [simpl; tauto|discriminate]].
  destruct (sr_hasWifi req);
    [|left; do 3 eexists; split; [apply Hsame|];
      split; [simpl; tauto|discriminate]].
  destruct (sr_hasBle req);
    [|left; do 3 eexists; split; [apply Hsame|];
      split; [simpl; tauto|discriminate]].
  cbn [negb andb]. rewrite bind_run.
  destruct (getUserIDFromDB_run users (getUserID (sr_basicAuth req)) w)
    as (ok & s & Hrun & Hnil & Hfalse).
  rewrite Hrun. cbn [fst snd].
  destruct ok.
  2:{ left. exists 401, [], s. split; [reflexivity|]. split; [simpl; tauto|].
      intros _. split.
      - intros rest Hr. destruct (Hfalse rest Hr). auto.
      - intros Hr. destruct (Hnil Hr). discriminate. }
  destruct (find _ users) as [u|] eqn:Hfind.
  2:{ left. exists 401, [], s. split; [reflexivity|]. split; [simpl; tauto|].
      intros _. split.
      - intros rest Hr. destruct (Hfalse rest Hr). discriminate.
      - auto. }
  assert (Hnot : forall rest, db_script w <> false :: rest)
    by (intros rest Hr; destruct (Hfalse rest Hr); discriminate).
  destruct (sr_mkdir req); [|submit_reject 500 (@nil SignalFile) s Hnot].
  destruct (sr_saveWifi req); [|submit_reject 500 (@nil SignalFile) s Hnot].
  destruct (sr_saveBle req); [|submit_reject 500 [WifiData] s Hnot].
  cbn [negb].
  destruct (sr_wifiSize req) as [wifiSize|];
    [|submit_reject 500 [WifiData; BleData] s Hnot].
  destruct (sr_bleSize req) as [bleSize|];
    [|submit_reject 500 [WifiData; BleData] s Hnot].
  destruct (Z.eqb_spec wifiSize 0) as [Hw|Hw];
    [submit_reject 400 [WifiData; BleData] s Hnot|].
  destruct (Z.eqb_spec bleSize 0) as [Hb|Hb];
    [submit_reject 400 [WifiData; BleData] s Hnot|].
  right. exists u, s, wifiSize, bleSize.
  repeat (split; [solve [auto]|]).
  cbn [orb]. rewrite bind_run. reflexivity.
Qed.

(** X20: the checks [handleSignalsSubmit] makes before it asks the
    estimation server.  A request it rejects is answered 400, 401, 405 or
    500 and changes nothing but the pending database answers: no session
    row, no arbiter request, no negative sample.  A request that reaches
    the user lookup while the database is down is answered 401, like one
    whose user name has no row in [users].  A request is handled further
    only if it is a POST whose form carries both files, both files were
    stored and neither is empty; it then runs as the first [users] row
    whose [user_id] is the Basic-Auth user name, or ["anonymous"] when the
    request carries no name. *)
Theorem submit_checks (users : list (Z * string)) (req : SubmitRequest) (w : World) :
  let run := handleSignalsSubmitRequest users req w in
  let username := getUserID (sr_basicAuth req) in
  (forall status, fst (fst run) = SubmitRejected status ->
     In status [400; 401; 405; 500] /\
     exists s, snd run = with_db_script s w) /\
  (forall r, fst (fst run) = SubmitHandled r ->
     reachesLookup req = true /\
     snd (fst run) = [WifiData; BleData] /\
     (exists wifiSize bleSize,
        sr_wifiSize req = Some wifiSize /\ sr_bleSize req = Some bleSize /\
        wifiSize <> 0 /\ bleSize <> 0) /\
     exists u s,
       find (fun u => String.eqb (snd u) username) users = Some u /\
       handleSignalsSubmit (uploadOf (fst u) (sr_upload req)) (with_db_script s w)
       = (r, snd run)) /\
  (reachesLookup req = true ->
   forall rest, db_script w = false :: rest ->
     run = ((SubmitRejected StatusUnauthorized, []), with_db_script rest w)) /\
  (reachesLookup req = true -> db_reliable w ->
   find (fun u => String.eqb (snd u) username) users = None ->
   run = ((SubmitRejected StatusUnauthorized, []), w)) /\
  (sr_basicAuth req = None \/ sr_basicAuth req = Some ""%string ->
   username = "anonymous"%string).
Proof.
  intros run username. subst run username.
  destruct (submit_checks_cases handleSignalsSubmit users req w) as [Hc|Hc];
    fold (handleSignalsSubmitRequest users req) in Hc.
  - destruct Hc as (status & files & s & Hrun & Hin & Hlook).
    rewrite Hrun. cbn [fst snd].
    split; [|split; [|split; [|split]]].
    + intros st [= <-]. split; [exact Hin|now exists s].
    + discriminate.
    + intros Hr rest Hs. destruct (Hlook Hr) as [H _].
      destruct (H rest Hs) as (-> & -> & ->). reflexivity.
    + intros Hr Hs Hf. destruct (Hlook Hr) as [_ H].
      destruct (H Hs Hf) as (-> & ->).
      assert (Hw : with_db_script s w = w).
      { apply (f_equal snd) in Hrun. cbn [snd] in Hrun. rewrite <- Hrun.
        clear Hrun. unfold handleSignalsSubmitRequest.
        unfold reachesLookup in Hr.
        destruct (sr_isPost req), (sr_formParses req), (sr_hasWifi req),
          (sr_hasBle req); try discriminate.
        cbn [negb]. rewrite bind_run.
        destruct (getUserIDFromDB_run users (getUserID (sr_basicAuth req)) w)
          as (ok & s' & Hrun' & Hnil & _).
        rewrite Hrun'. destruct (Hnil Hs) as [-> ->]. rewrite Hf.
        cbn [fst snd]. unfold ret. cbn [snd].
        rewrite <- Hs. apply with_db_script_same. }
      now rewrite Hw.
    + intros [-> | ->]; reflexivity.
  - destruct Hc as (u & s & wifiSize & bleSize & Hr & Hf & Hws & Hbs & Hw0 & Hb0
                    & Hnot & Hrun).
    rewrite Hrun. cbn [fst snd].
    split; [|split; [|split; [|split]]].
    + discriminate.
    + intros r [= <-]. split; [exact Hr|]. split; [reflexivity|].
      split; [now exists wifiSize, bleSize|].
      exists u, s. split; [exact Hf|]. now destruct (handleSignalsSubmit _ _).
    + intros _ rest Hs. now destruct (Hnot rest).
    + intros _ _ Hnone. rewrite Hnone in Hf. discriminate.
    + intros [-> | ->]; reflexivity.
Qed.

Lemma submit_checks_witness :
  db_script failingWorld = [false] /\
  handleSignalsSubmitRequest demoUsers (demoRequest (Some "alice"%string) 85) failingWorld
  = ((SubmitRejected StatusUnauthorized, []), with_db_script [] failingWorld).
Proof.
  split; [reflexivity|].
  destruct (@submit_checks demoUsers (demoRequest (Some "alice"%string) 85) failingWorld)
    as (_ & _ & H & _).
  apply H; reflexivity.
Defined.

(** X21: whatever the request and whatever fails, an upload changes no
    session of anybody but the account it is attributed to: every other
    user's rows stay what and where they were and none is added; a request
    whose user name has no [users] row leaves the whole table as it was. *)
Theorem upload_request_touches_only_its_account
    (users : list (Z * string)) (req : SubmitRequest) (w : World) :
  let w' := snd (handleSignalsSubmitRequest users req w) in
  match find (fun u => String.eqb (snd u) (getUserID (sr_basicAuth req))) users with
  | Some u => only_touches (fst u) w w'
  | None => user_presence_sessions w' = user_presence_sessions w
  end.
Proof.
  intros w'. subst w'.
  destruct (submit_checks_cases handleSignalsSubmit users req w) as [Hc|Hc];
    fold (handleSignalsSubmitRequest users req) in Hc.
  - destruct Hc as (status & files & s & Hrun & _). rewrite Hrun. cbn [snd].
    destruct (find _ users); [apply only_touches_same|]; reflexivity.
  - destruct Hc as (u & s & wifiSize & bleSize & _ & Hf & _ & _ & _ & _ & _ & Hrun).
    rewrite Hrun, Hf. cbn [snd].
    apply only_touches_trans with (w2 := with_db_script s w);
      [apply only_touches_same; reflexivity|].
    apply (handleSignalsSubmit_only_touches
             (uploadOf (fst u) (sr_upload req)) (with_db_script s w)).
Qed.

Lemma upload_request_touches_only_its_account_witness :
  nth_error
    (user_presence_sessions
       (snd (handleSignalsSubmitRequest demoUsers
               (demoRequest (Some "alice"%string) 10) doubleOpenWorld))) 1
  = Some (mkSession 2 2 3 150 None 150).
Proof.
  apply (proj1 (@upload_request_touches_only_its_account demoUsers
                  (demoRequest (Some "alice"%string) 10) doubleOpenWorld));
    [reflexivity|]. simpl. lia.
Defined.

(** * The estimation relay *)

Example demo_relay :
  handleSignalsServerSubmit
    (mkServerSubmitRequest true true true true true true (demoExchange (141 # 2)) true)
  = (200, Some 70).
Proof. reflexivity. Qed.







(** * The route of a user's history *)

Example demo_usersRoute :
  usersRoute "/api/users/42/presence_history/" true = RouteHistory 42 /\
  usersRoute "/api/users/+7/presence_history" true = RouteHistory 7 /\
  usersRoute "/api/users/bob/presence_history" true = RouteBadUserID /\
  usersRoute "/api/users/42/presence_history" false = RouteNotFound /\
  usersRoute "/api/users/42" true = RouteNotFound.
Proof. repeat split. Qed.
















